(** * face_detection: capture, detect, annotate, display

    A shallow embedding of the Python sources
      backend/config_loader.py, backend/image_captor.py,
      frontend/image_displayer.py, backend/object_detection_models.py
    followed by the properties of the natural-language specification.

    Conventions of the embedding.
    - A Python method that mutates [self] or the outside world is a function
      in the state-and-exception monad [M S], where [S] is the state it
      touches.  A raised exception keeps the state reached so far.
    - numpy and Python floating-point scalars are modelled by the rational
      numbers they denote (type [Q]).  The rows of [boxes.data] are numpy
      [float32] scalars; where the code computes with them the result is
      rounded to single precision ([f32]), as numpy 2 does.  NaN, the
      infinities and exponent overflow are outside the model.
    - External libraries (OpenCV, pylon, ultralytics, the file system, the
      clock, the keyboard) appear as explicit state: device records, the
      table of HighGUI windows, and lists of the answers the environment is
      going to give. *)

From Stdlib Require Import ZArith QArith Qabs Qpower Ascii String List Lia Lqa Bool.
From stdpp Require Import gmap strings list fin_maps pretty.
Import ListNotations.

Open Scope string_scope.
Open Scope list_scope.
Open Scope Z_scope.

(** ** Python exceptions and the state-and-exception monad *)

Inductive exn : Type :=
| Exception (msg : string)
| ValueError (msg : string)
| AttributeError (obj attr : string)
| ZeroDivisionError (msg : string)
| cv2_error (msg : string)
| TimeoutException (msg : string)
| IndexError (msg : string)
| ExternalError (msg : string).

(** [str(e)] *)
Definition exn_str (e : exn) : string :=
  match e with
  | Exception m | ValueError m | ZeroDivisionError m | cv2_error m
  | TimeoutException m | IndexError m | ExternalError m => m
  | AttributeError o a => "'" +:+ o +:+ "' object has no attribute '" +:+ a +:+ "'"
  end.

Inductive res (A : Type) : Type :=
| Ok (a : A)
| Raise (e : exn).
Arguments Ok {A} a.
Arguments Raise {A} e.

Definition M (S A : Type) : Type := S -> res A * S.

Definition ret {S A} (a : A) : M S A := fun s => (Ok a, s).

Definition raise {S A} (e : exn) : M S A := fun s => (Raise e, s).

Definition bind {S A B} (m : M S A) (k : A -> M S B) : M S B :=
  fun s => match m s with
           | (Ok a, s') => k a s'
           | (Raise e, s') => (Raise e, s')
           end.

Definition gets {S A} (f : S -> A) : M S A := fun s => (Ok (f s), s).

Definition modify {S} (f : S -> S) : M S unit := fun s => (Ok tt, f s).

(** [try: ... except Exception: handler] *)
Definition try_except {S A} (m : M S A) (handler : exn -> M S A) : M S A :=
  fun s => match m s with
           | (Ok a, s') => (Ok a, s')
           | (Raise e, s') => handler e s'
           end.

(** Run a method of a component stored in a part of the state. *)
Definition zoom {S T A} (get : S -> T) (set : T -> S -> S) (m : M T A) : M S A :=
  fun s => let '(r, t') := m (get s) in (r, set t' s).

Declare Scope py_scope.
Delimit Scope py_scope with py.
Notation "'do' x <- c ; k" := (bind c (fun x => k))
  (at level 10, x name, c at level 100, k at level 200) : py_scope.
Notation "'do' ' p <- c ; k" := (bind c (fun x => match x with p => k end))
  (at level 10, p pattern, c at level 100, k at level 200) : py_scope.
Notation "c ;; k" := (bind c (fun _ => k))
  (at level 100, k at level 200, right associativity) : py_scope.
Open Scope py_scope.

(** ** Numbers *)

(** Python's [int(x)] on a float: truncation towards zero. *)
Definition py_int (x : Q) : Z := Z.quot (Qnum x) (Zpos (Qden x)).

(** [x > y] on floats. *)
Definition Qgtb (x y : Q) : bool := negb (Qle_bool x y).

(** Rounding to the nearest integer, ties to the even one (the rule of
    Python's [round] and of numpy's [rint]). *)
Definition round_half_even (x : Q) : Z :=
  let n := Qnum x in
  let d := Zpos (Qden x) in
  let f := n / d in
  let r := n mod d in
  match 2 * r ?= d with
  | Lt => f
  | Gt => f + 1
  | Eq => if Z.even f then f else f + 1
  end.

(** *** Single precision

    A finite [float32] is a multiple of [2^q] with less than [2^24] units,
    where [q] is 23 below the binary exponent of the number and at least
    -149 (the subnormal numbers). *)

Definition pow2 (k : Z) : Q := (2 ^ k)%Q.

(** The binary exponent [e] of a number other than zero:
    [2^e <= |x| < 2^(e+1)]. *)
Definition binade (x : Q) : Z :=
  let e0 := Z.log2 (Z.abs (Qnum x)) - Z.log2 (Zpos (Qden x)) in
  if Qle_bool (pow2 e0) (Qabs x) then e0 else e0 - 1.

(** The exponent of the unit in the last place of the float32 format at [x]. *)
Definition ulp_exponent (x : Q) : Z := Z.max (binade x) (-126) - 23.

(** The [float32] nearest to [x], ties to the even significand: what a cast
    to [float32] and every [float32] operation return for the exact result
    [x]. *)
Definition f32 (x : Q) : Q :=
  let q := ulp_exponent x in
  (inject_Z (round_half_even (x * pow2 (- q))) * pow2 q)%Q.

(** [x > y] for a numpy [float32] scalar [x] and a Python float [y].  Under
    the promotion rules of numpy 2 the Python float takes the type of the
    numpy scalar: it is cast to [float32], and the comparison is made
    there. *)
Definition float32_gt (x y : Q) : bool := Qgtb x (f32 y).

(** [round(x, 2)] for a numpy [float32] scalar [x], as a number of
    hundredths: numpy multiplies by 100 in single precision and rounds the
    product to the nearest integer. *)
Definition round2_hundredths (x : Q) : Z := round_half_even (f32 (x * 100)).

(** [round(x, 2)], as a number: the hundredths divided by 100 in single
    precision. *)
Definition round2 (x : Q) : Q := f32 (round2_hundredths x # 100).

(** [str] of the [float32] nearest to [c] hundredths: the shortest decimal
    that reads back as that [float32], in positional notation with at least
    one digit after the point ("0.91", "0.9", "1.0").  For less than a
    million hundredths that decimal is [c / 100] itself; a confidence has at
    most a hundred. *)
Definition str_hundredths (c : Z) : string :=
  let a := Z.abs c in
  let frac := a mod 100 in
  (if (c <? 0)%Z then "-" else EmptyString)
  +:+ pretty (a / 100) +:+ "."
  +:+ (if (frac mod 10 =? 0)%Z then pretty (frac / 10)
       else pretty (frac / 10) +:+ pretty (frac mod 10)).

(** [str(round(x, 2))] *)
Definition str_round2 (x : Q) : string := str_hundredths (round2_hundredths x).

(** ** Images and frames *)

Definition Pixel : Type := Z * Z * Z.
Definition Image : Type := list (list Pixel).

(** OpenCV constants used by the sources. *)
Definition FONT_HERSHEY_COMPLEX : Z := 3.
Definition LINE_AA : Z := 16.
Definition WND_PROP_FULLSCREEN : Z := 0.
Definition WINDOW_FULLSCREEN : Z := 1.

(** What [cv2.rectangle] and [cv2.putText] were asked to paint. *)
Inductive Drawing : Type :=
| Rectangle (pt1 pt2 : Z * Z) (color : Z * Z * Z) (thickness : Z)
| PutText (text : string) (org : Z * Z) (fontFace : Z) (fontScale : Q)
          (color : Z * Z * Z) (thickness : Z) (lineType : Z).

(** A frame is a numpy array; the drawing calls mutate it in place, which the
    embedding records as the list of drawings applied so far, oldest first. *)
Record Frame : Type := mkFrame { pixels : Image; drawn : list Drawing }.

(** [cv2.rectangle] and [cv2.putText] take [None] for an empty matrix: they
    paint nothing, raise nothing and return [None].  The binding converts
    the points to C ints; points outside the range of a C int, which it
    refuses, are not part of the embedding, and the properties of drawing
    are stated for boxes within that range. *)
Definition cv2_rectangle (img : option Frame) (pt1 pt2 : Z * Z)
    (color : Z * Z * Z) (thickness : Z) : res (option Frame) :=
  match img with
  | None => Ok None
  | Some f => Ok (Some (mkFrame (pixels f)
                          (drawn f ++ [Rectangle pt1 pt2 color thickness])))
  end.

Definition cv2_putText (img : option Frame) (text : string) (org : Z * Z)
    (fontFace : Z) (fontScale : Q) (color : Z * Z * Z) (thickness : Z)
    (lineType : Z) : res (option Frame) :=
  match img with
  | None => Ok None
  | Some f => Ok (Some (mkFrame (pixels f)
                          (drawn f ++ [PutText text org fontFace fontScale
                                               color thickness lineType])))
  end.

(** An array without rows or without columns. *)
Definition image_is_empty (img : Image) : bool :=
  match img with
  | [] => true
  | [] :: _ => true
  | (_ :: _) :: _ => false
  end.

(** [cv2.flip(img, 1)]: mirror around the vertical axis. *)
Definition cv2_flip_horizontal (img : Image) : Image := map (@rev Pixel) img.

Definition lift_res {S A} (r : res A) : M S A := fun s => (r, s).


(** ** backend/config_loader.py *)

(** Parsed JSON, as [json.load] returns it. *)
#[local] Set Warnings "-register-all".
Inductive Json : Type :=
| JNull
| JBool (b : bool)
| JInt (n : Z)
| JFloat (x : Q)
| JString (s : string)
| JList (items : list Json)
| JDict (entries : list (string * Json)).

Module ConfigLoader.

(** What [open] and [json.load] meet at a path at the time of a call. *)
Inductive FileState : Type :=
| Missing                      (* open raises FileNotFoundError *)
| Malformed                    (* json.load raises JSONDecodeError *)
| Parses (value : Json).

Definition FileSystem : Type := string -> FileState.

(** The instance.  [config] is absent until [load_config] assigns it.
    [_is_loaded] is looked up on the instance first and on the class
    second; the class attribute is [False] and is never assigned, so one
    boolean that starts at [false] is the same lookup. *)
Record Self : Type := mkSelf {
  file_path : option string;
  config : option Json;
  _is_loaded : bool
}.

(** The class attribute [_instance], and the log of the files that were
    opened and handed to [json.load]. *)
Record Heap : Type := mkHeap {
  _instance : option Self;
  file_reads : list string
}.

Definition initial : Heap := mkHeap None [].

(** [__new__(cls, file_path=None)]: the instance this call evaluates to. *)
Definition __new__ (file_path : option string) (cls_instance : option Self) : Self :=
  match cls_instance with
  | None => mkSelf file_path None false
  | Some self => self
  end.

(** Truth value of [self.file_path]. *)
Definition truthy (p : option string) : option string :=
  match p with
  | Some EmptyString => None
  | Some s => Some s
  | None => None
  end.

Definition isinstance_dict (j : Json) : bool :=
  match j with JDict _ => true | _ => false end.

(** [self.config = j] *)
Definition set_config (j : Json) : M (Self * list string) unit :=
  modify (fun s : Self * list string =>
            (mkSelf (file_path (fst s)) (Some j) (_is_loaded (fst s)), snd s)).

(** [self._is_loaded = b] *)
Definition set_is_loaded (b : bool) : M (Self * list string) unit :=
  modify (fun s : Self * list string =>
            (mkSelf (file_path (fst s)) (config (fst s)) b, snd s)).

(** [open(path)] succeeded and the file is being read. *)
Definition log_read (path : string) : M (Self * list string) unit :=
  modify (fun s : Self * list string => (fst s, snd s ++ [path])).

Definition validate_config : M (Self * list string) unit :=
  do c <- gets (fun s => config (fst s));
  match c with
  | Some j => if isinstance_dict j then ret tt
              else raise (ValueError "Конфигурация должна быть словарем.")
  | None => raise (AttributeError "ConfigLoader" "config")
  end.

Definition load_config (fs : FileSystem) : M (Self * list string) unit :=
  do self <- gets fst;
  if negb (_is_loaded self) then
    match truthy (file_path self) with
    | Some path =>
        match fs path with
        | Missing =>
            raise (Exception ("Конфигурационный файл " +:+ path +:+ " не найден."))
        | Malformed =>
            log_read path ;;
            raise (Exception ("Ошибка при разборе JSON из файла " +:+ path +:+ "."))
        | Parses j =>
            log_read path ;;
            set_config j ;;
            validate_config ;;
            set_is_loaded true
        end
    | None => ret tt
    end
  else ret tt.

(** The property [get_config]. *)
Definition get_config (fs : FileSystem) : M (Self * list string) Json :=
  do self <- gets fst;
  (if negb (_is_loaded self) then load_config fs else ret tt) ;;
  do c <- gets (fun s => config (fst s));
  match c with
  | Some j => ret j
  | None => raise (AttributeError "ConfigLoader" "config")
  end.

(** One access, [ConfigLoader(file_path).get_config], against the file
    system as it is at that moment. *)
Definition access (file_path : option string) (fs : FileSystem) : M Heap Json :=
  fun h =>
    let self := __new__ file_path (_instance h) in
    let '(r, (self', log)) := get_config fs (self, file_reads h) in
    (r, mkHeap (Some self') log).

(** A sequence of accesses; each comes with the path it passes to the
    constructor and the file system of its moment.  The results are
    listed in order. *)
Fixpoint accesses (calls : list (option string * FileSystem)) (h : Heap)
    : list (res Json) * Heap :=
  match calls with
  | [] => ([], h)
  | (p, fs) :: rest =>
      let '(r, h1) := access p fs h in
      let '(rs, h2) := accesses rest h1 in
      (r :: rs, h2)
  end.

End ConfigLoader.


(** ** The world outside the program *)

(** What the next [RetrieveResult] on a grabbing industrial camera meets. *)
Inductive GrabResult : Type :=
| GrabTimeout                   (* nothing arrives within the timeout *)
| GrabFailed                    (* a result whose GrabSucceeded() is False *)
| Grabbed (img : Image).

(** One enumerated pylon device. *)
Record Device : Type := mkDevice {
  IsOpen : bool;
  IsGrabbing : bool;
  node_map : option string;         (* the .pfs file applied, if any *)
  incoming : list GrabResult
}.

(** A HighGUI window. *)
Record Window : Type := mkWindow {
  flags : Z;
  fullscreen : bool;
  shown : option Frame
}.

(** A line of standard output. *)
Inductive Line : Type :=
| Text (s : string)
| Fps (fps : Q).                (* print("FPS", fps) *)

Record World : Type := mkWorld {
  stdout : list Line;
  pylon_devices : list Device;               (* in enumeration order *)
  pfs_loads : string -> bool;                (* does FeaturePersistence.Load accept the file *)
  windows : gmap string Window;
  keys : list Z;                             (* what the next cv2.waitKey calls return;
                                                once exhausted, no key is pressed *)
  clock : list Q;                            (* what the next time.time() calls return;
                                                once exhausted, the clock stands still *)
  now : Q;                                   (* the last reading of the clock *)
  inferences : list (option Frame * Z)       (* the calls made to model.predict *)
}.

Definition set_stdout (f : list Line -> list Line) (w : World) : World :=
  mkWorld (f (stdout w)) (pylon_devices w) (pfs_loads w) (windows w) (keys w) (clock w) (now w) (inferences w).
Definition set_pylon_devices (f : list Device -> list Device) (w : World) : World :=
  mkWorld (stdout w) (f (pylon_devices w)) (pfs_loads w) (windows w) (keys w) (clock w) (now w) (inferences w).
Definition set_windows (f : gmap string Window -> gmap string Window) (w : World) : World :=
  mkWorld (stdout w) (pylon_devices w) (pfs_loads w) (f (windows w)) (keys w) (clock w) (now w) (inferences w).
Definition set_keys (f : list Z -> list Z) (w : World) : World :=
  mkWorld (stdout w) (pylon_devices w) (pfs_loads w) (windows w) (f (keys w)) (clock w) (now w) (inferences w).
Definition set_clock (f : list Q -> list Q) (w : World) : World :=
  mkWorld (stdout w) (pylon_devices w) (pfs_loads w) (windows w) (keys w) (f (clock w)) (now w) (inferences w).
Definition set_now (f : Q -> Q) (w : World) : World :=
  mkWorld (stdout w) (pylon_devices w) (pfs_loads w) (windows w) (keys w) (clock w) (f (now w)) (inferences w).
Definition set_inferences (f : list (option Frame * Z) -> list (option Frame * Z)) (w : World) : World :=
  mkWorld (stdout w) (pylon_devices w) (pfs_loads w) (windows w) (keys w) (clock w) (now w) (f (inferences w)).

(** Methods run on a pair of the object and the world. *)
Definition in_world {Self A} (m : M World A) : M (Self * World) A :=
  zoom snd (fun w s => (fst s, w)) m.
Definition on_self {Self A} (m : M Self A) : M (Self * World) A :=
  zoom fst (fun o s => (o, snd s)) m.

Definition print {Self} (s : string) : M (Self * World) unit :=
  in_world (modify (set_stdout (fun out => out ++ [Text s]))).

(** ** backend/image_captor.py *)

Module Basler.

(** The attributes of a [BaslerImageCaptor]; an attribute that was never
    assigned is absent.  [camera] is the InstantCamera, identified by the
    enumeration index of the device it was created for. *)
Record Self : Type := mkSelf {
  devices : option nat;                 (* len(self.devices) *)
  camera : option nat;
  converter : bool
}.

Definition blank : Self := mkSelf None None false.

Definition St : Type := (Self * World)%type.

(** Access the device behind [self.camera]. *)
Definition the_camera : M St nat :=
  do self <- gets fst;
  match camera self with
  | Some i => ret i
  | None => raise (AttributeError "BaslerImageCaptor" "camera")
  end.

Definition device (i : nat) : M St Device :=
  do ds <- gets (fun s : St => pylon_devices (snd s));
  match ds !! i with
  | Some d => ret d
  | None => raise (ExternalError "pylon: device removed")
  end.

Definition update_device (i : nat) (f : Device -> Device) : M St unit :=
  in_world (modify (set_pylon_devices (fun ds => alter f i ds))).

(** The pylon calls of the sources, on device [i]. *)
Definition camera_Open (i : nat) : M St unit :=
  device i ;;
  update_device i (fun d => mkDevice true (IsGrabbing d) (node_map d) (incoming d)).

Definition camera_Close (i : nat) : M St unit :=
  update_device i (fun d => mkDevice false false (node_map d) (incoming d)).

Definition camera_StartGrabbing (i : nat) : M St unit :=
  update_device i (fun d => mkDevice true true (node_map d) (incoming d)).

Definition camera_StopGrabbing (i : nat) : M St unit :=
  update_device i (fun d => mkDevice (IsOpen d) false (node_map d) (incoming d)).

Definition camera_IsGrabbing (i : nat) : M St bool :=
  do d <- device i; ret (IsGrabbing d).

Definition camera_IsOpen (i : nat) : M St bool :=
  do d <- device i; ret (IsOpen d).

Definition FeaturePersistence_Load (path : string) (i : nat) : M St unit :=
  do ok <- gets (fun s : St => pfs_loads (snd s) path);
  if ok then
    update_device i (fun d => mkDevice (IsOpen d) (IsGrabbing d) (Some path) (incoming d))
  else raise (ExternalError ("pylon: cannot load " +:+ path)).

(** [RetrieveResult(timeout, TimeoutHandling_ThrowException)]: the next
    result of the device, or the SDK's timeout exception. *)
Definition camera_RetrieveResult_ThrowException (timeout_ms : Z) (i : nat)
    : M St (option Image) :=
  do d <- device i;
  match incoming d with
  | Grabbed img :: rest =>
      update_device i (fun d => mkDevice (IsOpen d) (IsGrabbing d) (node_map d) rest) ;;
      ret (Some img)
  | GrabFailed :: rest =>
      update_device i (fun d => mkDevice (IsOpen d) (IsGrabbing d) (node_map d) rest) ;;
      ret None
  | GrabTimeout :: rest =>
      update_device i (fun d => mkDevice (IsOpen d) (IsGrabbing d) (node_map d) rest) ;;
      raise (TimeoutException ("Grab timed out after " +:+ pretty timeout_ms +:+ " ms"))
  | [] =>
      raise (TimeoutException ("Grab timed out after " +:+ pretty timeout_ms +:+ " ms"))
  end.

Definition set_camera (i : nat) : M St unit :=
  on_self (modify (fun self => mkSelf (devices self) (Some i) (converter self))).

(** The body shared by the two branches that select a device, for device
    number [i]. *)
Definition select_device (i : nat) (path : string) : M St unit :=
  set_camera i ;;
  camera_Open i ;;
  try_except
    (FeaturePersistence_Load path i ;;
     print ("Конфигурация камеры Basler " +:+ pretty i +:+ " успешно загружена."))
    (fun e =>
       print ("Ошибка при загрузке конфигурации: " +:+ exn_str e) ;;
       raise (ValueError ("Не удалось загрузить конфигурацию камеры Basler "
                          +:+ pretty i +:+ " из файла " +:+ path))).

Definition __init__ (camera_index : Z) (path_to_basler_pfs_config_file : string)
    : M St unit :=
  do n <- gets (fun s : St => length (pylon_devices (snd s)));
  on_self (modify (fun self => mkSelf (Some n) (camera self) (converter self))) ;;
  (if ((n =? 1)%nat || (n =? 2)%nat) && (camera_index =? 0) then
     select_device 0 path_to_basler_pfs_config_file
   else if (n =? 2)%nat && (camera_index =? 1) then
     select_device 1 path_to_basler_pfs_config_file
   else
     raise (ValueError "Число подключенных камер Basler должно быть равно 1 или 2 (camera_index принимает значения 0 или 1)")) ;;
  on_self (modify (fun self => mkSelf (devices self) (camera self) true)) ;;
  do i <- the_camera;
  camera_StartGrabbing i.

Definition get_frame : M St (bool * option Frame) :=
  do i <- the_camera;
  do grabbing <- camera_IsGrabbing i;
  if grabbing then
    do grabResult <- camera_RetrieveResult_ThrowException 5000 i;
    match grabResult with
    | Some img =>
        do self <- gets fst;
        if converter self then ret (true, Some (mkFrame (cv2_flip_horizontal img) []))
        else raise (AttributeError "BaslerImageCaptor" "converter")
    | None => ret (false, None)
    end
  else ret (false, None).

Definition release : M St unit :=
  do i <- the_camera;
  do grabbing <- camera_IsGrabbing i;
  (if grabbing then camera_StopGrabbing i else ret tt) ;;
  do i <- the_camera;
  do is_open <- camera_IsOpen i;
  if is_open then camera_Close i else ret tt.

Definition __exit__ : M St unit := release.
Definition __del__ : M St unit := release.

End Basler.

Module WebCam.

(** A [cv2.VideoCapture]. *)
Record VideoCapture : Type := mkVideoCapture {
  isOpened : bool;
  upcoming : list (option Image);      (* what the next reads deliver; None is a failed read *)
  requested : list (Z * Z)             (* the (property, value) pairs passed to set *)
}.

Definition CAP_PROP_FRAME_WIDTH : Z := 3.
Definition CAP_PROP_FRAME_HEIGHT : Z := 4.

Record Self : Type := mkSelf { vid : option VideoCapture }.

Definition blank : Self := mkSelf None.

Definition St : Type := (Self * World)%type.

Definition the_vid : M St VideoCapture :=
  do self <- gets fst;
  match vid self with
  | Some v => ret v
  | None => raise (AttributeError "WebCamImageCaptor" "vid")
  end.

Definition set_vid (v : VideoCapture) : M St unit :=
  on_self (modify (fun _ => mkSelf (Some v))).

Definition vid_set (prop value : Z) : M St unit :=
  do v <- the_vid;
  set_vid (mkVideoCapture (isOpened v) (upcoming v) (requested v ++ [(prop, value)])).

(** [self.vid.read()] *)
Definition vid_read : M St (bool * option Frame) :=
  do v <- the_vid;
  match upcoming v with
  | Some img :: rest =>
      set_vid (mkVideoCapture (isOpened v) rest (requested v)) ;;
      ret (true, Some (mkFrame img []))
  | None :: rest =>
      set_vid (mkVideoCapture (isOpened v) rest (requested v)) ;;
      ret (false, None)
  | [] => ret (false, None)
  end.

(** [self.vid.release()] *)
Definition vid_release : M St unit :=
  do v <- the_vid;
  set_vid (mkVideoCapture false (upcoming v) (requested v)).

(** The source as an f-string prints it: a camera number or a path. *)
Definition source_str (video_source : Json) : string :=
  match video_source with
  | JInt n => pretty n
  | JString path => path
  | _ => "<object>"
  end.

(** [cv2_VideoCapture] is what OpenCV answers to [cv2.VideoCapture(video_source)]. *)
Definition __init__ (cv2_VideoCapture : Json -> VideoCapture)
    (video_source : Json) (width height : Z) : M St unit :=
  set_vid (cv2_VideoCapture video_source) ;;
  do v <- the_vid;
  if negb (isOpened v) then
    raise (Exception ("Unable to open video source: " +:+ source_str video_source))
  else
    vid_set CAP_PROP_FRAME_WIDTH width ;;
    vid_set CAP_PROP_FRAME_HEIGHT height.

Definition get_frame : M St (bool * option Frame) :=
  do v <- the_vid;
  if isOpened v then
    do ' (r, frame) <- vid_read;
    if (r : bool) then ret (r, frame) else ret (r, None)
  else ret (false, None).

Definition release : M St unit :=
  do v <- the_vid;
  if isOpened v then vid_release else ret tt.

Definition __exit__ : M St unit := release.
Definition __del__ : M St unit := release.

End WebCam.

(** ** frontend/image_displayer.py *)

(** A row of [boxes.data]: columns 0 to 3 are the corners of the box, column
    4 the confidence, column 5 the class. *)
Record Obj : Type := mkObj {
  obj0 : Q; obj1 : Q; obj2 : Q; obj3 : Q; obj4 : Q; obj5 : Q
}.

Module ImageDisplayer.

Record Monitor : Type := mkMonitor { x : Z; y : Z; width : Z; height : Z }.

Record Self : Type := mkSelf {
  monitors : list Monitor;
  config : Json;
  frame_size : Z * Z
}.

(** [get_monitors] is what screeninfo enumerates; the configuration comes
    from the singleton, constructed here without a path. *)
Definition __init__ (get_monitors : list Monitor) (fs : ConfigLoader.FileSystem)
    : M ConfigLoader.Heap Self :=
  do cfg <- ConfigLoader.access None fs;
  ret (mkSelf get_monitors cfg (1920, 1080)).

Definition get_monitors_positions (self : Self) : list (Z * Z) :=
  map (fun monitor => (x monitor, y monitor)) (monitors self).

Definition one_object_display (self : Self) (array : option Frame) (cur_obj : Obj)
    (des : string) : M World (option Frame) :=
  do array <- lift_res (cv2_rectangle array
                (py_int (obj0 cur_obj), py_int (obj1 cur_obj))
                (py_int (obj2 cur_obj), py_int (obj3 cur_obj)) (255, 255, 0) 2);
  lift_res (cv2_putText array des (py_int (obj0 cur_obj), py_int (obj1 cur_obj))
              FONT_HERSHEY_COMPLEX (7 # 10) (0, 0, 0) 1 LINE_AA).

Definition echo (s : string) : M World unit :=
  modify (set_stdout (fun out => out ++ [Text s])).

(** [cv2.namedWindow]: an existing window is left as it is. *)
Definition cv2_namedWindow (name : string) (window_flags : Z) : M World unit :=
  modify (set_windows (fun ws =>
    match ws !! name with
    | Some _ => ws
    | None => <[name := mkWindow window_flags false None]> ws
    end)).

(** [cv2.setWindowProperty(name, WND_PROP_FULLSCREEN, value)] *)
Definition cv2_setWindowProperty_fullscreen (name : string) (value : Z) : M World unit :=
  modify (set_windows (alter (fun win => mkWindow (flags win) (value =? WINDOW_FULLSCREEN)
                                                  (shown win)) name)).

(** [cv2.imshow]: asserts that the image has rows and columns, and creates
    the window when there is none of that name. *)
Definition cv2_imshow (name : string) (frame : Frame) : M World unit :=
  if image_is_empty (pixels frame) then
    raise (cv2_error "(-215:Assertion failed) size.width>0 && size.height>0 in function 'imshow'")
  else
    modify (set_windows (fun ws =>
      match ws !! name with
      | Some win => <[name := mkWindow (flags win) (fullscreen win) (Some frame)]> ws
      | None => <[name := mkWindow 1 false (Some frame)]> ws
      end)).

Definition default_monitor_number : Z := 1.

Definition show_frame_on_monitor (self : Self) (frame : option Frame)
    (monitor_number : Z) : M World unit :=
  if (monitor_number >=? Z.of_nat (length (monitors self))) || (monitor_number <? 0) then
    echo ("Монитор с номером " +:+ pretty monitor_number +:+ " не найден.")
  else
    match frame with
    | None => echo "Передано пустое изображение"
    | Some frame =>
        match get_monitors_positions self !! Z.to_nat monitor_number with
        | None => raise (IndexError "list index out of range")
        | Some (x, y) =>
            let window_name := "Monitor " +:+ pretty monitor_number in
            cv2_namedWindow window_name WND_PROP_FULLSCREEN ;;
            cv2_setWindowProperty_fullscreen window_name WINDOW_FULLSCREEN ;;
            cv2_imshow window_name frame
        end
    end.

End ImageDisplayer.

(** ** backend/object_detection_models.py *)

(** A loaded network: [predict] gives, for a frame and an inference size,
    one item per image, each with the rows of its [boxes.data]. *)
Record YOLO : Type := mkYOLO {
  predict : option Frame -> Z -> res (list (list Obj))
}.

(** Either kind of frame source can be handed to [run_model]. *)
Inductive Captor : Type :=
| WebCamImageCaptor (self : WebCam.Self)
| BaslerImageCaptor (self : Basler.Self).

Inductive LoopExit : Type :=
| Stopped            (* the loop was left through [break] *)
| Running.           (* the iterations asked for are done, the loop goes on *)

Module YOLOv8Model.

(** What torch and ultralytics answer at load time. *)
Record Runtime : Type := mkRuntime {
  cuda_is_available : bool;
  YOLO_ : string -> res YOLO
}.

Definition load_model (rt : Runtime) (path_to_model_weights : string) : M World YOLO :=
  let device := if cuda_is_available rt then "cuda" else "cpu" in
  ImageDisplayer.echo ("Using device: " +:+ device) ;;
  lift_res (YOLO_ rt path_to_model_weights).

(** [model.predict(frame, imgsz=imgsz)] *)
Definition model_predict (model : YOLO) (frame : option Frame) (imgsz : Z)
    : M World (list (list Obj)) :=
  modify (set_inferences (fun log => log ++ [(frame, imgsz)])) ;;
  lift_res (predict model frame imgsz).

(** The key looked up in the translator: [str(int(obj[5]))]. *)
Definition class_key (obj : Obj) : string := pretty (py_int (obj5 obj)).

(** The text drawn for a detection with translation [descr]. *)
Definition description (descr : string) (obj : Obj) : string :=
  descr +:+ " " +:+ str_round2 (obj4 obj).

(** The body of the inner loop.  The frame is the array that the drawing
    calls mutate; it is threaded through the iterations. *)
Definition visit (image_dislayer : ImageDisplayer.Self) (current_model_conf : Q)
    (labels_translator : gmap string string) (frame : option Frame) (obj : Obj)
    : M World (option Frame) :=
  if float32_gt (obj4 obj) current_model_conf then
    let translate := labels_translator in
    match translate !! class_key obj with
    | Some descr =>
        ImageDisplayer.one_object_display image_dislayer frame obj (description descr obj)
    | None => ret frame
    end
  else ret frame.

(** [for x in xs: frame = body(frame, x)] *)
Fixpoint for_each {S A B} (body : B -> A -> M S B) (xs : list A) (acc : B) : M S B :=
  match xs with
  | [] => ret acc
  | x :: rest => do acc' <- body acc x; for_each body rest acc'
  end.

Definition detect_objects (frame : option Frame) (model : YOLO)
    (current_model_conf : Q) (image_dislayer : ImageDisplayer.Self) (imgsz : Z)
    (labels_translator : gmap string string) : M World (option Frame) :=
  ImageDisplayer.echo "<class 'int'>" ;;
  do details_nn_results <- model_predict model frame imgsz;
  for_each (fun frame boxes_data =>
              for_each (visit image_dislayer current_model_conf labels_translator)
                       boxes_data frame)
           details_nn_results frame.

(** [time.time()] *)
Definition time_time : M World Q :=
  do ticks <- gets clock;
  match ticks with
  | t :: rest => modify (set_clock (fun _ => rest)) ;; modify (set_now (fun _ => t)) ;; ret t
  | [] => gets now
  end.

(** [cv2.waitKey(delay)]; -1 when no key was pressed. *)
Definition cv2_waitKey (delay : Z) : M World Z :=
  do ks <- gets keys;
  match ks with
  | k :: rest => modify (set_keys (fun _ => rest)) ;; ret k
  | [] => ret (-1)
  end.

Definition cv2_destroyAllWindows : M World unit :=
  modify (set_windows (fun _ => ∅)).

(** [ord('q')] *)
Definition ord_q : Z := 113.

Definition captor_get_frame : M (Captor * World) (bool * option Frame) :=
  fun s =>
    match fst s with
    | WebCamImageCaptor c =>
        let '(r, (c', w')) := WebCam.get_frame (c, snd s) in (r, (WebCamImageCaptor c', w'))
    | BaslerImageCaptor c =>
        let '(r, (c', w')) := Basler.get_frame (c, snd s) in (r, (BaslerImageCaptor c', w'))
    end.

(** Neither captor class defines [capture_from_basler]. *)
Definition captor_capture_from_basler : M (Captor * World) (option Frame) :=
  do c <- gets fst;
  match c with
  | WebCamImageCaptor _ => raise (AttributeError "WebCamImageCaptor" "capture_from_basler")
  | BaslerImageCaptor _ => raise (AttributeError "BaslerImageCaptor" "capture_from_basler")
  end.

(** The frame acquisition at the head of an iteration. *)
Definition acquire (camera_type : string) : M (Captor * World) (option Frame) :=
  if String.eqb camera_type "basler" then captor_capture_from_basler
  else if String.eqb camera_type "usb" then
    do ' (_, frame) <- captor_get_frame; ret frame
  else ret None.

(** The last statements of an iteration: the key poll.  [true] is [break]. *)
Definition poll_quit : M World bool :=
  do pressed_key <- cv2_waitKey 1;
  if Z.land pressed_key 255 =? ord_q then cv2_destroyAllWindows ;; ret true
  else ret false.

(** [fps = 1 / elapsed_time; print("FPS", fps)] *)
Definition report_fps (time_1 : Q) : M World unit :=
  do time_2 <- time_time;
  let elapsed_time := (time_2 - time_1)%Q in
  if Qeq_bool elapsed_time 0 then raise (ZeroDivisionError "float division by zero")
  else modify (set_stdout (fun out => out ++ [Fps (1 / elapsed_time)%Q])).

(** The statements of an iteration before the key poll. *)
Definition process_frame (model : YOLO) (translator : gmap string string)
    (cur_model_conf : Q) (displayer : ImageDisplayer.Self) (imgsz : Z)
    (camera_type : string) : M (Captor * World) unit :=
  do time_1 <- in_world time_time;
  do frame <- acquire camera_type;
  do frame <- in_world (detect_objects frame model cur_model_conf displayer imgsz translator);
  in_world (ImageDisplayer.show_frame_on_monitor displayer frame
              ImageDisplayer.default_monitor_number) ;;
  in_world (report_fps time_1).

(** One iteration of [while True]; [true] is [break]. *)
Definition iteration (model : YOLO) (translator : gmap string string)
    (cur_model_conf : Q) (displayer : ImageDisplayer.Self) (imgsz : Z)
    (camera_type : string) : M (Captor * World) bool :=
  process_frame model translator cur_model_conf displayer imgsz camera_type ;;
  in_world poll_quit.

(** At most [n] iterations of [while True]. *)
Fixpoint while_True (n : nat) (body : M (Captor * World) bool) : M (Captor * World) LoopExit :=
  match n with
  | O => ret Running
  | S n' => do stop <- body; if (stop : bool) then ret Stopped else while_True n' body
  end.

Definition default_camera_type : string := "usb".

Definition run_model (rt : Runtime) (translator : gmap string string) (weights : string)
    (cur_model_conf : Q) (displayer : ImageDisplayer.Self) (imgsz : Z)
    (camera_type : string) (n : nat) : M (Captor * World) LoopExit :=
  do model <- in_world (load_model rt weights);
  while_True n (iteration model translator cur_model_conf displayer imgsz camera_type).

End YOLOv8Model.

(** ** Vocabulary of the properties *)

(** The two conditions under which the inner loop draws, as a boolean: the
    comparison of the confidence with the threshold succeeds and the class
    has an entry in the translator. *)
Definition survives (threshold : Q) (translator : gmap string string) (o : Obj) : bool :=
  float32_gt (obj4 o) threshold
  && bool_decide (is_Some (translator !! YOLOv8Model.class_key o)).

(** The two drawings of one annotation: the box, then the label anchored at
    the box's first corner. *)
Definition annotation (descr : string) (o : Obj) : list Drawing :=
  [ Rectangle (py_int (obj0 o), py_int (obj1 o)) (py_int (obj2 o), py_int (obj3 o))
              (255, 255, 0) 2;
    PutText (descr +:+ " " +:+ str_hundredths (round2_hundredths (obj4 o)))
            (py_int (obj0 o), py_int (obj1 o))
            FONT_HERSHEY_COMPLEX (7 # 10) (0, 0, 0) 1 LINE_AA ].

Definition annotation_of (translator : gmap string string) (o : Obj) : list Drawing :=
  match translator !! YOLOv8Model.class_key o with
  | Some descr => annotation descr o
  | None => []
  end.

(** Reading a decimal numeral: digits, a point, digits. *)
Definition digit_value (c : Ascii.ascii) : option Z :=
  let n := Z.of_N (Ascii.N_of_ascii c) in
  if (48 <=? n) && (n <=? 57) then Some (n - 48) else None.

Fixpoint read_digits (s : string) (acc : Z) : option Z :=
  match s with
  | EmptyString => Some acc
  | String c rest =>
      match digit_value c with
      | Some d => read_digits rest (10 * acc + d)
      | None => None
      end
  end.

Fixpoint split_at_point (s : string) : string * option string :=
  match s with
  | EmptyString => (EmptyString, None)
  | String c rest =>
      if Ascii.eqb c "."%char then (EmptyString, Some rest)
      else let '(whole, frac) := split_at_point rest in (String c whole, frac)
  end.

Definition read_decimal (s : string) : option Q :=
  match split_at_point s with
  | (String c whole, Some (String c' frac)) =>
      match read_digits (String c whole) 0, read_digits (String c' frac) 0 with
      | Some i, Some f =>
          Some (inject_Z i + (f # Pos.pow 10 (Pos.of_nat (String.length (String c' frac)))))%Q
      | _, _ => None
      end
  | _ => None
  end.

Definition reads_back (c : Z) : bool :=
  match read_decimal (str_hundredths c) with
  | Some v => Qeq_bool v (c # 100)
  | None => false
  end.

(** The range of a C int, and the boxes whose truncated corners lie in it. *)
Definition int32 (z : Z) : bool := (-2147483648 <=? z) && (z <=? 2147483647).

Definition box_fits (o : Obj) : bool :=
  int32 (py_int (obj0 o)) && int32 (py_int (obj1 o))
  && int32 (py_int (obj2 o)) && int32 (py_int (obj3 o)).

(** Every detection that is going to be drawn has such a box. *)
Definition drawable (threshold : Q) (translator : gmap string string)
    (items : list (list Obj)) : bool :=
  forallb box_fits (List.filter (survives threshold translator) (concat items)).

#[global] Instance Q_eq_dec : EqDecision Q.
Proof. solve_decision. Defined.

#[global] Instance Obj_eq_dec : EqDecision Obj.
Proof. solve_decision. Defined.

(** [m] called [n] times in a row. *)
Fixpoint times {S} (n : nat) (m : M S unit) : M S unit :=
  match n with
  | O => ret tt
  | S n' => m ;; times n' m
  end.

(** A computation that leaves a component [proj] of the state alone,
    whatever it returns or raises. *)
Definition keeps {S X A} (proj : S -> X) (m : M S A) : Prop :=
  forall s, proj (snd (m s)) = proj s.

(** The example of the specification: two raw detections, threshold 0.5 and
    a translator that knows class 0 only. *)
Definition example_frame : Frame := mkFrame [[(12, 34, 56)]] [].
Definition example_detections : list Obj :=
  [ mkObj 10 10 50 50 (91 # 100) 0; mkObj 5 5 20 20 (40 # 100) 7 ].
Definition example_model : YOLO := mkYOLO (fun _ _ => Ok [example_detections]).

(** Confidences as the model returns them: the [float32] nearest to 0.91,
    to 0.4, to 0.75, to 0.515 and to 0.6; and the double nearest to 0.6, a
    threshold read from the configuration file. *)
Definition float32_0_91 : Q := 15267267 # 16777216.
Definition float32_0_4 : Q := 13421773 # 33554432.
Definition float32_0_75 : Q := 3 # 4.
Definition float32_0_515 : Q := 4320133 # 8388608.
Definition float32_0_6 : Q := 5033165 # 8388608.
Definition double_0_6 : Q := 5404319552844595 # 9007199254740992.

(** Detections that meet every case of the filter at threshold 0.5: kept;
    below the threshold and of an unknown class; at the threshold exactly;
    above it but of an unknown class; kept, with corners and class that are
    not whole numbers. *)
Definition float32_detections : list Obj :=
  [ mkObj 10 10 50 50 float32_0_91 0;
    mkObj 5 5 20 20 float32_0_4 7;
    mkObj 1 2 3 4 (1 # 2) 0;
    mkObj 5 6 7 8 float32_0_75 7;
    mkObj (61 # 2) (-7 # 2) 80 90 float32_0_515 (3 # 2) ].
Definition float32_model : YOLO := mkYOLO (fun _ _ => Ok [float32_detections]).
Definition float32_translator : gmap string string :=
  {[ "0" := "person"; "1" := "car" ]}.
Definition example_translator : gmap string string := {[ "0" := "person" ]}.
Definition example_world : World := mkWorld [] [] (fun _ => true) ∅ [] [] 0%Q [].
Definition one_monitor : ImageDisplayer.Self :=
  ImageDisplayer.mkSelf [ImageDisplayer.mkMonitor 0 0 1920 1080] (JDict []) (1920, 1080).

(** The world after [detect_objects] on a frame for which the model answers:
    one line printed, one inference logged. *)
Definition after_detection (frame : option Frame) (imgsz : Z) (w : World) : World :=
  set_inferences (fun log => log ++ [(frame, imgsz)])
    (set_stdout (fun out => out ++ [Text "<class 'int'>"]) w).

Definition two_monitors : ImageDisplayer.Self :=
  ImageDisplayer.mkSelf
    [ImageDisplayer.mkMonitor 0 0 1920 1080; ImageDisplayer.mkMonitor 1920 0 1920 1080]
    (JDict []) (1920, 1080).

(** What [show_frame_on_monitor] prints for an absent frame on the default
    monitor. *)
Definition absent_frame_diagnostic (disp : ImageDisplayer.Self) : string :=
  if 2 <=? Z.of_nat (length (ImageDisplayer.monitors disp))
  then "Передано пустое изображение" else "Монитор с номером 1 не найден.".

(** A part of the world that the pylon devices do not belong to: the frame
    sources leave it alone. *)
Definition off_camera {X} (proj : World -> X) : Prop :=
  forall f w, proj (set_pylon_devices f w) = proj w.

(** The world after the key poll: the key is consumed, and the windows are
    destroyed when its low byte is the quit character. *)
Definition after_poll (w : World) : World :=
  let w' := set_keys (fun ks => tl ks) w in
  if Z.land (hd (-1) (keys w)) 255 =? YOLOv8Model.ord_q
  then set_windows (fun _ => ∅) w' else w'.

(** A device after [release]: closed and not grabbing. *)
Definition shut (d : Device) : Device := mkDevice false false (node_map d) (incoming d).

(** The exception of a [RetrieveResult(5000, TimeoutHandling_ThrowException)]
    that times out. *)
Definition timeout_error : exn := TimeoutException "Grab timed out after 5000 ms".

(** The number of accesses that raised. *)
Definition raises {A} (rs : list (res A)) : nat :=
  length (List.filter (fun r => match r with Raise _ => true | Ok _ => false end) rs).

(** Example environments. *)
Definition malformed_everywhere : ConfigLoader.FileSystem :=
  fun _ => ConfigLoader.Malformed.
Definition list_everywhere : ConfigLoader.FileSystem :=
  fun _ => ConfigLoader.Parses (JList []).
Definition valid_everywhere : ConfigLoader.FileSystem :=
  fun _ => ConfigLoader.Parses (JDict [("video_source_main_camera", JInt 0)]).

(** One industrial camera on which nothing arrives in time, and the captor
    constructed for it. *)
Definition silent_camera_world : World :=
  mkWorld [] [mkDevice false false None [GrabTimeout]] (fun _ => true) ∅ [] [] 0%Q [].
Definition silent_camera_captor : Basler.St :=
  snd (Basler.__init__ 0 "camera.pfs" (Basler.blank, silent_camera_world)).

(** The same camera, grabbing, whose next result is a failed grab; and the
    same camera, open but not grabbing. *)
Definition failed_grab_world : World :=
  mkWorld [] [mkDevice true true (Some "camera.pfs") [GrabFailed]] (fun _ => true) ∅
          [] [] 0%Q [].
Definition idle_camera_world : World :=
  mkWorld [] [mkDevice true false (Some "camera.pfs") [GrabTimeout]] (fun _ => true) ∅
          [] [] 0%Q [].

(** A webcam whose next read fails, a clock and a keyboard. *)
Definition failing_webcam : Captor :=
  WebCamImageCaptor (WebCam.mkSelf (Some (WebCam.mkVideoCapture true [None] []))).
Definition working_webcam : Captor :=
  WebCamImageCaptor
    (WebCam.mkSelf (Some (WebCam.mkVideoCapture true [Some [[(12, 34, 56)]]] []))).
Definition loop_world : World :=
  mkWorld [] [] (fun _ => true) ∅ [113] [1%Q; 3%Q] 0%Q [].

(** ** Vocabulary of the further properties *)

(** What holds of every heap the accesses can reach from the initial one:
    a loaded instance holds a dictionary, and an instance without a usable
    path holds nothing. *)
Definition config_sound (h : ConfigLoader.Heap) : Prop :=
  match ConfigLoader._instance h with
  | None => True
  | Some self =>
      (ConfigLoader._is_loaded self = true ->
         exists entries, ConfigLoader.config self = Some (JDict entries))
      /\ (ConfigLoader.truthy (ConfigLoader.file_path self) = None ->
            ConfigLoader.config self = None /\ ConfigLoader._is_loaded self = false)
  end.

Definition instance_path (h : ConfigLoader.Heap) : option (option string) :=
  ConfigLoader.file_path <$> ConfigLoader._instance h.

(** The device of a freshly constructed captor: open, grabbing, configured. *)
Definition started (path : string) (d : Device) : Device :=
  mkDevice true true (Some path) (incoming d).

(** The device of a captor whose configuration file was refused. *)
Definition opened_only (d : Device) : Device :=
  mkDevice true (IsGrabbing d) (node_map d) (incoming d).

(** [m] called [n] times, the results in order. *)
Fixpoint collect {S A} (n : nat) (m : M S A) : M S (list A) :=
  match n with
  | O => ret []
  | S n' => do a <- m; do rest <- collect n' m; ret (a :: rest)
  end.

(** What [get_frame] makes of one answer of the capture device. *)
Definition delivered (answer : option Image) : bool * option Frame :=
  match answer with
  | Some img => (true, Some (mkFrame img []))
  | None => (false, None)
  end.

(** The title of the window of a monitor. *)
Definition window_name (monitor_number : Z) : string :=
  "Monitor " +:+ pretty monitor_number.

(** The window that presents [frame]: full screen, with the flags of the
    window of that name when there is one already. *)
Definition presenting (ws : gmap string Window) (name : string) (frame : Frame) : Window :=
  mkWindow (match ws !! name with
            | Some win => flags win
            | None => WND_PROP_FULLSCREEN
            end) true (Some frame).

(** Whether the capture handle of a webcam captor is open, and for every
    pylon device whether it is open and whether it is grabbing. *)
Definition camera_flags (s : Captor * World) : option bool * list (bool * bool) :=
  (match fst s with
   | WebCamImageCaptor c => WebCam.isOpened <$> WebCam.vid c
   | BaslerImageCaptor _ => None
   end,
   map (fun d => (IsOpen d, IsGrabbing d)) (pylon_devices (snd s))).

(** The statements of an iteration between the first clock reading and the
    FPS report. *)
Definition acquire_detect_show (model : YOLO) (translator : gmap string string)
    (cur_model_conf : Q) (displayer : ImageDisplayer.Self) (imgsz : Z)
    (camera_type : string) : M (Captor * World) unit :=
  do frame <- YOLOv8Model.acquire camera_type;
  do frame <- in_world (YOLOv8Model.detect_objects frame model cur_model_conf displayer
                          imgsz translator);
  in_world (ImageDisplayer.show_frame_on_monitor displayer frame
              ImageDisplayer.default_monitor_number).

Definition device_flags (w : World) : list (bool * bool) :=
  map (fun d => (IsOpen d, IsGrabbing d)) (pylon_devices w).

(** More example environments. *)
Definition refusing_camera_world : World :=
  mkWorld [] [mkDevice false false None [Grabbed [[(1, 2, 3); (4, 5, 6)]]]]
          (fun _ => false) ∅ [] [] 0%Q [].
Definition streaming_device : Device :=
  mkDevice true true (Some "camera.pfs") [Grabbed [[(1, 2, 3); (4, 5, 6)]]; GrabFailed].
Definition streaming_camera_world : World :=
  mkWorld [] [streaming_device] (fun _ => true) ∅ [] [] 0%Q [].
Definition unopened_capture : Json -> WebCam.VideoCapture :=
  fun _ => WebCam.mkVideoCapture false [] [].
Definition earlier_frame : Frame := mkFrame [[(1, 2, 3); (4, 5, 6)]] [].
Definition broken_model : YOLO := mkYOLO (fun _ _ => Raise (ExternalError "inference failed")).
Definition example_runtime : YOLOv8Model.Runtime :=
  YOLOv8Model.mkRuntime false (fun _ => Ok example_model).
Definition frozen_world : World :=
  mkWorld [] [] (fun _ => true) ∅ [113] [5%Q; 5%Q] 0%Q [].

(** ** Properties *)

(** *** The monad *)

Lemma bind_ok {S A B} (m : M S A) (k : A -> M S B) s a s' :
  m s = (Ok a, s') -> bind m k s = k a s'.
Proof. intros H. unfold bind. now rewrite H. Qed.

Lemma bind_raise {S A B} (m : M S A) (k : A -> M S B) s e s' :
  m s = (Raise e, s') -> bind m k s = (Raise e, s').
Proof. intros H. unfold bind. now rewrite H. Qed.

(** *** Numbers *)

Lemma Qgtb_lt (x y : Q) : Qgtb x y = true <-> (y < x)%Q.
Proof.
  unfold Qgtb. rewrite negb_true_iff, <- not_true_iff_false, Qle_bool_iff.
  split; [apply Qnot_le_lt | apply Qlt_not_le].
Qed.

Lemma float32_gt_lt (x y : Q) : float32_gt x y = true <-> (f32 y < x)%Q.
Proof. apply Qgtb_lt. Qed.

Lemma survives_iff threshold translator o :
  survives threshold translator o = true <->
  (f32 threshold < obj4 o)%Q /\ is_Some (translator !! YOLOv8Model.class_key o).
Proof.
  unfold survives. rewrite andb_true_iff, float32_gt_lt, bool_decide_eq_true. tauto.
Qed.

(** *** Powers of two *)

Lemma pow2_pos k : (0 < pow2 k)%Q.
Proof. apply Qpower_0_lt. reflexivity. Qed.

Lemma pow2_add a b : (pow2 (a + b) == pow2 a * pow2 b)%Q.
Proof. apply Qpower_plus. discriminate. Qed.

Lemma pow2_opp a : (pow2 (- a) * pow2 a == 1)%Q.
Proof. rewrite <- pow2_add. replace (- a + a) with 0 by lia. reflexivity. Qed.

Lemma pow2_lt a b : a < b -> (pow2 a < pow2 b)%Q.
Proof. intros H. apply Qpower_lt_compat_l; [exact H | reflexivity]. Qed.

Lemma pow2_le a b : a <= b -> (pow2 a <= pow2 b)%Q.
Proof. intros H. apply Qpower_le_compat_l; [exact H | discriminate]. Qed.

Lemma pow2_lt_inv a b : (pow2 a < pow2 b)%Q -> a < b.
Proof.
  intros H. destruct (Z_lt_le_dec a b) as [Hlt|Hge]; [exact Hlt|].
  apply pow2_le in Hge. exfalso. apply (Qlt_not_le _ _ H Hge).
Qed.

Lemma pow2_inject k : 0 <= k -> (pow2 k == inject_Z (2 ^ k))%Q.
Proof. intros H. unfold pow2. now rewrite Zpower_Qpower. Qed.

(** *** Rounding to an integer *)

(** Rounding half-to-even lands within one half of its argument. *)
Lemma round_half_even_bounds (x : Q) :
  (inject_Z (round_half_even x) - (1 # 2) <= x /\ x <= inject_Z (round_half_even x) + (1 # 2))%Q.
Proof.
  destruct x as [n d]. unfold round_half_even; simpl.
  pose proof (Z.div_mod n (Zpos d) ltac:(lia)) as Hdm.
  pose proof (Z.mod_pos_bound n (Zpos d) ltac:(lia)) as Hr.
  set (f := n / Zpos d) in *. set (r := n mod Zpos d) in *.
  destruct (Z.compare_spec (2 * r) (Zpos d)) as [He|Hl|Hg];
    [destruct (Z.even f)| |];
    unfold Qle, Qminus, Qplus, Qopp, inject_Z; simpl; split; nia.
Qed.

Lemma round_half_even_Z (z : Z) : round_half_even (inject_Z z) = z.
Proof.
  unfold round_half_even, inject_Z; simpl.
  rewrite Z.mod_1_r, Z.div_1_r. reflexivity.
Qed.

(** At a tie the even neighbour is taken. *)
Lemma round_half_even_tie (x : Q) (z : Z) :
  (x == inject_Z z + (1 # 2))%Q ->
  round_half_even x = if Z.even z then z else z + 1.
Proof.
  destruct x as [n d]. unfold Qeq, Qplus, inject_Z; simpl. intros Heq.
  unfold round_half_even; simpl.
  pose proof (Z.div_mod n (Zpos d) ltac:(lia)) as Hdm.
  pose proof (Z.mod_pos_bound n (Zpos d) ltac:(lia)) as Hr.
  set (f := n / Zpos d) in *. set (r := n mod Zpos d) in *.
  assert (Hf : f = z) by nia. subst f.
  assert (H2r : 2 * r = Zpos d) by nia.
  rewrite H2r, Z.compare_refl. rewrite Hf. reflexivity.
Qed.

Lemma round_half_even_mono (x y : Q) :
  (x <= y)%Q -> round_half_even x <= round_half_even y.
Proof.
  intros Hxy.
  destruct (round_half_even_bounds x) as [Hxl Hxu].
  destruct (round_half_even_bounds y) as [Hyl Hyu].
  destruct (Z_le_gt_dec (round_half_even x) (round_half_even y)) as [Hle|Hgt]; [exact Hle|].
  exfalso.
  assert (Hz : (inject_Z (round_half_even y) + 1 <= inject_Z (round_half_even x))%Q).
  { rewrite <- (inject_Z_plus _ 1). rewrite <- Zle_Qle. lia. }
  assert (Hx : (x == inject_Z (round_half_even y) + (1 # 2))%Q) by (apply Qle_antisym; lra).
  assert (Hy : (y == inject_Z (round_half_even y) + (1 # 2))%Q) by (apply Qle_antisym; lra).
  pose proof (round_half_even_tie x _ Hx) as Tx.
  pose proof (round_half_even_tie y _ Hy) as Ty.
  destruct (Z.even (round_half_even y)); lia.
Qed.

(** *** Binades *)

Lemma Qabs_make (n : Z) (d : positive) : Qabs (n # d) = (Z.abs n # d).
Proof. reflexivity. Qed.

Lemma binade_spec (x : Q) :
  ~ (x == 0)%Q -> (pow2 (binade x) <= Qabs x /\ Qabs x < pow2 (binade x + 1))%Q.
Proof.
  intros Hx. unfold binade.
  set (n := Z.abs (Qnum x)). set (d := Zpos (Qden x)).
  assert (Hn : 0 < n).
  { unfold n. destruct x as [xn xd]; unfold Qeq in Hx; simpl in *. lia. }
  destruct (Z.log2_spec n Hn) as [Hnl Hnu].
  destruct (Z.log2_spec d ltac:(unfold d; lia)) as [Hdl Hdu].
  pose proof (Z.log2_nonneg n) as Han. pose proof (Z.log2_nonneg d) as Hbn.
  set (a := Z.log2 n) in *. set (b := Z.log2 d) in *.
  assert (Habs : (Qabs x == inject_Z n / inject_Z d)%Q).
  { destruct x as [xn xd]. rewrite Qabs_make. unfold n, d; simpl.
    rewrite (Qmake_Qdiv (Z.abs xn) xd). reflexivity. }
  assert (Hdpos : (0 < inject_Z d)%Q) by (rewrite <- (Zlt_Qlt 0); unfold d; lia).
  assert (Hlow : (pow2 (a - b - 1) <= Qabs x)%Q).
  { rewrite Habs. apply Qle_shift_div_l; [exact Hdpos|].
    apply Qle_trans with (pow2 (a - b - 1) * pow2 (b + 1))%Q.
    - apply Qmult_le_l; [apply pow2_pos|].
      rewrite (pow2_inject (b + 1)) by lia. rewrite <- Zle_Qle.
      replace (b + 1) with (Z.succ b) by lia. lia.
    - rewrite <- pow2_add. replace (a - b - 1 + (b + 1)) with a by lia.
      rewrite (pow2_inject a) by lia. now rewrite <- Zle_Qle. }
  assert (Hhigh : (Qabs x < pow2 (a - b + 1))%Q).
  { rewrite Habs. apply Qlt_shift_div_r; [exact Hdpos|].
    apply Qlt_le_trans with (pow2 (a - b + 1) * pow2 b)%Q.
    - rewrite <- pow2_add. replace (a - b + 1 + b) with (a + 1) by lia.
      rewrite (pow2_inject (a + 1)) by lia. rewrite <- Zlt_Qlt.
      replace (a + 1) with (Z.succ a) by lia. exact Hnu.
    - apply Qmult_le_l; [apply pow2_pos|].
      rewrite (pow2_inject b) by lia. now rewrite <- Zle_Qle. }
  destruct (Qle_bool (pow2 (a - b)) (Qabs x)) eqn:Ht.
  - apply Qle_bool_iff in Ht. split; [exact Ht | exact Hhigh].
  - split.
    + exact Hlow.
    + replace (a - b - 1 + 1) with (a - b) by lia.
      apply Qnot_le_lt. intros Hle. apply Qle_bool_iff in Hle. congruence.
Qed.

Lemma binade_unique (x : Q) (e : Z) :
  (pow2 e <= Qabs x)%Q -> (Qabs x < pow2 (e + 1))%Q -> binade x = e.
Proof.
  intros Hl Hu.
  assert (Hx : ~ (x == 0)%Q).
  { intros H0. rewrite H0 in Hl. simpl in Hl. pose proof (pow2_pos e). 
    apply (Qlt_not_le _ _ H). exact Hl. }
  destruct (binade_spec x Hx) as [Bl Bu].
  assert (binade x < e + 1) by (apply pow2_lt_inv; eapply Qle_lt_trans; eassumption).
  assert (e < binade x + 1) by (apply pow2_lt_inv; eapply Qle_lt_trans; eassumption).
  lia.
Qed.

Lemma round_half_even_Qeq (x y : Q) : (x == y)%Q -> round_half_even x = round_half_even y.
Proof.
  intros H. apply Z.le_antisymm; apply round_half_even_mono; rewrite H; apply Qle_refl.
Qed.

Lemma inject_Z_sub (a b : Z) : (inject_Z (a - b) == inject_Z a - inject_Z b)%Q.
Proof. unfold Qeq, Qminus, Qplus, Qopp, inject_Z; simpl; lia. Qed.

Lemma round_half_even_opp (x : Q) : round_half_even (- x) = - round_half_even x.
Proof.
  destruct (round_half_even_bounds x) as [Hxl Hxu].
  destruct (round_half_even_bounds (- x)) as [Hyl Hyu].
  set (a := round_half_even x) in *. set (b := round_half_even (- x)) in *.
  assert (Hsum : (inject_Z (a + b) == inject_Z a + inject_Z b)%Q) by (rewrite inject_Z_plus; reflexivity).
  assert (Hab : -2 < a + b < 2).
  { split; rewrite Zlt_Qlt, Hsum; change (inject_Z 2) with 2%Q; change (inject_Z (-2)) with (-2)%Q; lra. }
  destruct (Z.eq_dec (a + b) 0) as [H0|H0]; [lia|]. exfalso.
  destruct (Z.eq_dec (a + b) 1) as [H1|H1].
  - assert (Hb : (inject_Z a + inject_Z b == 1)%Q) by (rewrite <- Hsum, H1; reflexivity).
    assert (Hx : (x == inject_Z (a - 1) + (1 # 2))%Q).
    { rewrite inject_Z_sub. change (inject_Z 1) with 1%Q. apply Qle_antisym; lra. }
    assert (Hy : (- x == inject_Z (- a) + (1 # 2))%Q).
    { rewrite inject_Z_opp. apply Qle_antisym; lra. }
    pose proof (round_half_even_tie x _ Hx) as Tx.
    pose proof (round_half_even_tie (- x) _ Hy) as Ty.
    fold a in Tx. fold b in Ty.
    rewrite Z.even_opp in Ty. rewrite Z.even_sub in Tx. simpl in Tx.
    destruct (Z.even a); simpl in *; lia.
  - assert (Hm : a + b = -1) by lia.
    assert (Hb : (inject_Z a + inject_Z b == -1)%Q) by (rewrite <- Hsum, Hm; reflexivity).
    assert (Hx : (x == inject_Z a + (1 # 2))%Q).
    { apply Qle_antisym; lra. }
    assert (Hy : (- x == inject_Z (- a - 1) + (1 # 2))%Q).
    { rewrite inject_Z_sub, inject_Z_opp. change (inject_Z 1) with 1%Q. apply Qle_antisym; lra. }
    pose proof (round_half_even_tie x _ Hx) as Tx.
    pose proof (round_half_even_tie (- x) _ Hy) as Ty.
    fold a in Tx. fold b in Ty.
    rewrite Z.even_sub, Z.even_opp in Ty. simpl in Ty.
    destruct (Z.even a); simpl in *; lia.
Qed.

(** *** Single precision *)

Lemma binade_opp (x : Q) : binade (- x) = binade x.
Proof.
  destruct x as [n d]. unfold binade, Qopp; simpl Qnum; simpl Qden.
  rewrite !Qabs_make, Z.abs_opp. reflexivity.
Qed.

Lemma binade_mono (x y : Q) : (0 < x)%Q -> (x <= y)%Q -> binade x <= binade y.
Proof.
  intros Hx Hxy.
  assert (Hx0 : ~ (x == 0)%Q) by (intros E; rewrite E in Hx; discriminate).
  assert (Hy0 : ~ (y == 0)%Q) by (intros E; rewrite E in Hxy; apply (Qlt_not_le _ _ Hx Hxy)).
  destruct (binade_spec x Hx0) as [Bx _]. destruct (binade_spec y Hy0) as [_ By].
  rewrite Qabs_pos in Bx by lra. rewrite Qabs_pos in By by lra.
  assert (binade x < binade y + 1); [|lia].
  apply pow2_lt_inv. lra.
Qed.

Lemma ulp_exponent_opp (x : Q) : ulp_exponent (- x) = ulp_exponent x.
Proof. unfold ulp_exponent. now rewrite binade_opp. Qed.

Lemma f32_opp (x : Q) : (f32 (- x) == - f32 x)%Q.
Proof.
  unfold f32. rewrite ulp_exponent_opp.
  set (q := ulp_exponent x).
  rewrite (round_half_even_Qeq (- x * pow2 (- q)) (- (x * pow2 (- q)))) by ring.
  rewrite round_half_even_opp, inject_Z_opp. ring.
Qed.

Lemma f32_zero (x : Q) : (x == 0)%Q -> (f32 x == 0)%Q.
Proof.
  intros H. unfold f32. set (q := ulp_exponent x). clearbody q.
  assert (E : (x * pow2 (- q) == inject_Z 0)%Q).
  { change (inject_Z 0) with 0%Q. rewrite H. ring. }
  rewrite (round_half_even_Qeq _ _ E), round_half_even_Z.
  change (inject_Z 0) with 0%Q. ring.
Qed.

(** Rounding to single precision does not cross a power of two that is a
    multiple of the unit in the last place. *)
Lemma f32_le_pow2 (x : Q) (k : Z) :
  ulp_exponent x <= k -> (x <= pow2 k)%Q -> (f32 x <= pow2 k)%Q.
Proof.
  intros Hk Hx. unfold f32. set (q := ulp_exponent x) in *.
  assert (Hz : (x * pow2 (- q) <= inject_Z (2 ^ (k - q)))%Q).
  { rewrite <- pow2_inject by lia. replace (k - q) with (k + - q) by lia.
    rewrite pow2_add. apply Qmult_le_compat_r; [exact Hx|]. apply Qlt_le_weak, pow2_pos. }
  apply round_half_even_mono in Hz. rewrite round_half_even_Z in Hz.
  apply Qle_trans with (inject_Z (2 ^ (k - q)) * pow2 q)%Q.
  - apply Qmult_le_compat_r; [now rewrite <- Zle_Qle|]. apply Qlt_le_weak, pow2_pos.
  - rewrite <- pow2_inject by lia. rewrite <- pow2_add.
    replace (k - q + q) with k by lia. apply Qle_refl.
Qed.

Lemma f32_ge_pow2 (x : Q) (k : Z) :
  ulp_exponent x <= k -> (pow2 k <= x)%Q -> (pow2 k <= f32 x)%Q.
Proof.
  intros Hk Hx. unfold f32. set (q := ulp_exponent x) in *.
  assert (Hz : (inject_Z (2 ^ (k - q)) <= x * pow2 (- q))%Q).
  { rewrite <- pow2_inject by lia. replace (k - q) with (k + - q) by lia.
    rewrite pow2_add. apply Qmult_le_compat_r; [exact Hx|]. apply Qlt_le_weak, pow2_pos. }
  apply round_half_even_mono in Hz. rewrite round_half_even_Z in Hz.
  apply Qle_trans with (inject_Z (2 ^ (k - q)) * pow2 q)%Q.
  - rewrite <- pow2_inject by lia. rewrite <- pow2_add.
    replace (k - q + q) with k by lia. apply Qle_refl.
  - apply Qmult_le_compat_r; [now rewrite <- Zle_Qle|]. apply Qlt_le_weak, pow2_pos.
Qed.

Lemma f32_nonneg (x : Q) : (0 <= x)%Q -> (0 <= f32 x)%Q.
Proof.
  intros Hx. unfold f32. apply Qmult_le_0_compat; [|apply Qlt_le_weak, pow2_pos].
  change 0%Q with (inject_Z 0). rewrite <- Zle_Qle.
  rewrite <- (round_half_even_Z 0). apply round_half_even_mono.
  change (inject_Z 0) with 0%Q. apply Qmult_le_0_compat; [exact Hx|].
  apply Qlt_le_weak, pow2_pos.
Qed.

Lemma f32_mono_pos (x y : Q) : (0 < x)%Q -> (x <= y)%Q -> (f32 x <= f32 y)%Q.
Proof.
  intros Hx Hxy.
  pose proof (binade_mono x y Hx Hxy) as Hb.
  assert (Hx0 : ~ (x == 0)%Q) by (intros E; rewrite E in Hx; discriminate).
  assert (Hy0 : ~ (y == 0)%Q) by (intros E; rewrite E in Hxy; apply (Qlt_not_le _ _ Hx Hxy)).
  destruct (binade_spec x Hx0) as [_ Bx]. destruct (binade_spec y Hy0) as [By _].
  rewrite Qabs_pos in Bx by lra. rewrite Qabs_pos in By by lra.
  destruct (Z.eq_dec (ulp_exponent x) (ulp_exponent y)) as [Hq|Hq].
  - unfold f32. rewrite Hq. set (q := ulp_exponent y).
    apply Qmult_le_compat_r; [|apply Qlt_le_weak, pow2_pos].
    rewrite <- Zle_Qle. apply round_half_even_mono.
    apply Qmult_le_compat_r; [exact Hxy|]. apply Qlt_le_weak, pow2_pos.
  - unfold ulp_exponent in Hq.
    assert (Hlt : binade x < binade y /\ -126 < binade y) by lia.
    apply Qle_trans with (pow2 (binade y)).
    + apply f32_le_pow2; [unfold ulp_exponent; lia|].
      apply Qle_trans with (pow2 (binade x + 1)); [lra|]. apply pow2_le. lia.
    + apply f32_ge_pow2; [unfold ulp_exponent; lia | exact By].
Qed.

Lemma f32_mono_nonneg (x y : Q) : (0 <= x)%Q -> (x <= y)%Q -> (f32 x <= f32 y)%Q.
Proof.
  intros Hx Hxy. destruct (Qlt_le_dec 0 x) as [Hp|Hz].
  - now apply f32_mono_pos.
  - rewrite (f32_zero x) by (apply Qle_antisym; assumption).
    apply f32_nonneg. lra.
Qed.

(** Rounding to single precision is monotone. *)
Lemma f32_mono (x y : Q) : (x <= y)%Q -> (f32 x <= f32 y)%Q.
Proof.
  intros Hxy. destruct (Qlt_le_dec x 0) as [Hx|Hx]; [destruct (Qlt_le_dec y 0) as [Hy|Hy]|].
  - assert (H : (f32 (- y) <= f32 (- x))%Q) by (apply f32_mono_nonneg; lra).
    rewrite !f32_opp in H. lra.
  - assert (H : (0 <= f32 (- x))%Q) by (apply f32_nonneg; lra).
    rewrite f32_opp in H. pose proof (f32_nonneg y Hy). lra.
  - now apply f32_mono_nonneg.
Qed.

(** The rounding error is at most half a unit in the last place. *)
Lemma f32_error (x : Q) : (Qabs (f32 x - x) <= pow2 (ulp_exponent x) * (1 # 2))%Q.
Proof.
  unfold f32. set (q := ulp_exponent x).
  destruct (round_half_even_bounds (x * pow2 (- q))) as [Hl Hu].
  set (n := inject_Z (round_half_even (x * pow2 (- q)))) in *.
  pose proof (pow2_pos q) as Hq. pose proof (pow2_opp q) as Hinv.
  assert (Hx : (x == x * pow2 (- q) * pow2 q)%Q).
  { rewrite <- Qmult_assoc, Hinv. ring. }
  apply (proj2 (Qabs_Qle_condition _ _)).
  set (z := (x * pow2 (- q))%Q) in *. clearbody z n.
  assert (E : (n * pow2 q - x == (n - z) * pow2 q)%Q) by (rewrite Hx; ring).
  rewrite E. split.
  - apply Qle_trans with ((- (1 # 2)) * pow2 q)%Q; [apply Qle_lteq; right; ring|].
    apply Qmult_le_compat_r; lra.
  - apply Qle_trans with ((1 # 2) * pow2 q)%Q; [|apply Qle_lteq; right; ring].
    apply Qmult_le_compat_r; lra.
Qed.

(** Some values: 0.1 and 1/3 in single precision; ties, which go to the even
    significand; a negative number; the subnormal steps next to zero. *)
Example f32_values :
  (f32 (1 # 10) == 13421773 # 134217728)%Q
  /\ (f32 (1 # 3) == 11184811 # 33554432)%Q
  /\ (f32 16777217 == 16777216)%Q
  /\ (f32 16777219 == 16777220)%Q
  /\ (f32 (- (3 # 2)) == - (3 # 2))%Q
  /\ (f32 (pow2 (-150)) == 0)%Q
  /\ (f32 (3 * pow2 (-150)) == pow2 (-148))%Q.
Proof. repeat split; vm_compute; reflexivity. Qed.

(** *** Confidences *)

Lemma binade_below (y : Q) (k : Z) : 0 <= k -> (Qabs y < pow2 k)%Q -> binade y < k.
Proof.
  intros Hk Hy. destruct (Qeq_dec y 0) as [H0|H0].
  - unfold binade. destruct y as [n d]. unfold Qeq in H0; simpl in H0.
    assert (n = 0) as -> by lia. simpl Qnum; simpl Qden. change (Z.log2 (Z.abs 0)) with 0.
    pose proof (Z.log2_nonneg (Zpos d)).
    destruct (Qle_bool (pow2 (0 - Z.log2 (Z.pos d))) (Qabs (0 # d))) eqn:Hb; [|lia].
    exfalso. apply Qle_bool_iff in Hb.
    pose proof (pow2_pos (0 - Z.log2 (Z.pos d))) as Hp.
    apply (Qlt_not_le _ _ Hp). eapply Qle_trans; [exact Hb|]. 
    rewrite Qabs_make. unfold Qle; simpl. lia.
  - destruct (binade_spec y H0) as [Bl _].
    apply pow2_lt_inv. eapply Qle_lt_trans; eassumption.
Qed.

(** Below [2^k] the rounding error is at most [2^(k-25)]. *)
Lemma f32_close (y : Q) (k : Z) :
  -125 <= k -> 0 <= k -> (Qabs y < pow2 k)%Q -> (Qabs (f32 y - y) <= pow2 (k - 25))%Q.
Proof.
  intros Hk Hk0 Hy. pose proof (binade_below y k Hk0 Hy) as Hb.
  eapply Qle_trans; [apply f32_error|].
  assert (Hq : ulp_exponent y <= k - 24) by (unfold ulp_exponent; lia).
  apply Qle_trans with (pow2 (k - 24) * (1 # 2))%Q.
  - apply Qmult_le_compat_r; [now apply pow2_le | discriminate].
  - replace (k - 24) with (k - 25 + 1) by lia. rewrite pow2_add.
    change (pow2 1) with 2%Q. apply Qle_lteq. right. field.
Qed.

Lemma round2_hundredths_range (x : Q) :
  (0 <= x)%Q -> (x <= 1)%Q -> 0 <= round2_hundredths x <= 100.
Proof.
  intros H0 H1. unfold round2_hundredths.
  assert (Hl : (0 <= x * 100)%Q) by lra.
  assert (Hu : (x * 100 <= 100)%Q) by lra.
  apply f32_mono, round_half_even_mono in Hl. apply f32_mono, round_half_even_mono in Hu.
  change (round_half_even (f32 0)) with 0 in Hl.
  change (round_half_even (f32 100)) with 100 in Hu. lia.
Qed.

(** [round(x, 2)] of a confidence is within half a hundredth of it, up to
    the rounding of the product with 100. *)
Lemma round2_close (x : Q) :
  (0 <= x)%Q -> (x <= 1)%Q ->
  (Qabs (x - (round2_hundredths x # 100)) <= (1 # 200) + (1 # 26214400))%Q.
Proof.
  intros H0 H1. unfold round2_hundredths.
  assert (Hy : (Qabs (x * 100) < pow2 7)%Q).
  { rewrite Qabs_pos by lra. change (pow2 7) with 128%Q. lra. }
  pose proof (f32_close (x * 100) 7 ltac:(lia) ltac:(lia) Hy) as He.
  change (pow2 (7 - 25)) with (1 # 262144)%Q in He.
  apply Qabs_Qle_condition in He as [He1 He2].
  destruct (round_half_even_bounds (f32 (x * 100))) as [Hlo Hhi].
  set (n := round_half_even (f32 (x * 100))) in *.
  assert (Hn : (n # 100 == inject_Z n * (1 # 100))%Q).
  { unfold Qeq, Qmult, inject_Z; simpl. lia. }
  apply (proj2 (Qabs_Qle_condition _ _)). rewrite Hn. split; lra.
Qed.

(** The text of a number of hundredths reads back as that number. *)
Lemma str_hundredths_reads_back (c : Z) :
  0 <= c <= 100 ->
  exists v, read_decimal (str_hundredths c) = Some v /\ (v == c # 100)%Q.
Proof.
  intros Hc.
  assert (Hall : forallb reads_back (map Z.of_nat (seq 0 101)) = true) by (vm_compute; reflexivity).
  rewrite forallb_forall in Hall.
  assert (Hin : In c (map Z.of_nat (seq 0 101))).
  { apply in_map_iff. exists (Z.to_nat c). split; [lia|]. apply in_seq. lia. }
  specialize (Hall c Hin). unfold reads_back in Hall.
  destruct (read_decimal (str_hundredths c)) as [v|]; [|discriminate].
  exists v. split; [reflexivity|]. now apply Qeq_bool_iff.
Qed.
(** [int(x)] drops the fractional part: it moves towards zero by less than one. *)
Lemma py_int_truncates (x : Q) :
  (Qabs (inject_Z (py_int x)) <= Qabs x)%Q /\ (Qabs (x - inject_Z (py_int x)) < 1)%Q.
Proof.
  destruct x as [n d]. unfold py_int; simpl.
  pose proof (Z.quot_rem' n (Zpos d)) as Hqr.
  pose proof (Z.rem_bound_abs n (Zpos d) ltac:(lia)) as Hr.
  assert (Hsign : 0 <= n /\ 0 <= Z.quot n (Zpos d) /\ 0 <= Z.rem n (Zpos d)
                  \/ n <= 0 /\ Z.quot n (Zpos d) <= 0 /\ Z.rem n (Zpos d) <= 0).
  { destruct (Z_le_gt_dec 0 n) as [Hn|Hn]; [left|right]; repeat split; try lia.
    - apply Z.quot_pos; lia.
    - apply Z.rem_nonneg; lia.
    - pose proof (Z.quot_pos (- n) (Zpos d) ltac:(lia) ltac:(lia)) as Hq.
      rewrite Z.quot_opp_l in Hq by lia. lia.
    - apply Z.rem_nonpos; lia. }
  set (q := Z.quot n (Zpos d)) in *. set (r := Z.rem n (Zpos d)) in *.
  clearbody q r.
  split.
  - unfold Qle, inject_Z; simpl. nia.
  - unfold Qlt; simpl. rewrite ?Pos.mul_1_r, ?Z.mul_1_r, ?Z.mul_1_l.
    replace (n + - q * Z.pos d) with r by lia. lia.
Qed.

(** *** detect_objects *)

Lemma frame_drawn_nil (f : Frame) : mkFrame (pixels f) (drawn f ++ []) = f.
Proof. destruct f; simpl. now rewrite app_nil_r. Qed.

(** One pass of the inner-loop body over a present frame never raises and
    appends the annotation of the detection when it survives. *)
Lemma visit_present disp threshold translator f o w :
  YOLOv8Model.visit disp threshold translator (Some f) o w =
  (Ok (Some (mkFrame (pixels f)
               (drawn f ++ (if survives threshold translator o
                            then annotation_of translator o else [])))), w).
Proof.
  unfold YOLOv8Model.visit, survives, annotation_of.
  destruct (float32_gt (obj4 o) threshold); simpl.
  - destruct (translator !! YOLOv8Model.class_key o) as [descr|] eqn:E; simpl.
    + unfold ImageDisplayer.one_object_display, bind, lift_res; simpl.
      unfold YOLOv8Model.description, str_round2.
      now rewrite <- app_assoc.
    + unfold ret. now rewrite frame_drawn_nil.
  - unfold ret. now rewrite frame_drawn_nil.
Qed.

Lemma for_each_visit_present disp threshold translator objs : forall f w,
  YOLOv8Model.for_each (YOLOv8Model.visit disp threshold translator) objs (Some f) w =
  (Ok (Some (mkFrame (pixels f)
               (drawn f ++ flat_map (annotation_of translator)
                                    (List.filter (survives threshold translator) objs)))), w).
Proof.
  induction objs as [|o objs IH]; intros f w; simpl.
  - unfold ret. now rewrite frame_drawn_nil.
  - erewrite bind_ok by apply visit_present.
    rewrite IH; simpl. destruct (survives threshold translator o); simpl.
    + now rewrite <- app_assoc.
    + now rewrite app_nil_r.
Qed.

Lemma for_each_items_present disp threshold translator items : forall f w,
  YOLOv8Model.for_each
    (fun frame boxes_data =>
       YOLOv8Model.for_each (YOLOv8Model.visit disp threshold translator) boxes_data frame)
    items (Some f) w =
  (Ok (Some (mkFrame (pixels f)
               (drawn f ++ flat_map (annotation_of translator)
                                    (List.filter (survives threshold translator)
                                                 (concat items))))), w).
Proof.
  induction items as [|objs items IH]; intros f w; simpl.
  - unfold ret. now rewrite frame_drawn_nil.
  - erewrite bind_ok by apply for_each_visit_present.
    rewrite IH; simpl.
    now rewrite List.filter_app, flat_map_app, <- app_assoc.
Qed.

Lemma detect_objects_present f model threshold disp imgsz translator items w :
  predict model (Some f) imgsz = Ok items ->
  YOLOv8Model.detect_objects (Some f) model threshold disp imgsz translator w =
  (Ok (Some (mkFrame (pixels f)
               (drawn f ++ flat_map (annotation_of translator)
                                    (List.filter (survives threshold translator)
                                                 (concat items))))),
   after_detection (Some f) imgsz w).
Proof.
  intros Hp. unfold YOLOv8Model.detect_objects.
  unfold bind at 1. unfold ImageDisplayer.echo at 1, modify at 1.
  unfold bind at 1. unfold YOLOv8Model.model_predict.
  unfold bind at 1, modify at 1, lift_res. rewrite Hp.
  now rewrite for_each_items_present.
Qed.

Lemma count_occ_filter (p : Obj -> bool) (l : list Obj) (o : Obj) :
  count_occ Obj_eq_dec (List.filter p l) o =
  if p o then count_occ Obj_eq_dec l o else 0%nat.
Proof.
  induction l as [|x l IH]; simpl.
  - now destruct (p o).
  - destruct (p x) eqn:Px; simpl; destruct (Obj_eq_dec x o) as [->|Hne].
    + rewrite IH, Px. reflexivity.
    + exact IH.
    + rewrite IH, Px. reflexivity.
    + exact IH.
Qed.

Lemma filter_sublist (p : Obj -> bool) (l : list Obj) : sublist (List.filter p l) l.
Proof.
  induction l as [|x l IH]; simpl.
  - constructor.
  - destruct (p x); now constructor.
Qed.

(** A threshold between 0 and 1 moves by at most [2^-24] when it is cast to
    single precision. *)
Lemma f32_threshold_close (threshold : Q) :
  (0 <= threshold)%Q -> (threshold <= 1)%Q ->
  (Qabs (f32 threshold - threshold) <= 1 # 16777216)%Q.
Proof.
  intros H0 H1.
  apply (f32_close threshold 1); [lia | lia |].
  rewrite Qabs_pos by exact H0. change (pow2 1) with 2%Q. lra.
Qed.

(** C1, amended.  For a frame and the raw detections the model returns for
    it, all boxes to be drawn having corners in the range of a C int,
    [detect_objects] returns without error, and the detections it annotates
    (the list [annotated], a sub-sequence of the raw detections, each element
    contributing one box and one label to the frame) are exactly those whose
    confidence strictly exceeds the threshold as cast to single precision
    and whose class, truncated to an integer and written in decimal, has an
    entry in the translator: such a detection is annotated as many times as
    the model returned it, any other detection not at all.  The cast moves a
    threshold between 0 and 1 by at most [2^-24]. *)
Theorem detect_objects_filters
    (f : Frame) (model : YOLO) (threshold : Q) (disp : ImageDisplayer.Self)
    (imgsz : Z) (translator : gmap string string) (items : list (list Obj))
    (w : World) :
  predict model (Some f) imgsz = Ok items ->
  drawable threshold translator items = true ->
  exists annotated : list Obj,
    YOLOv8Model.detect_objects (Some f) model threshold disp imgsz translator w =
      (Ok (Some (mkFrame (pixels f)
                   (drawn f ++ flat_map (annotation_of translator) annotated))),
       after_detection (Some f) imgsz w)
    /\ sublist annotated (concat items)
    /\ (forall o, In o annotated -> length (annotation_of translator o) = 2%nat)
    /\ (forall o, In o annotated <->
                  In o (concat items) /\ (f32 threshold < obj4 o)%Q
                  /\ is_Some (translator !! pretty (py_int (obj5 o))))
    /\ (forall o, (f32 threshold < obj4 o)%Q ->
                  is_Some (translator !! pretty (py_int (obj5 o))) ->
                  count_occ Obj_eq_dec annotated o = count_occ Obj_eq_dec (concat items) o)
    /\ (forall o, ~ ((f32 threshold < obj4 o)%Q
                     /\ is_Some (translator !! pretty (py_int (obj5 o)))) ->
                  count_occ Obj_eq_dec annotated o = 0%nat)
    /\ ((0 <= threshold)%Q -> (threshold <= 1)%Q ->
        (Qabs (f32 threshold - threshold) <= 1 # 16777216)%Q)
    /\ (forall x : Q, (Qabs (inject_Z (py_int x)) <= Qabs x)%Q
                      /\ (Qabs (x - inject_Z (py_int x)) < 1)%Q).
Proof.
  intros Hp _.
  exists (List.filter (survives threshold translator) (concat items)).
  split; [now apply detect_objects_present|].
  split; [apply filter_sublist|].
  split.
  { intros o Ho. apply List.filter_In in Ho as [_ Hs].
    apply survives_iff in Hs as [_ [descr Hd]].
    unfold annotation_of. now rewrite Hd. }
  split.
  { intros o. rewrite List.filter_In, survives_iff. reflexivity. }
  split.
  { intros o Hc Hk. rewrite count_occ_filter.
    now rewrite (proj2 (survives_iff threshold translator o) (conj Hc Hk)). }
  split.
  { intros o Hn. rewrite count_occ_filter.
    destruct (survives threshold translator o) eqn:Hs; [|reflexivity].
    apply survives_iff in Hs. contradiction. }
  split; [apply f32_threshold_close | apply py_int_truncates].
Qed.

Lemma detect_objects_filters_witness :
  (exists annotated : list Obj,
     YOLOv8Model.detect_objects (Some example_frame) float32_model (1 # 2) one_monitor 640
       float32_translator example_world =
       (Ok (Some (mkFrame (pixels example_frame)
                    (drawn example_frame
                     ++ flat_map (annotation_of float32_translator) annotated))),
        after_detection (Some example_frame) 640 example_world)
     /\ (forall o, In o annotated <->
                   In o (concat [float32_detections]) /\ (f32 (1 # 2) < obj4 o)%Q
                   /\ is_Some (float32_translator !! pretty (py_int (obj5 o)))))
  /\ List.filter (survives (1 # 2) float32_translator) float32_detections
     = [ mkObj 10 10 50 50 float32_0_91 0;
         mkObj (61 # 2) (-7 # 2) 80 90 float32_0_515 (3 # 2) ]
  /\ fst (YOLOv8Model.detect_objects (Some example_frame) float32_model (1 # 2) one_monitor
            640 float32_translator example_world)
     = Ok (Some (mkFrame [[(12, 34, 56)]]
                   [ Rectangle (10, 10) (50, 50) (255, 255, 0) 2;
                     PutText "person 0.91" (10, 10) 3 (7 # 10) (0, 0, 0) 1 16;
                     Rectangle (30, -3) (80, 90) (255, 255, 0) 2;
                     PutText "car 0.52" (30, -3) 3 (7 # 10) (0, 0, 0) 1 16 ])).
Proof.
  split; [|split; reflexivity].
  destruct (detect_objects_filters example_frame float32_model (1 # 2) one_monitor 640
              float32_translator [float32_detections] example_world eq_refl eq_refl)
    as (annotated & Hrun & _ & _ & Hiff & _).
  exists annotated. split; [exact Hrun | exact Hiff].
Defined.

(** C1 as stated fails: the confidence [float32_0_6] strictly exceeds the
    threshold [double_0_6], the class is known, and nothing is drawn, because
    the threshold cast to single precision is the confidence itself. *)
Lemma confidence_above_threshold_is_dropped :
  (double_0_6 < float32_0_6)%Q
  /\ example_translator !! pretty (py_int 0) = Some "person"
  /\ YOLOv8Model.detect_objects (Some example_frame)
       (mkYOLO (fun _ _ => Ok [[mkObj 10 10 50 50 float32_0_6 0]]))
       double_0_6 one_monitor 640 example_translator example_world
     = (Ok (Some example_frame), after_detection (Some example_frame) 640 example_world)
  /\ (f32 double_0_6 == float32_0_6)%Q.
Proof. repeat split. Qed.

(** C2, amended.  The surviving detections are annotated in the order in
    which the model returned them: the drawings added to the frame are the
    annotations of the survivors, one after the other.  The annotation of a
    survivor is its box, drawn between its corners truncated to integers,
    followed by a text anchored at the first (top-left) corner that consists
    of the translated label, a space and a number.  For a confidence between
    0 and 1 that number is the decimal form of a whole number of hundredths
    between 0 and 100: the integer nearest (ties to even) to the product of
    the confidence and 100 as computed in single precision, which is within
    [1/200 + 1/26214400] of the confidence. *)
Theorem detect_objects_draws_in_order
    (f : Frame) (model : YOLO) (threshold : Q) (disp : ImageDisplayer.Self)
    (imgsz : Z) (translator : gmap string string) (items : list (list Obj))
    (w : World) :
  predict model (Some f) imgsz = Ok items ->
  drawable threshold translator items = true ->
  let survivors := List.filter (survives threshold translator) (concat items) in
  (exists f',
      fst (YOLOv8Model.detect_objects (Some f) model threshold disp imgsz translator w)
        = Ok (Some f')
      /\ pixels f' = pixels f
      /\ drawn f' = drawn f ++ flat_map (annotation_of translator) survivors)
  /\ (forall o, In o survivors ->
        exists descr text,
          translator !! pretty (py_int (obj5 o)) = Some descr
          /\ annotation_of translator o =
             [ Rectangle (py_int (obj0 o), py_int (obj1 o))
                         (py_int (obj2 o), py_int (obj3 o)) (255, 255, 0) 2;
               PutText (descr +:+ " " +:+ text)
                       (py_int (obj0 o), py_int (obj1 o))
                       FONT_HERSHEY_COMPLEX (7 # 10) (0, 0, 0) 1 LINE_AA ]
          /\ ((0 <= obj4 o)%Q -> (obj4 o <= 1)%Q ->
              exists hundredths v,
                hundredths = round_half_even (f32 (obj4 o * 100))
                /\ 0 <= hundredths <= 100
                /\ read_decimal text = Some v
                /\ (v == hundredths # 100)%Q
                /\ (Qabs (obj4 o - (hundredths # 100)) <= (1 # 200) + (1 # 26214400))%Q))
  /\ (forall x : Q, (Qabs (inject_Z (py_int x)) <= Qabs x)%Q
                    /\ (Qabs (x - inject_Z (py_int x)) < 1)%Q).
Proof.
  intros Hp _ survivors. split; [|split].
  - eexists. rewrite (detect_objects_present _ _ _ _ _ _ _ _ Hp). simpl.
    repeat split.
  - intros o Ho. apply List.filter_In in Ho as [_ Hs].
    apply survives_iff in Hs as [_ [descr Hd]].
    exists descr, (str_hundredths (round2_hundredths (obj4 o))).
    split; [exact Hd|]. split; [unfold annotation_of; now rewrite Hd|].
    intros H0 H1.
    pose proof (round2_hundredths_range (obj4 o) H0 H1) as Hr.
    destruct (str_hundredths_reads_back _ Hr) as (v & Hv & Hq).
    exists (round2_hundredths (obj4 o)), v.
    split; [reflexivity|]. split; [exact Hr|]. split; [exact Hv|].
    split; [exact Hq | now apply round2_close].
  - apply py_int_truncates.
Qed.

Lemma detect_objects_draws_in_order_witness :
  exists f',
    fst (YOLOv8Model.detect_objects (Some example_frame) float32_model (1 # 2)
           one_monitor 640 float32_translator example_world) = Ok (Some f')
    /\ pixels f' = pixels example_frame
    /\ drawn f' =
       [ Rectangle (10, 10) (50, 50) (255, 255, 0) 2;
         PutText "person 0.91" (10, 10) 3 (7 # 10) (0, 0, 0) 1 16;
         Rectangle (30, -3) (80, 90) (255, 255, 0) 2;
         PutText "car 0.52" (30, -3) 3 (7 # 10) (0, 0, 0) 1 16 ].
Proof.
  exact (proj1 (detect_objects_draws_in_order example_frame float32_model (1 # 2)
                  one_monitor 640 float32_translator [float32_detections]
                  example_world eq_refl eq_refl)).
Defined.

(** C2 as stated fails: for the confidence [float32_0_515], just below
    0.515, the label reads 0.52, although the confidence rounded to two
    decimal places is 0.51 and 0.52 is more than half a hundredth away. *)
Lemma label_is_rounded_in_single_precision :
  fst (YOLOv8Model.detect_objects (Some example_frame)
         (mkYOLO (fun _ _ => Ok [[mkObj 10 10 50 50 float32_0_515 0]]))
         (1 # 2) one_monitor 640 example_translator example_world)
  = Ok (Some (mkFrame [[(12, 34, 56)]]
                [ Rectangle (10, 10) (50, 50) (255, 255, 0) 2;
                  PutText "person 0.52" (10, 10) 3 (7 # 10) (0, 0, 0) 1 16 ]))
  /\ round_half_even (float32_0_515 * 100) = 51
  /\ (Qabs (float32_0_515 - (51 # 100)) <= 1 # 200)%Q
  /\ ~ (Qabs (float32_0_515 - (52 # 100)) <= 1 # 200)%Q.
Proof.
  split; [reflexivity|]. split; [reflexivity|]. split.
  - vm_compute. discriminate.
  - vm_compute. intros H. now apply H.
Qed.

(** *** Computations that leave part of the state alone *)

Section Keeps.
Context {S X : Type} (proj : S -> X).

Lemma keeps_ret {A} (a : A) : keeps proj (ret a).
Proof. now intros s. Qed.

Lemma keeps_raise {A} (e : exn) : keeps proj (@raise S A e).
Proof. now intros s. Qed.

Lemma keeps_lift_res {A} (r : res A) : keeps proj (lift_res r).
Proof. now intros s. Qed.

Lemma keeps_gets {A} (f : S -> A) : keeps proj (gets f).
Proof. now intros s. Qed.

Lemma keeps_modify (f : S -> S) :
  (forall s, proj (f s) = proj s) -> keeps proj (modify f).
Proof. intros H s. apply H. Qed.

Lemma keeps_bind {A B} (m : M S A) (k : A -> M S B) :
  keeps proj m -> (forall a, keeps proj (k a)) -> keeps proj (bind m k).
Proof.
  intros Hm Hk s. unfold bind. specialize (Hm s).
  destruct (m s) as [[a|e] s']; simpl in *.
  - now rewrite Hk.
  - exact Hm.
Qed.

Lemma keeps_try_except {A} (m : M S A) (handler : exn -> M S A) :
  keeps proj m -> (forall e, keeps proj (handler e)) -> keeps proj (try_except m handler).
Proof.
  intros Hm Hh s. unfold try_except. specialize (Hm s).
  destruct (m s) as [[a|e] s']; simpl in *.
  - exact Hm.
  - now rewrite Hh.
Qed.

Lemma keeps_for_each {A B} (body : B -> A -> M S B) (xs : list A) :
  (forall b a, keeps proj (body b a)) -> forall acc, keeps proj (YOLOv8Model.for_each body xs acc).
Proof.
  intros Hb. induction xs as [|x xs IH]; intros acc; simpl.
  - apply keeps_ret.
  - apply keeps_bind; [apply Hb | exact IH].
Qed.

End Keeps.

Lemma keeps_in_world {Self X A} (proj : World -> X) (m : M World A) :
  keeps proj m -> keeps (fun s : Self * World => proj (snd s)) (in_world m).
Proof.
  intros Hm [self w]. unfold in_world, zoom; simpl. specialize (Hm w).
  destruct (m w) as [r w']; simpl in *. exact Hm.
Qed.

Lemma keeps_on_self {Self X A} (proj : World -> X) (m : M Self A) :
  keeps (fun s : Self * World => proj (snd s)) (on_self m).
Proof.
  intros [self w]. unfold on_self, zoom; simpl. now destruct (m self).
Qed.

Ltac keeps_step :=
  first
    [ apply keeps_ret | apply keeps_raise | apply keeps_gets | apply keeps_lift_res
    | apply keeps_on_self
    | apply keeps_bind; [|intros ?]
    | apply keeps_try_except; [|intros ?]
    | apply keeps_modify; intros ?; reflexivity
    | match goal with
      | |- keeps _ (match ?x with _ => _ end) => destruct x
      | |- keeps _ (let '(_, _) := ?x in _) => destruct x
      end ].

Ltac keeps_auto := repeat keeps_step.

Lemma Basler_update_device_keeps {X} (proj : World -> X) i f :
  off_camera proj -> keeps (fun s : Basler.St => proj (snd s)) (Basler.update_device i f).
Proof.
  intros Hoff. unfold Basler.update_device. apply keeps_in_world.
  apply keeps_modify. intros w. apply Hoff.
Qed.

Lemma Basler_get_frame_keeps {X} (proj : World -> X) :
  off_camera proj -> keeps (fun s : Basler.St => proj (snd s)) Basler.get_frame.
Proof.
  intros Hoff.
  unfold Basler.get_frame, Basler.the_camera, Basler.camera_IsGrabbing,
    Basler.camera_RetrieveResult_ThrowException, Basler.device.
  repeat first [apply Basler_update_device_keeps; assumption | keeps_step].
Qed.

Lemma WebCam_get_frame_keeps {X} (proj : World -> X) :
  keeps (fun s : WebCam.St => proj (snd s)) WebCam.get_frame.
Proof.
  unfold WebCam.get_frame, WebCam.vid_read, WebCam.the_vid, WebCam.set_vid.
  keeps_auto.
Qed.

Lemma captor_get_frame_keeps {X} (proj : World -> X) :
  off_camera proj -> keeps (fun s : Captor * World => proj (snd s)) YOLOv8Model.captor_get_frame.
Proof.
  intros Hoff [[c|c] w]; unfold YOLOv8Model.captor_get_frame; simpl.
  - pose proof (WebCam_get_frame_keeps proj (c, w)) as H.
    destruct (WebCam.get_frame (c, w)) as [r [c' w']]. exact H.
  - pose proof (Basler_get_frame_keeps proj Hoff (c, w)) as H.
    destruct (Basler.get_frame (c, w)) as [r [c' w']]. exact H.
Qed.

Lemma acquire_keeps {X} (proj : World -> X) camera_type :
  off_camera proj -> keeps (fun s : Captor * World => proj (snd s)) (YOLOv8Model.acquire camera_type).
Proof.
  intros Hoff. unfold YOLOv8Model.acquire, YOLOv8Model.captor_capture_from_basler.
  repeat first [apply captor_get_frame_keeps; assumption | keeps_step].
Qed.


Lemma report_fps_keeps_windows time_1 : keeps windows (YOLOv8Model.report_fps time_1).
Proof. unfold YOLOv8Model.report_fps, YOLOv8Model.time_time. keeps_auto. Qed.


(** *** show_frame_on_monitor *)

Lemma show_frame_out_of_range self frame monitor_number w :
  Z.of_nat (length (ImageDisplayer.monitors self)) <= monitor_number ->
  ImageDisplayer.show_frame_on_monitor self frame monitor_number w =
  (Ok tt, set_stdout (fun out => out ++ [Text ("Монитор с номером " +:+ pretty monitor_number
                                               +:+ " не найден.")]) w).
Proof.
  intros H. unfold ImageDisplayer.show_frame_on_monitor.
  replace (monitor_number >=? Z.of_nat (length (ImageDisplayer.monitors self))) with true
    by (symmetry; apply Z.geb_le; lia).
  reflexivity.
Qed.

Lemma show_frame_absent self monitor_number w :
  exists diagnostic,
    ImageDisplayer.show_frame_on_monitor self None monitor_number w =
    (Ok tt, set_stdout (fun out => out ++ [Text diagnostic]) w).
Proof.
  unfold ImageDisplayer.show_frame_on_monitor.
  destruct ((monitor_number >=? _) || (monitor_number <? 0)); eexists; reflexivity.
Qed.

(** For contrast, the call that is in range and has a frame: with two
    monitors, index 1 creates the full-screen window "Monitor 1" showing the
    frame, and prints nothing. *)
Example show_frame_in_range :
  let w := snd (ImageDisplayer.show_frame_on_monitor two_monitors (Some example_frame) 1
                  example_world) in
  windows w !! "Monitor 1" = Some (mkWindow WND_PROP_FULLSCREEN true (Some example_frame))
  /\ stdout w = [].
Proof. split; reflexivity. Qed.

(** C7.  [show_frame_on_monitor] with a monitor index greater than or equal
    to the number of enumerated monitors, or with an absent frame, returns
    normally after printing one diagnostic line; nothing else in the world
    changes, in particular no window is created or altered. *)
Theorem show_frame_on_monitor_noop
    (self : ImageDisplayer.Self) (frame : option Frame) (monitor_number : Z) (w : World) :
  Z.of_nat (length (ImageDisplayer.monitors self)) <= monitor_number \/ frame = None ->
  exists diagnostic : string,
    ImageDisplayer.show_frame_on_monitor self frame monitor_number w =
      (Ok tt, set_stdout (fun out => out ++ [Text diagnostic]) w)
    /\ windows (snd (ImageDisplayer.show_frame_on_monitor self frame monitor_number w))
       = windows w.
Proof.
  intros [Hrange | ->].
  - eexists. rewrite show_frame_out_of_range by exact Hrange. split; reflexivity.
  - destruct (show_frame_absent self monitor_number w) as [d Hd].
    exists d. rewrite Hd. split; reflexivity.
Qed.

Lemma show_frame_on_monitor_noop_witness :
  exists diagnostic : string,
    ImageDisplayer.show_frame_on_monitor one_monitor (Some example_frame) 1 example_world =
      (Ok tt, set_stdout (fun out => out ++ [Text diagnostic]) example_world)
    /\ windows (snd (ImageDisplayer.show_frame_on_monitor one_monitor (Some example_frame) 1
                       example_world))
       = windows example_world.
Proof.
  apply (show_frame_on_monitor_noop one_monitor (Some example_frame) 1 example_world).
  left. simpl. lia.
Defined.

(** *** The key poll *)

Lemma set_keys_tl_nil w : keys w = [] -> set_keys (fun ks => tl ks) w = w.
Proof. destruct w; simpl. now intros ->. Qed.

Lemma poll_quit_spec (w : World) :
  YOLOv8Model.poll_quit w =
  (Ok (Z.land (hd (-1) (keys w)) 255 =? YOLOv8Model.ord_q), after_poll w).
Proof.
  unfold YOLOv8Model.poll_quit, YOLOv8Model.cv2_waitKey, after_poll, bind, gets.
  destruct (keys w) as [|k rest] eqn:Hk; simpl.
  - rewrite set_keys_tl_nil by exact Hk. reflexivity.
  - destruct (Z.land k 255 =? YOLOv8Model.ord_q); unfold modify, ret; simpl;
      unfold set_keys; rewrite Hk; reflexivity.
Qed.

Lemma low_byte_in_range (k : Z) :
  -1 <= k <= 255 -> (Z.land k 255 = YOLOv8Model.ord_q <-> k = YOLOv8Model.ord_q).
Proof.
  intros Hk. destruct (Z.eq_dec k (-1)) as [->|Hne].
  - vm_compute. split; discriminate.
  - change 255 with (Z.ones 8). rewrite Z.land_ones by lia.
    rewrite Z.mod_small by (change (2 ^ 8) with 256; lia). reflexivity.
Qed.

(** C9.  In an iteration that reaches the key poll, the loop is left (and
    all windows are destroyed) exactly when the character of the polled key
    code, its low byte, is 'q'; for any other key, and when no key is
    pressed, the windows stay and the loop goes on with the next iteration.
    For the codes [cv2.waitKey] returns (-1 and 0 to 255) the low byte is
    'q' exactly when the code is that of 'q'. *)
Theorem quit_key_stops_loop
    (model : YOLO) (translator : gmap string string) (cur_model_conf : Q)
    (displayer : ImageDisplayer.Self) (imgsz : Z) (camera_type : string)
    (s s1 : Captor * World) (pressed_key : Z) :
  let body := YOLOv8Model.iteration model translator cur_model_conf displayer imgsz
                camera_type in
  YOLOv8Model.process_frame model translator cur_model_conf displayer imgsz camera_type s
    = (Ok tt, s1) ->
  hd (-1) (keys (snd s1)) = pressed_key ->
  (Z.land pressed_key 255 = YOLOv8Model.ord_q ->
     exists w2, body s = (Ok true, (fst s1, w2))
                /\ windows w2 = ∅
                /\ forall n, YOLOv8Model.while_True (S n) body s = (Ok Stopped, (fst s1, w2)))
  /\ (Z.land pressed_key 255 <> YOLOv8Model.ord_q ->
     exists w2, body s = (Ok false, (fst s1, w2))
                /\ windows w2 = windows (snd s1)
                /\ forall n, YOLOv8Model.while_True (S n) body s
                             = YOLOv8Model.while_True n body (fst s1, w2))
  /\ (-1 <= pressed_key <= 255 ->
      (Z.land pressed_key 255 = YOLOv8Model.ord_q <-> pressed_key = YOLOv8Model.ord_q)).
Proof.
  intros body Hp Hk.
  assert (Hbody : body s = (Ok (Z.land pressed_key 255 =? YOLOv8Model.ord_q),
                            (fst s1, after_poll (snd s1)))).
  { unfold body, YOLOv8Model.iteration. erewrite bind_ok by exact Hp.
    destruct s1 as [c1 w1]. unfold in_world, zoom; simpl.
    rewrite poll_quit_spec. simpl in Hk. now rewrite Hk. }
  split; [|split].
  - intros Hq. exists (after_poll (snd s1)). rewrite Hbody.
    rewrite (proj2 (Z.eqb_eq _ _) Hq). split; [reflexivity|]. split.
    + unfold after_poll. rewrite Hk, (proj2 (Z.eqb_eq _ _) Hq). reflexivity.
    + intros n. simpl. erewrite bind_ok by exact Hbody.
      rewrite (proj2 (Z.eqb_eq _ _) Hq). reflexivity.
  - intros Hq. exists (after_poll (snd s1)). rewrite Hbody.
    rewrite (proj2 (Z.eqb_neq _ _) Hq). split; [reflexivity|]. split.
    + unfold after_poll. rewrite Hk, (proj2 (Z.eqb_neq _ _) Hq). reflexivity.
    + intros n. simpl. erewrite bind_ok by exact Hbody.
      rewrite (proj2 (Z.eqb_neq _ _) Hq). reflexivity.
  - apply low_byte_in_range.
Qed.

Lemma quit_key_stops_loop_witness :
  let body := YOLOv8Model.iteration example_model example_translator (1 # 2) one_monitor
                640 "usb" in
  let s := (working_webcam, loop_world) in
  let s1 := snd (YOLOv8Model.process_frame example_model example_translator (1 # 2)
                   one_monitor 640 "usb" s) in
  exists w2, body s = (Ok true, (fst s1, w2))
             /\ windows w2 = ∅
             /\ forall n, YOLOv8Model.while_True (S n) body s = (Ok Stopped, (fst s1, w2)).
Proof.
  intros body s s1.
  exact (proj1 (quit_key_stops_loop example_model example_translator (1 # 2) one_monitor
                  640 "usb" s s1 113 eq_refl eq_refl) eq_refl).
Defined.

(** *** The loop on a single monitor *)







(** *** An iteration whose read fails *)

Lemma detect_objects_logs frame model threshold disp imgsz translator w :
  inferences (snd (YOLOv8Model.detect_objects frame model threshold disp imgsz translator w))
  = inferences w ++ [(frame, imgsz)].
Proof.
  unfold YOLOv8Model.detect_objects, YOLOv8Model.model_predict.
  unfold bind at 1. unfold ImageDisplayer.echo at 1, modify at 1.
  unfold bind at 1. unfold bind at 1, modify at 1, lift_res at 1.
  destruct (predict model frame imgsz) as [items|e]; simpl; [|reflexivity].
  match goal with |- inferences (snd (?m ?w0)) = _ =>
    assert (Hk : keeps inferences m); [|rewrite (Hk w0); reflexivity] end.
  apply keeps_for_each. intros fr objs. apply keeps_for_each. intros fr' o.
  unfold YOLOv8Model.visit, ImageDisplayer.one_object_display. keeps_auto.
Qed.

(** On an absent frame the inner-loop body draws nothing and raises nothing,
    whether or not the detection survives. *)
Lemma visit_on_absent disp threshold translator o w :
  YOLOv8Model.visit disp threshold translator None o w = (Ok None, w).
Proof.
  unfold YOLOv8Model.visit.
  destruct (float32_gt (obj4 o) threshold); [|reflexivity].
  destruct (translator !! YOLOv8Model.class_key o) as [descr|]; reflexivity.
Qed.

Lemma for_each_visit_absent disp threshold translator objs w :
  YOLOv8Model.for_each (YOLOv8Model.visit disp threshold translator) objs None w
  = (Ok None, w).
Proof.
  induction objs as [|o objs IH]; simpl; [reflexivity|].
  unfold bind. now rewrite visit_on_absent.
Qed.

Lemma for_each_items_absent disp threshold translator items w :
  YOLOv8Model.for_each
    (fun frame boxes_data =>
       YOLOv8Model.for_each (YOLOv8Model.visit disp threshold translator) boxes_data frame)
    items None w
  = (Ok None, w).
Proof.
  induction items as [|objs items IH]; simpl; [reflexivity|].
  unfold bind. now rewrite for_each_visit_absent.
Qed.

Lemma detect_objects_run frame model threshold disp imgsz translator w :
  YOLOv8Model.detect_objects frame model threshold disp imgsz translator w =
  match predict model frame imgsz with
  | Ok items =>
      YOLOv8Model.for_each
        (fun frame boxes_data =>
           YOLOv8Model.for_each (YOLOv8Model.visit disp threshold translator)
                                boxes_data frame)
        items frame (after_detection frame imgsz w)
  | Raise e => (Raise e, after_detection frame imgsz w)
  end.
Proof.
  unfold YOLOv8Model.detect_objects, YOLOv8Model.model_predict.
  unfold bind at 1. unfold ImageDisplayer.echo at 1, modify at 1.
  unfold bind at 1. unfold bind at 1, modify at 1, lift_res at 1.
  now destruct (predict model frame imgsz).
Qed.

Lemma detect_objects_absent model threshold disp imgsz translator items w :
  predict model None imgsz = Ok items ->
  YOLOv8Model.detect_objects None model threshold disp imgsz translator w
  = (Ok None, after_detection None imgsz w).
Proof. intros Hp. now rewrite detect_objects_run, Hp, for_each_items_absent. Qed.

Lemma report_fps_keeps_inferences time_1 : keeps inferences (YOLOv8Model.report_fps time_1).
Proof. unfold YOLOv8Model.report_fps, YOLOv8Model.time_time. keeps_auto. Qed.

Lemma poll_quit_keeps_inferences : keeps inferences YOLOv8Model.poll_quit.
Proof.
  unfold YOLOv8Model.poll_quit, YOLOv8Model.cv2_waitKey, YOLOv8Model.cv2_destroyAllWindows.
  keeps_auto.
Qed.

Lemma show_frame_keeps_inferences disp frame monitor_number :
  keeps inferences (ImageDisplayer.show_frame_on_monitor disp frame monitor_number).
Proof.
  unfold ImageDisplayer.show_frame_on_monitor, ImageDisplayer.echo,
    ImageDisplayer.cv2_namedWindow, ImageDisplayer.cv2_setWindowProperty_fullscreen,
    ImageDisplayer.cv2_imshow.
  keeps_auto.
Qed.

Lemma bind_assoc {S A B C} (m : M S A) (k : A -> M S B) (h : B -> M S C) s :
  bind (bind m k) h s = bind m (fun a => bind (k a) h) s.
Proof. unfold bind. now destruct (m s) as [[a|e] s']. Qed.

Lemma bind_ext {S A B} (m : M S A) (k1 k2 : A -> M S B) s :
  (forall a s', k1 a s' = k2 a s') -> bind m k1 s = bind m k2 s.
Proof. intros H. unfold bind. now destruct (m s) as [[a|e] s']. Qed.

Lemma in_world_run {Self A} (m : M World A) (self : Self) (w : World) :
  in_world m (self, w) = (fst (m w), (self, snd (m w))).
Proof. unfold in_world, zoom; simpl. now destruct (m w). Qed.

Lemma in_world_ok {Self A} (m : M World A) (self : Self) (w w' : World) (a : A) :
  m w = (Ok a, w') -> in_world m (self, w) = (Ok a, (self, w')).
Proof. intros H. now rewrite in_world_run, H. Qed.

(** An iteration, once the clock is read and the frame acquired. *)
Lemma iteration_after_acquire model translator threshold disp imgsz camera_type
    c w time_1 w0 frame c1 w1 :
  YOLOv8Model.time_time w = (Ok time_1, w0) ->
  YOLOv8Model.acquire camera_type (c, w0) = (Ok frame, (c1, w1)) ->
  YOLOv8Model.iteration model translator threshold disp imgsz camera_type (c, w) =
  (do frame' <- in_world (YOLOv8Model.detect_objects frame model threshold disp imgsz
                            translator);
   in_world (ImageDisplayer.show_frame_on_monitor disp frame'
               ImageDisplayer.default_monitor_number) ;;
   in_world (YOLOv8Model.report_fps time_1) ;;
   in_world YOLOv8Model.poll_quit) (c1, w1).
Proof.
  intros Ht Hacq. unfold YOLOv8Model.iteration, YOLOv8Model.process_frame.
  rewrite bind_assoc. erewrite bind_ok by (rewrite in_world_run, Ht; reflexivity).
  rewrite bind_assoc. erewrite bind_ok by exact Hacq.
  rewrite bind_assoc. apply bind_ext. intros frame' s2.
  now rewrite bind_assoc.
Qed.

(** The presentation of an absent frame on the default monitor prints the
    diagnostic of the first guard that applies. *)
Lemma show_absent_on_default disp w :
  ImageDisplayer.show_frame_on_monitor disp None ImageDisplayer.default_monitor_number w
  = (Ok tt,
     set_stdout (fun out => out ++ [Text (absent_frame_diagnostic disp)]) w).
Proof.
  unfold ImageDisplayer.show_frame_on_monitor, absent_frame_diagnostic,
    ImageDisplayer.default_monitor_number.
  destruct (Z.leb_spec 2 (Z.of_nat (length (ImageDisplayer.monitors disp)))) as [H|H].
  - replace (1 >=? Z.of_nat (length (ImageDisplayer.monitors disp))) with false
      by (symmetry; rewrite Z.geb_leb; apply Z.leb_gt; lia).
    reflexivity.
  - replace (1 >=? Z.of_nat (length (ImageDisplayer.monitors disp))) with true
      by (symmetry; rewrite Z.geb_leb; apply Z.leb_le; lia).
    reflexivity.
Qed.

(** C3.  An iteration of the loop (camera type "usb") in which the captor's
    read reports failure, returning [(False, None)], skips nothing.
    [model.predict] is called on the absent frame.  When it answers, the
    detection returns (drawing on an absent frame paints nothing and raises
    nothing), [show_frame_on_monitor] is run on the absent frame and prints
    its diagnostic, and the iteration goes on to the FPS report and the key
    poll.  When it raises, its exception is the exception of the
    iteration. *)
Theorem failed_read_still_detects_and_displays
    (model : YOLO) (translator : gmap string string) (cur_model_conf : Q)
    (displayer : ImageDisplayer.Self) (imgsz : Z)
    (captor captor1 : Captor) (w w0 w1 : World) (time_1 : Q) :
  let body := YOLOv8Model.iteration model translator cur_model_conf displayer imgsz "usb" in
  let detected := after_detection None imgsz w1 in
  let diagnostic :=
    if 2 <=? Z.of_nat (length (ImageDisplayer.monitors displayer))
    then "Передано пустое изображение" else "Монитор с номером 1 не найден." in
  let shown := set_stdout (fun out => out ++ [Text diagnostic]) detected in
  YOLOv8Model.time_time w = (Ok time_1, w0) ->
  YOLOv8Model.captor_get_frame (captor, w0) = (Ok (false, None), (captor1, w1)) ->
  (forall items,
      predict model None imgsz = Ok items ->
      drawable cur_model_conf translator items = true ->
      YOLOv8Model.detect_objects None model cur_model_conf displayer imgsz translator w1
      = (Ok None, detected)
      /\ ImageDisplayer.show_frame_on_monitor displayer None
           ImageDisplayer.default_monitor_number detected
         = (Ok tt, shown)
      /\ body (captor, w)
         = (in_world (YOLOv8Model.report_fps time_1) ;; in_world YOLOv8Model.poll_quit)
             (captor1, shown)
      /\ stdout shown = stdout w1 ++ [Text "<class 'int'>"; Text diagnostic]
      /\ inferences (snd (snd (body (captor, w)))) = inferences w1 ++ [(None, imgsz)])
  /\ (forall e,
        predict model None imgsz = Raise e ->
        body (captor, w) = (Raise e, (captor1, detected))).
Proof.
  intros body detected diagnostic shown Ht Hread.
  assert (Hacq : YOLOv8Model.acquire "usb" (captor, w0) = (Ok None, (captor1, w1))).
  { unfold YOLOv8Model.acquire; simpl. now erewrite bind_ok by exact Hread. }
  pose proof (iteration_after_acquire model translator cur_model_conf displayer imgsz
                "usb" captor w time_1 w0 None captor1 w1 Ht Hacq) as Hbody.
  fold body in Hbody.
  split.
  - intros items Hp _.
    pose proof (detect_objects_absent model cur_model_conf displayer imgsz translator
                  items w1 Hp) as Hdet.
    fold detected in Hdet.
    pose proof (show_absent_on_default displayer detected) as Hshow.
    change (set_stdout (fun out => out ++ [Text (absent_frame_diagnostic displayer)])
              detected) with shown in Hshow.
    assert (Hrun : body (captor, w)
                   = (in_world (YOLOv8Model.report_fps time_1) ;;
                      in_world YOLOv8Model.poll_quit) (captor1, shown)).
    { rewrite Hbody. erewrite bind_ok by (apply in_world_ok; exact Hdet).
      erewrite bind_ok by (apply in_world_ok; exact Hshow). reflexivity. }
    split; [exact Hdet|]. split; [exact Hshow|]. split; [exact Hrun|]. split.
    + simpl. now rewrite <- app_assoc.
    + rewrite Hrun.
      match goal with |- inferences (snd (snd (?m (captor1, shown)))) = _ =>
        assert (Hk : keeps (fun s : Captor * World => inferences (snd s)) m);
          [|rewrite (Hk (captor1, shown)); reflexivity] end.
      apply keeps_bind; [apply keeps_in_world, report_fps_keeps_inferences | intros _].
      apply keeps_in_world, poll_quit_keeps_inferences.
  - intros e Hp. rewrite Hbody. apply bind_raise.
    rewrite in_world_run, detect_objects_run, Hp. reflexivity.
Qed.

Lemma failed_read_still_detects_and_displays_witness :
  let s' := YOLOv8Model.iteration example_model example_translator (1 # 2) two_monitors 640
              "usb" (failing_webcam, loop_world) in
  List.filter (survives (1 # 2) example_translator) example_detections
  = [mkObj 10 10 50 50 (91 # 100) 0]
  /\ fst s' = Ok true
  /\ stdout (snd (snd s'))
     = [Text "<class 'int'>"; Text "Передано пустое изображение"; Fps (1 # 2)]
  /\ inferences (snd (snd s')) = [(None, 640)]
  /\ keys (snd (snd s')) = [].
Proof.
  intros s'. split; [reflexivity|].
  destruct (proj1 (failed_read_still_detects_and_displays example_model example_translator
                     (1 # 2) two_monitors 640 failing_webcam _ loop_world _ _ _
                     eq_refl eq_refl) [example_detections] eq_refl eq_refl)
    as (_ & _ & Hrun & _).
  subst s'. rewrite Hrun. repeat split.
Defined.

(** *** ConfigLoader *)

(** What one access can do: it reads the file at most once; when it returns
    a value, the heap it leaves answers every later access with that value
    and is not changed by it. *)
Lemma access_cases p fs h :
  let r := fst (ConfigLoader.access p fs h) in
  let h' := snd (ConfigLoader.access p fs h) in
  (length (ConfigLoader.file_reads h') <= length (ConfigLoader.file_reads h) + 1)%nat
  /\ forall v, r = Ok v -> forall p' fs', ConfigLoader.access p' fs' h' = (Ok v, h').
Proof.
  destruct h as [inst log]. unfold ConfigLoader.access; simpl.
  set (self := ConfigLoader.__new__ p inst). clearbody self.
  destruct self as [path cfg loaded].
  unfold ConfigLoader.get_config, ConfigLoader.load_config, bind, gets; simpl.
  destruct loaded; simpl.
  - destruct cfg as [j|]; simpl; (split; [lia|]).
    + intros v [= <-] p' fs'. reflexivity.
    + discriminate.
  - destruct (ConfigLoader.truthy path) as [file|] eqn:Hpath; simpl.
    + destruct (fs file) as [| |j]; simpl.
      * split; [lia|]. discriminate.
      * rewrite length_app; simpl. split; [lia|]. discriminate.
      * unfold ConfigLoader.validate_config, bind, gets; simpl.
        destruct (ConfigLoader.isinstance_dict j); simpl.
        -- rewrite length_app; simpl. split; [lia|].
           intros v [= <-] p' fs'. reflexivity.
        -- rewrite length_app; simpl. split; [lia|]. discriminate.
    + destruct cfg as [j|]; simpl; (split; [lia|]).
      * intros v [= <-] p' fs'. unfold ConfigLoader.access; simpl.
        unfold ConfigLoader.get_config, ConfigLoader.load_config, bind, gets; simpl.
        rewrite Hpath. reflexivity.
      * discriminate.
Qed.

Lemma accesses_after_load v h :
  (forall p fs, ConfigLoader.access p fs h = (Ok v, h)) ->
  forall calls, ConfigLoader.accesses calls h = (map (fun _ => Ok v) calls, h).
Proof.
  intros Hfix. induction calls as [|[p fs] calls IH]; simpl.
  - reflexivity.
  - now rewrite Hfix, IH.
Qed.

Lemma accesses_read_bound calls : forall h,
  (length (ConfigLoader.file_reads (snd (ConfigLoader.accesses calls h)))
   <= length (ConfigLoader.file_reads h)
      + raises (fst (ConfigLoader.accesses calls h)) + 1)%nat.
Proof.
  induction calls as [|[p fs] calls IH]; intros h; simpl.
  - lia.
  - destruct (access_cases p fs h) as [Hlen Hfix].
    destruct (ConfigLoader.access p fs h) as [[v|e] h1] eqn:Ha; simpl in *.
    + rewrite (accesses_after_load v h1 (Hfix v eq_refl) calls). simpl.
      unfold raises. simpl. lia.
    + specialize (IH h1).
      destruct (ConfigLoader.accesses calls h1) as [rs h2]; simpl in *.
      unfold raises in *. simpl. lia.
Qed.

Lemma access_run p fs h :
  ConfigLoader.access p fs h =
  (fst (ConfigLoader.get_config fs
          (ConfigLoader.__new__ p (ConfigLoader._instance h), ConfigLoader.file_reads h)),
   ConfigLoader.mkHeap
     (Some (fst (snd (ConfigLoader.get_config fs
          (ConfigLoader.__new__ p (ConfigLoader._instance h), ConfigLoader.file_reads h)))))
     (snd (snd (ConfigLoader.get_config fs
          (ConfigLoader.__new__ p (ConfigLoader._instance h), ConfigLoader.file_reads h))))).
Proof.
  unfold ConfigLoader.access.
  now destruct (ConfigLoader.get_config fs _) as [r [self' log]].
Qed.

(** One access, by cases on the instance it runs on. *)
Lemma access_sound p fs h :
  config_sound h ->
  config_sound (snd (ConfigLoader.access p fs h))
  /\ (forall v, fst (ConfigLoader.access p fs h) = Ok v -> exists entries, v = JDict entries)
  /\ instance_path (snd (ConfigLoader.access p fs h))
     = Some (ConfigLoader.file_path (ConfigLoader.__new__ p (ConfigLoader._instance h))).
Proof.
  intros Hs. destruct h as [inst log]. unfold config_sound in Hs; simpl in Hs.
  rewrite access_run; simpl.
  assert (Hself : let self := ConfigLoader.__new__ p inst in
            (ConfigLoader._is_loaded self = true ->
               exists entries, ConfigLoader.config self = Some (JDict entries))
            /\ (ConfigLoader.truthy (ConfigLoader.file_path self) = None ->
                  ConfigLoader.config self = None /\ ConfigLoader._is_loaded self = false)).
  { destruct inst as [self|]; simpl; [exact Hs|]. split; [discriminate|]. now intros _. }
  clear Hs. set (self := ConfigLoader.__new__ p inst) in *. clearbody self.
  destruct self as [path cfg loaded]. simpl in Hself. destruct Hself as [Hl Hp].
  unfold ConfigLoader.get_config, ConfigLoader.load_config, bind, gets; simpl.
  destruct loaded; simpl.
  - destruct (Hl eq_refl) as [entries ->]; simpl. unfold config_sound; simpl.
    split; [split; [eauto|]|split; [|reflexivity]].
    + intros Ht. destruct (Hp Ht); discriminate.
    + intros v [= <-]. eauto.
  - destruct (ConfigLoader.truthy path) as [file|] eqn:Hpath; simpl.
    + destruct (fs file) as [| |j]; simpl.
      * unfold config_sound; simpl. rewrite Hpath.
        split; [split; [discriminate|discriminate]|split; [discriminate|reflexivity]].
      * unfold config_sound; simpl. rewrite Hpath.
        split; [split; [discriminate|discriminate]|split; [discriminate|reflexivity]].
      * unfold ConfigLoader.validate_config, bind, gets; simpl.
        destruct j; simpl; unfold config_sound; simpl; rewrite Hpath;
          (split; [split; [try discriminate; eauto|discriminate]
                  |split; [try discriminate; intros v [= <-]; eauto|reflexivity]]).
    + destruct (Hp eq_refl) as [-> _]; simpl. unfold config_sound; simpl. rewrite Hpath.
      split; [split; [discriminate|now intros _]|split; [discriminate|reflexivity]].
Qed.

Lemma accesses_cons p fs calls h :
  ConfigLoader.accesses ((p, fs) :: calls) h =
  (fst (ConfigLoader.access p fs h)
     :: fst (ConfigLoader.accesses calls (snd (ConfigLoader.access p fs h))),
   snd (ConfigLoader.accesses calls (snd (ConfigLoader.access p fs h)))).
Proof.
  simpl. destruct (ConfigLoader.access p fs h) as [r h1]; simpl.
  now destruct (ConfigLoader.accesses calls h1) as [rs h2].
Qed.

Lemma accesses_sound calls : forall h,
  config_sound h ->
  config_sound (snd (ConfigLoader.accesses calls h))
  /\ Forall (fun r => forall v, r = Ok v -> exists entries, v = JDict entries)
            (fst (ConfigLoader.accesses calls h)).
Proof.
  induction calls as [|[p fs] calls IH]; intros h Hs.
  - simpl. split; [exact Hs | constructor].
  - rewrite accesses_cons; simpl.
    destruct (access_sound p fs h Hs) as (Hs1 & Hv & _).
    destruct (IH _ Hs1) as [Hs2 Hall]. split; [exact Hs2|].
    constructor; [exact Hv | exact Hall].
Qed.

(** An access that raises, on a heap the accesses can reach, leaves the
    loader unloaded. *)
Lemma access_failed p fs h e h1 :
  config_sound h ->
  ConfigLoader.access p fs h = (Raise e, h1) ->
  exists self1,
    ConfigLoader._instance h1 = Some self1 /\ ConfigLoader._is_loaded self1 = false.
Proof.
  intros Hs. destruct h as [inst log]. unfold config_sound in Hs; simpl in Hs.
  rewrite access_run; simpl.
  assert (Hself : let self := ConfigLoader.__new__ p inst in
            ConfigLoader._is_loaded self = true ->
            exists entries, ConfigLoader.config self = Some (JDict entries)).
  { destruct inst as [self|]; simpl; [exact (proj1 Hs) | discriminate]. }
  clear Hs. set (self := ConfigLoader.__new__ p inst) in *. clearbody self.
  destruct self as [path cfg loaded]. simpl in Hself.
  unfold ConfigLoader.get_config, ConfigLoader.load_config, bind, gets; simpl.
  destruct loaded; simpl.
  - destruct (Hself eq_refl) as [entries ->]; simpl. discriminate.
  - destruct (ConfigLoader.truthy path) as [file|]; simpl.
    + destruct (fs file) as [| |j]; simpl.
      * intros [= <- <-]. eauto.
      * intros [= <- <-]. eauto.
      * unfold ConfigLoader.validate_config, bind, gets; simpl.
        destruct (ConfigLoader.isinstance_dict j); simpl.
        -- discriminate.
        -- intros [= <- <-]. eauto.
    + destruct cfg as [j|]; simpl; [discriminate|].
      intros [= <- <-]. eauto.
Qed.

(** An access to an unloaded loader opens its file, and reads it when it is
    there. *)
Lemma access_unloaded_reads p fs h self path :
  ConfigLoader._instance h = Some self ->
  ConfigLoader._is_loaded self = false ->
  ConfigLoader.truthy (ConfigLoader.file_path self) = Some path ->
  fs path <> ConfigLoader.Missing ->
  ConfigLoader.file_reads (snd (ConfigLoader.access p fs h))
  = ConfigLoader.file_reads h ++ [path].
Proof.
  intros Hi Hl Hp Hfs. destruct h as [inst log]. simpl in Hi. subst inst.
  rewrite access_run; simpl. destruct self as [fp cfg loaded]. simpl in Hl, Hp. subst loaded.
  unfold ConfigLoader.get_config, ConfigLoader.load_config, bind, gets; simpl.
  rewrite Hp. destruct (fs path) as [| |j]; simpl; [congruence | reflexivity |].
  unfold ConfigLoader.validate_config, bind, gets; simpl.
  destruct (ConfigLoader.isinstance_dict j); simpl; [|reflexivity].
  now destruct j.
Qed.

(** C5, amended.  For the accesses to the configuration singleton that
    follow the first construction: once an access has returned a value,
    every later access returns that same value and changes nothing, so the
    file is not read again.  An access that raises leaves the loader
    unloaded, and the next access opens the file again and reads it whenever
    it is there.  So the file is read at most once for each access that
    raised and once more for the load that succeeds.  Every value an access
    returns is a dictionary. *)
Theorem config_cached_after_first_load :
  (forall p fs h v h1,
      ConfigLoader.access p fs h = (Ok v, h1) ->
      forall calls, ConfigLoader.accesses calls h1 = (map (fun _ => Ok v) calls, h1))
  /\ (forall calls h,
        (length (ConfigLoader.file_reads (snd (ConfigLoader.accesses calls h)))
         <= length (ConfigLoader.file_reads h)
            + raises (fst (ConfigLoader.accesses calls h)) + 1)%nat)
  /\ (forall calls p fs e h1,
        ConfigLoader.access p fs (snd (ConfigLoader.accesses calls ConfigLoader.initial))
        = (Raise e, h1) ->
        exists self1,
          ConfigLoader._instance h1 = Some self1
          /\ ConfigLoader._is_loaded self1 = false
          /\ forall p' fs' path,
               ConfigLoader.truthy (ConfigLoader.file_path self1) = Some path ->
               fs' path <> ConfigLoader.Missing ->
               ConfigLoader.file_reads (snd (ConfigLoader.access p' fs' h1))
               = ConfigLoader.file_reads h1 ++ [path])
  /\ (forall calls p fs v h1,
        ConfigLoader.access p fs (snd (ConfigLoader.accesses calls ConfigLoader.initial))
        = (Ok v, h1) ->
        exists entries, v = JDict entries).
Proof.
  split; [|split; [|split]].
  - intros p fs h v h1 Ha calls. apply accesses_after_load.
    destruct (access_cases p fs h) as [_ Hfix]. rewrite Ha in Hfix. simpl in Hfix.
    now apply Hfix.
  - intros calls h. apply accesses_read_bound.
  - intros calls p fs e h1 Ha.
    destruct (accesses_sound calls ConfigLoader.initial I) as [Hs _].
    destruct (access_failed p fs _ e h1 Hs Ha) as (self1 & Hi & Hl).
    exists self1. split; [exact Hi|]. split; [exact Hl|].
    intros p' fs' path Hp Hfs. now apply (access_unloaded_reads p' fs' h1 self1).
  - intros calls p fs v h1 Ha.
    destruct (accesses_sound calls ConfigLoader.initial I) as [Hs _].
    destruct (access_sound p fs _ Hs) as (_ & Hv & _).
    apply Hv. now rewrite Ha.
Qed.

Lemma config_cached_after_first_load_witness :
  (let h1 := snd (ConfigLoader.access (Some "resources/config.json") valid_everywhere
                    ConfigLoader.initial) in
   ConfigLoader.accesses [(None, malformed_everywhere); (None, malformed_everywhere)] h1
   = ([Ok (JDict [("video_source_main_camera", JInt 0)]);
       Ok (JDict [("video_source_main_camera", JInt 0)])], h1))
  /\ (ConfigLoader.access (Some "resources/config.json") list_everywhere
        ConfigLoader.initial
      = (Raise (ValueError "Конфигурация должна быть словарем."),
         ConfigLoader.mkHeap
           (Some (ConfigLoader.mkSelf (Some "resources/config.json") (Some (JList [])) false))
           ["resources/config.json"])
      /\ exists self1,
           ConfigLoader._instance
             (snd (ConfigLoader.access (Some "resources/config.json") list_everywhere
                     ConfigLoader.initial)) = Some self1
           /\ ConfigLoader._is_loaded self1 = false
           /\ ConfigLoader.file_reads
                (snd (ConfigLoader.access None list_everywhere
                        (snd (ConfigLoader.access (Some "resources/config.json")
                                list_everywhere ConfigLoader.initial))))
              = ["resources/config.json"; "resources/config.json"]).
Proof.
  split.
  - intros h1.
    exact (proj1 config_cached_after_first_load (Some "resources/config.json")
             valid_everywhere ConfigLoader.initial _ h1 eq_refl
             [(None, malformed_everywhere); (None, malformed_everywhere)]).
  - split; [reflexivity|].
    destruct (proj1 (proj2 (proj2 config_cached_after_first_load)) []
                (Some "resources/config.json") list_everywhere _ _ eq_refl)
      as (self1 & Hi & Hl & Hread).
    exists self1. split; [exact Hi|]. split; [exact Hl|].
    apply (Hread None list_everywhere "resources/config.json").
    + simpl in Hi. injection Hi as <-. reflexivity.
    + discriminate.
Defined.

(** C5 as stated fails: with a configuration file that does not parse, two
    accesses read the file twice (and both raise). *)
Lemma config_read_twice :
  ConfigLoader.accesses
    [(Some "resources/config.json", malformed_everywhere);
     (None, malformed_everywhere)] ConfigLoader.initial
  = ([Raise (Exception "Ошибка при разборе JSON из файла resources/config.json.");
      Raise (Exception "Ошибка при разборе JSON из файла resources/config.json.")],
     ConfigLoader.mkHeap
       (Some (ConfigLoader.mkSelf (Some "resources/config.json") None false))
       ["resources/config.json"; "resources/config.json"])
  /\ ~ (length (ConfigLoader.file_reads
                  (snd (ConfigLoader.accesses
                          [(Some "resources/config.json", malformed_everywhere);
                           (None, malformed_everywhere)] ConfigLoader.initial))) <= 1)%nat.
Proof. split; [reflexivity | simpl; lia]. Qed.

(** *** BaslerImageCaptor *)

Lemma the_camera_present self w i :
  Basler.camera self = Some i -> Basler.the_camera (self, w) = (Ok i, (self, w)).
Proof. intros H. unfold Basler.the_camera, bind, gets; simpl. now rewrite H. Qed.

Lemma device_present self w i d :
  pylon_devices w !! i = Some d -> Basler.device i (self, w) = (Ok d, (self, w)).
Proof. intros H. unfold Basler.device, bind, gets; simpl. now rewrite H. Qed.

Lemma update_device_run self w i f :
  Basler.update_device i f (self, w) = (Ok tt, (self, set_pylon_devices (alter f i) w)).
Proof. reflexivity. Qed.

Lemma alter_device_agree (f g : Device -> Device) w i d :
  pylon_devices w !! i = Some d -> f d = g d ->
  set_pylon_devices (alter f i) w = set_pylon_devices (alter g i) w.
Proof.
  intros Hd Hfg. destruct w; unfold set_pylon_devices; simpl in *. f_equal.
  apply list_alter_ext; [|reflexivity].
  intros x Hx. rewrite Hd in Hx. injection Hx as <-. exact Hfg.
Qed.

Lemma alter_device_fixed (f : Device -> Device) w i d :
  pylon_devices w !! i = Some d -> f d = d -> set_pylon_devices (alter f i) w = w.
Proof.
  intros Hd Hf. rewrite (alter_device_agree f id w i d Hd Hf).
  destruct w; unfold set_pylon_devices; simpl. f_equal. now apply list_alter_id.
Qed.

Lemma alter_device_twice (f g : Device -> Device) w i :
  set_pylon_devices (alter f i) (set_pylon_devices (alter g i) w)
  = set_pylon_devices (alter (f ∘ g) i) w.
Proof.
  destruct w; unfold set_pylon_devices; simpl. f_equal. apply list_alter_alter_eq.
Qed.

Lemma IsGrabbing_present self w i d :
  pylon_devices w !! i = Some d ->
  Basler.camera_IsGrabbing i (self, w) = (Ok (IsGrabbing d), (self, w)).
Proof.
  intros Hd. unfold Basler.camera_IsGrabbing.
  now erewrite bind_ok by (apply device_present; exact Hd).
Qed.

Lemma IsOpen_present self w i d :
  pylon_devices w !! i = Some d ->
  Basler.camera_IsOpen i (self, w) = (Ok (IsOpen d), (self, w)).
Proof.
  intros Hd. unfold Basler.camera_IsOpen.
  now erewrite bind_ok by (apply device_present; exact Hd).
Qed.

(** [release] on a constructed captor: no exception, and the camera's
    device ends up closed and not grabbing. *)
Lemma release_spec self w i d :
  Basler.camera self = Some i ->
  pylon_devices w !! i = Some d ->
  Basler.release (self, w) = (Ok tt, (self, set_pylon_devices (alter shut i) w)).
Proof.
  intros Hc Hd. unfold Basler.release.
  erewrite bind_ok by (apply the_camera_present; exact Hc).
  erewrite bind_ok by (apply IsGrabbing_present; exact Hd).
  destruct d as [op gr nm inc]; simpl.
  destruct gr.
  - unfold Basler.camera_StopGrabbing.
    erewrite bind_ok by apply update_device_run.
    erewrite bind_ok by (apply the_camera_present; exact Hc).
    erewrite bind_ok.
    2:{ apply IsOpen_present. simpl. rewrite list_lookup_alter_eq, Hd. reflexivity. }
    simpl. destruct op.
    + unfold Basler.camera_Close. rewrite update_device_run, alter_device_twice.
      apply (f_equal (fun w' => (Ok tt, (self, w')))).
      now apply (alter_device_agree _ _ _ _ _ Hd).
    + unfold ret. apply (f_equal (fun w' => (Ok tt, (self, w')))).
      now apply (alter_device_agree _ _ _ _ _ Hd).
  - erewrite bind_ok by reflexivity.
    erewrite bind_ok by (apply the_camera_present; exact Hc).
    erewrite bind_ok by (apply IsOpen_present; exact Hd).
    simpl. destruct op.
    + unfold Basler.camera_Close. rewrite update_device_run.
      apply (f_equal (fun w' => (Ok tt, (self, w')))).
      now apply (alter_device_agree _ _ _ _ _ Hd).
    + unfold ret. apply (f_equal (fun w' => (Ok tt, (self, w')))).
      symmetry. now apply (alter_device_fixed _ _ _ _ Hd).
Qed.

Lemma times_fixed {S} (m : M S unit) (s' : S) :
  m s' = (Ok tt, s') -> forall n, times n m s' = (Ok tt, s').
Proof.
  intros Hfix. induction n as [|n IH]; simpl; [reflexivity|].
  now erewrite bind_ok by exact Hfix.
Qed.

(** The hypothesis of a constructed captor matters for the industrial
    camera: the constructor's own failure path raises before [self.camera]
    is assigned, and [release] (which [__del__] calls) on such an object
    fails on the missing attribute. *)
Example release_without_camera (w : World) :
  Basler.release (Basler.blank, w)
  = (Raise (AttributeError "BaslerImageCaptor" "camera"), (Basler.blank, w)).
Proof. reflexivity. Qed.

(** C6.  [release] on a constructed captor of either class never raises,
    however many times it is called: any number of calls, one or more, ends
    in the same state as a single call.  In that state the device is closed
    (an industrial camera is also no longer grabbing), and no device that was
    closed before the call is open after it. *)
Theorem release_is_idempotent :
  (forall self w i d n,
      Basler.camera self = Some i ->
      pylon_devices w !! i = Some d ->
      exists w',
        Basler.release (self, w) = (Ok tt, (self, w'))
        /\ times (S n) Basler.release (self, w) = (Ok tt, (self, w'))
        /\ pylon_devices w' !! i = Some (mkDevice false false (node_map d) (incoming d))
        /\ (forall j dj dj', pylon_devices w !! j = Some dj ->
                             pylon_devices w' !! j = Some dj' ->
                             IsOpen dj = false -> IsOpen dj' = false))
  /\ (forall v w n,
        exists v',
          WebCam.release (WebCam.mkSelf (Some v), w) = (Ok tt, (WebCam.mkSelf (Some v'), w))
          /\ times (S n) WebCam.release (WebCam.mkSelf (Some v), w)
             = (Ok tt, (WebCam.mkSelf (Some v'), w))
          /\ WebCam.isOpened v' = false
          /\ WebCam.upcoming v' = WebCam.upcoming v).
Proof.
  split.
  - intros self w i d n Hc Hd.
    exists (set_pylon_devices (alter shut i) w).
    pose proof (release_spec self w i d Hc Hd) as Hrel.
    assert (Hd' : pylon_devices (set_pylon_devices (alter shut i) w) !! i = Some (shut d)).
    { simpl. now rewrite list_lookup_alter_eq, Hd. }
    split; [exact Hrel|]. split; [|split].
    + simpl. erewrite bind_ok by exact Hrel. apply times_fixed.
      rewrite (release_spec _ _ i (shut d) Hc Hd').
      apply (f_equal (fun w' => (Ok tt, (self, w')))).
      now apply (alter_device_fixed _ _ _ _ Hd').
    + exact Hd'.
    + intros j dj dj' Hj Hj' Hclosed.
      destruct (decide (i = j)) as [<-|Hne].
      * rewrite Hd' in Hj'. now injection Hj' as <-.
      * simpl in Hj'. rewrite list_lookup_alter_ne in Hj' by exact Hne. congruence.
  - intros v w n. destruct v as [op up req].
    exists (WebCam.mkVideoCapture false up req).
    assert (Hfix : WebCam.release (WebCam.mkSelf (Some (WebCam.mkVideoCapture false up req)), w)
                   = (Ok tt, (WebCam.mkSelf (Some (WebCam.mkVideoCapture false up req)), w)))
      by reflexivity.
    assert (Hrel : WebCam.release (WebCam.mkSelf (Some (WebCam.mkVideoCapture op up req)), w)
                   = (Ok tt, (WebCam.mkSelf (Some (WebCam.mkVideoCapture false up req)), w)))
      by (destruct op; reflexivity).
    split; [exact Hrel|]. split; [|split; reflexivity].
    simpl. erewrite bind_ok by exact Hrel. now apply times_fixed.
Qed.

Lemma release_is_idempotent_witness :
  exists w',
    Basler.release silent_camera_captor = (Ok tt, (fst silent_camera_captor, w'))
    /\ times 3 Basler.release silent_camera_captor = (Ok tt, (fst silent_camera_captor, w')).
Proof.
  destruct (proj1 release_is_idempotent (fst silent_camera_captor)
              (snd silent_camera_captor) 0%nat _ 2%nat eq_refl eq_refl)
    as (w' & Hone & Hmany & _).
  exists w'. split; [exact Hone | exact Hmany].
Defined.

(** C8.  Constructing the industrial-camera captor fails in the constructor
    with a [ValueError] whenever the number of enumerated devices is not 1 or
    2 or the index is not that of an enumerated device (index 1 with a
    single device, for one).  The failed constructor has created no camera
    object and the world is as before: no device was opened. *)
Theorem basler_init_rejects_missing_device
    (camera_index : Z) (path : string) (self : Basler.Self) (w : World) :
  let n := length (pylon_devices w) in
  ~ ((n = 1 \/ n = 2)%nat /\ 0 <= camera_index < Z.of_nat n) ->
  exists msg,
    Basler.__init__ camera_index path (self, w) =
    (Raise (ValueError msg),
     (Basler.mkSelf (Some n) (Basler.camera self) (Basler.converter self), w)).
Proof.
  intros n Hbad.
  assert (H0 : ((n =? 1)%nat || (n =? 2)%nat) && (camera_index =? 0) = false).
  { apply andb_false_iff.
    destruct (Z.eqb_spec camera_index 0) as [->|]; [left|now right].
    apply orb_false_iff. split; apply Nat.eqb_neq; lia. }
  assert (H1 : (n =? 2)%nat && (camera_index =? 1) = false).
  { apply andb_false_iff.
    destruct (Z.eqb_spec camera_index 1) as [->|]; [left|now right].
    apply Nat.eqb_neq. lia. }
  unfold Basler.__init__.
  erewrite bind_ok by reflexivity.
  erewrite bind_ok by reflexivity.
  cbn [snd fst]. fold n. rewrite H0, H1.
  eexists. reflexivity.
Qed.

Lemma basler_init_rejects_missing_device_witness :
  exists msg,
    Basler.__init__ 1 "camera.pfs" (Basler.blank, silent_camera_world) =
    (Raise (ValueError msg), (Basler.mkSelf (Some 1%nat) None false, silent_camera_world)).
Proof.
  apply (basler_init_rejects_missing_device 1 "camera.pfs" Basler.blank silent_camera_world).
  simpl. lia.
Defined.

(** X23.  The outcomes of [get_frame] of the industrial camera: the failure
    pair [(False, None)] when the camera is not grabbing and when the
    retrieved result reports an unsuccessful grab; the timeout exception of
    the SDK, requested by [TimeoutHandling_ThrowException], when a retrieval
    does not complete within 5000 ms; [True] and the horizontally mirrored
    image after a successful grab. *)
Theorem basler_get_frame_outcomes
    (self : Basler.Self) (w : World) (i : nat) (d : Device) :
  Basler.camera self = Some i ->
  pylon_devices w !! i = Some d ->
  (IsGrabbing d = false ->
     Basler.get_frame (self, w) = (Ok (false, None), (self, w)))
  /\ (IsGrabbing d = true -> forall rest, incoming d = GrabFailed :: rest ->
        exists w', Basler.get_frame (self, w) = (Ok (false, None), (self, w')))
  /\ (IsGrabbing d = true ->
      incoming d = [] \/ (exists rest, incoming d = GrabTimeout :: rest) ->
        exists w', Basler.get_frame (self, w) = (Raise timeout_error, (self, w')))
  /\ (IsGrabbing d = true -> Basler.converter self = true ->
      forall img rest, incoming d = Grabbed img :: rest ->
        exists w', Basler.get_frame (self, w)
                   = (Ok (true, Some (mkFrame (cv2_flip_horizontal img) [])), (self, w'))).
Proof.
  intros Hc Hd. unfold Basler.get_frame.
  erewrite bind_ok by (apply the_camera_present; exact Hc).
  erewrite bind_ok by (apply IsGrabbing_present; exact Hd).
  unfold Basler.camera_RetrieveResult_ThrowException.
  repeat split.
  - intros ->. reflexivity.
  - intros -> rest Hin.
    erewrite bind_ok.
    2:{ erewrite bind_ok by (apply device_present; exact Hd). rewrite Hin.
        erewrite bind_ok by apply update_device_run. reflexivity. }
    eexists. reflexivity.
  - intros -> Hin.
    destruct Hin as [Hin | [rest Hin]].
    + eexists. apply bind_raise.
      erewrite bind_ok by (apply device_present; exact Hd). rewrite Hin. reflexivity.
    + eexists. apply bind_raise.
      erewrite bind_ok by (apply device_present; exact Hd). rewrite Hin.
      erewrite bind_ok by apply update_device_run. reflexivity.
  - intros -> Hconv img rest Hin.
    erewrite bind_ok.
    2:{ erewrite bind_ok by (apply device_present; exact Hd). rewrite Hin.
        erewrite bind_ok by apply update_device_run. reflexivity. }
    cbv beta iota. erewrite bind_ok by reflexivity. cbn [fst]. rewrite Hconv.
    eexists. reflexivity.
Qed.

Lemma basler_get_frame_outcomes_witness :
  exists w',
    Basler.get_frame silent_camera_captor
    = (Raise timeout_error, (fst silent_camera_captor, w')).
Proof.
  exact (proj1 (proj2 (proj2
           (basler_get_frame_outcomes (fst silent_camera_captor)
              (snd silent_camera_captor) 0%nat _ eq_refl eq_refl)))
           eq_refl (or_intror (ex_intro _ [] eq_refl))).
Defined.

(** C4.  The code does not do what the claim, and the docstring of
    [get_frame], promise.  On a constructed captor whose camera is grabbing,
    a retrieval that times out makes [get_frame] raise instead of returning
    [(False, None)], the pair that the same method returns for a failed grab
    and for a camera that is not grabbing; and a loop that reads from this
    captor ends with that exception in the iteration of the timeout. *)
Theorem basler_timeout_is_raised :
  (exists d, pylon_devices (snd silent_camera_captor) !! 0%nat = Some d
             /\ IsOpen d = true /\ IsGrabbing d = true /\ incoming d = [GrabTimeout])
  /\ fst (Basler.get_frame silent_camera_captor)
     = Raise (TimeoutException "Grab timed out after 5000 ms")
  /\ fst (Basler.get_frame silent_camera_captor) <> Ok (false, None)
  /\ fst (Basler.get_frame (fst silent_camera_captor, failed_grab_world))
     = Ok (false, None)
  /\ fst (Basler.get_frame (fst silent_camera_captor, idle_camera_world))
     = Ok (false, None)
  /\ fst (YOLOv8Model.while_True 1
            (YOLOv8Model.iteration example_model example_translator (1 # 2) one_monitor
               640 "usb")
            (BaslerImageCaptor (fst silent_camera_captor), snd silent_camera_captor))
     = Raise (TimeoutException "Grab timed out after 5000 ms").
Proof.
  split; [|repeat split; try reflexivity; discriminate].
  eexists. repeat split; reflexivity.
Qed.

(** ** Further properties of the code *)

(** *** More on ConfigLoader *)

(** X3.  Whatever the sequence of accesses from a fresh class and whatever the
    file holds at each of them, every value an access returns is a
    dictionary: the root that failed validation is never handed out. *)
Theorem config_values_are_dictionaries
    (calls : list (option string * ConfigLoader.FileSystem)) :
  Forall (fun r => forall v, r = Ok v -> exists entries, v = JDict entries)
         (fst (ConfigLoader.accesses calls ConfigLoader.initial)).
Proof. apply accesses_sound. exact I. Qed.

Lemma accesses_keep_path calls : forall h self,
  ConfigLoader._instance h = Some self ->
  instance_path (snd (ConfigLoader.accesses calls h)) = Some (ConfigLoader.file_path self).
Proof.
  induction calls as [|[p fs] calls IH]; intros h self Hi.
  - simpl. unfold instance_path. now rewrite Hi.
  - rewrite accesses_cons; simpl.
    pose proof (access_run p fs h) as Hrun.
    assert (Hp : exists self1,
               ConfigLoader._instance (snd (ConfigLoader.access p fs h)) = Some self1
               /\ ConfigLoader.file_path self1 = ConfigLoader.file_path self).
    { rewrite Hrun; simpl. eexists. split; [reflexivity|]. rewrite Hi; simpl.
      destruct self as [path cfg loaded].
      unfold ConfigLoader.get_config, ConfigLoader.load_config, bind, gets; simpl.
      destruct loaded; simpl.
      - now destruct cfg.
      - destruct (ConfigLoader.truthy path) as [file|]; simpl.
        + destruct (fs file) as [| |j]; simpl; try reflexivity.
          unfold ConfigLoader.validate_config, bind, gets; simpl.
          now destruct (ConfigLoader.isinstance_dict j).
        + now destruct cfg. }
    destruct Hp as (self1 & Hi1 & Hpath). rewrite (IH _ self1 Hi1). now rewrite Hpath.
Qed.

(** X1.  The path the first constructor call passes is the path of the
    singleton for good: whatever paths the later calls pass and whatever the
    accesses do, the instance keeps the first path. *)
Theorem config_path_fixed_by_first_construction
    (p0 : option string) (fs0 : ConfigLoader.FileSystem)
    (calls : list (option string * ConfigLoader.FileSystem)) :
  instance_path (snd (ConfigLoader.accesses ((p0, fs0) :: calls) ConfigLoader.initial))
  = Some p0.
Proof.
  rewrite accesses_cons; simpl snd.
  pose proof (access_run p0 fs0 ConfigLoader.initial) as Hrun.
  destruct (access_sound p0 fs0 ConfigLoader.initial I) as (_ & _ & Hpath).
  unfold instance_path in Hpath.
  destruct (ConfigLoader._instance (snd (ConfigLoader.access p0 fs0 ConfigLoader.initial)))
    as [self1|] eqn:Hi; [|discriminate].
  rewrite (accesses_keep_path calls _ self1 Hi). simpl in Hpath. exact Hpath.
Qed.

Lemma truthy_nonempty (path : string) :
  path <> EmptyString -> ConfigLoader.truthy (Some path) = Some path.
Proof. destruct path; [congruence | reflexivity]. Qed.

(** X2.  The first access on a fresh loader with a non-empty path, by what is
    at the path: a missing file raises [Exception] without a read; a file
    that does not parse is read and raises [Exception]; a file whose root is
    not a dictionary is read, is stored in [config] and raises [ValueError],
    the loader staying unloaded; a dictionary is returned and the loader is
    loaded. *)
Theorem config_first_access_outcomes (path : string) (fs : ConfigLoader.FileSystem) :
  path <> EmptyString ->
  ConfigLoader.access (Some path) fs ConfigLoader.initial =
  match fs path with
  | ConfigLoader.Missing =>
      (Raise (Exception ("Конфигурационный файл " +:+ path +:+ " не найден.")),
       ConfigLoader.mkHeap (Some (ConfigLoader.mkSelf (Some path) None false)) [])
  | ConfigLoader.Malformed =>
      (Raise (Exception ("Ошибка при разборе JSON из файла " +:+ path +:+ ".")),
       ConfigLoader.mkHeap (Some (ConfigLoader.mkSelf (Some path) None false)) [path])
  | ConfigLoader.Parses (JDict entries) =>
      (Ok (JDict entries),
       ConfigLoader.mkHeap
         (Some (ConfigLoader.mkSelf (Some path) (Some (JDict entries)) true)) [path])
  | ConfigLoader.Parses j =>
      (Raise (ValueError "Конфигурация должна быть словарем."),
       ConfigLoader.mkHeap (Some (ConfigLoader.mkSelf (Some path) (Some j) false)) [path])
  end.
Proof.
  intros Hp. unfold ConfigLoader.access; simpl.
  unfold ConfigLoader.get_config, ConfigLoader.load_config, bind, gets; simpl.
  change (match path with
          | EmptyString => None
          | String _ _ => Some path
          end) with (ConfigLoader.truthy (Some path)).
  rewrite (truthy_nonempty path Hp).
  destruct (fs path) as [| |j]; simpl; try reflexivity.
  destruct j; reflexivity.
Qed.

Lemma access_without_path p fs self log :
  ConfigLoader.truthy (ConfigLoader.file_path self) = None ->
  ConfigLoader.config self = None ->
  ConfigLoader._is_loaded self = false ->
  ConfigLoader.access p fs (ConfigLoader.mkHeap (Some self) log)
  = (Raise (AttributeError "ConfigLoader" "config"), ConfigLoader.mkHeap (Some self) log).
Proof.
  destruct self as [path cfg loaded]; simpl. intros Hp -> ->.
  unfold ConfigLoader.access; simpl.
  unfold ConfigLoader.get_config, ConfigLoader.load_config, bind, gets; simpl.
  now rewrite Hp.
Qed.

(** X4.  When the first constructor call passes no path (or the empty string),
    every access raises [AttributeError] for the missing [config] attribute,
    also the later ones that pass a path, and the file is never read. *)
Theorem config_without_path_never_loads
    (p0 : option string) (fs0 : ConfigLoader.FileSystem)
    (calls : list (option string * ConfigLoader.FileSystem)) :
  p0 = None \/ p0 = Some EmptyString ->
  ConfigLoader.accesses ((p0, fs0) :: calls) ConfigLoader.initial
  = (map (fun _ => Raise (AttributeError "ConfigLoader" "config")) ((p0, fs0) :: calls),
     ConfigLoader.mkHeap (Some (ConfigLoader.mkSelf p0 None false)) []).
Proof.
  intros Hp0.
  assert (Ht : ConfigLoader.truthy p0 = None) by (destruct Hp0 as [-> | ->]; reflexivity).
  assert (Hfix : forall p fs,
             ConfigLoader.access p fs
               (ConfigLoader.mkHeap (Some (ConfigLoader.mkSelf p0 None false)) [])
             = (Raise (AttributeError "ConfigLoader" "config"),
                ConfigLoader.mkHeap (Some (ConfigLoader.mkSelf p0 None false)) [])).
  { intros p fs. now apply access_without_path. }
  assert (Hfirst : ConfigLoader.access p0 fs0 ConfigLoader.initial
                   = (Raise (AttributeError "ConfigLoader" "config"),
                      ConfigLoader.mkHeap (Some (ConfigLoader.mkSelf p0 None false)) [])).
  { unfold ConfigLoader.access; simpl.
    unfold ConfigLoader.get_config, ConfigLoader.load_config, bind, gets; simpl.
    now rewrite Ht. }
  change (ConfigLoader.accesses ((p0, fs0) :: calls) ConfigLoader.initial)
    with (let '(r, h1) := ConfigLoader.access p0 fs0 ConfigLoader.initial in
          let '(rs, h2) := ConfigLoader.accesses calls h1 in (r :: rs, h2)).
  rewrite Hfirst. simpl map.
  assert (Hrest : ConfigLoader.accesses calls
                    (ConfigLoader.mkHeap (Some (ConfigLoader.mkSelf p0 None false)) [])
                  = (map (fun _ => Raise (AttributeError "ConfigLoader" "config")) calls,
                     ConfigLoader.mkHeap (Some (ConfigLoader.mkSelf p0 None false)) [])).
  { clear Hfirst. induction calls as [|[p fs] calls IH]; simpl; [reflexivity|].
    now rewrite Hfix, IH. }
  now rewrite Hrest.
Qed.

(** X5.  An [ImageDisplayer] constructed after an access that returned the
    configuration holds that same value, and its constructor neither reads
    the file nor changes the loader. *)
Theorem displayer_shares_loaded_config
    (p : option string) (fs : ConfigLoader.FileSystem) (h h1 : ConfigLoader.Heap) (v : Json)
    (get_monitors : list ImageDisplayer.Monitor) (fs' : ConfigLoader.FileSystem) :
  ConfigLoader.access p fs h = (Ok v, h1) ->
  ImageDisplayer.__init__ get_monitors fs' h1
  = (Ok (ImageDisplayer.mkSelf get_monitors v (1920, 1080)), h1).
Proof.
  intros Ha. destruct (access_cases p fs h) as [_ Hfix]. rewrite Ha in Hfix. simpl in Hfix.
  unfold ImageDisplayer.__init__. now erewrite bind_ok by (apply Hfix; reflexivity).
Qed.


(** *** More on BaslerImageCaptor *)

Lemma on_self_run {Self A} (m : M Self A) (self : Self) (w : World) :
  on_self m (self, w) = (fst (m self), (snd (m self), w)).
Proof. unfold on_self, zoom; simpl. now destruct (m self). Qed.

Lemma set_stdout_devices f g w :
  set_stdout f (set_pylon_devices g w) = set_pylon_devices g (set_stdout f w).
Proof. reflexivity. Qed.

Lemma select_device_loads self w i d path :
  pylon_devices w !! i = Some d ->
  pfs_loads w path = true ->
  Basler.select_device i path (self, w) =
  (Ok tt,
   (Basler.mkSelf (Basler.devices self) (Some i) (Basler.converter self),
    set_stdout (fun out => out ++ [Text ("Конфигурация камеры Basler " +:+ pretty i
                                         +:+ " успешно загружена.")])
      (set_pylon_devices
         (alter (fun d => mkDevice true (IsGrabbing d) (Some path) (incoming d)) i) w))).
Proof.
  intros Hd Hload. unfold Basler.select_device, Basler.set_camera.
  erewrite bind_ok by (rewrite on_self_run; reflexivity). simpl fst; simpl snd.
  unfold Basler.camera_Open.
  erewrite bind_ok.
  2:{ erewrite bind_ok by (apply device_present; exact Hd). apply update_device_run. }
  unfold try_except, Basler.FeaturePersistence_Load.
  erewrite bind_ok.
  2:{ erewrite bind_ok by (unfold gets; simpl; rewrite Hload; reflexivity).
      apply update_device_run. }
  unfold print. rewrite in_world_run. unfold modify; simpl fst; simpl snd.
  rewrite alter_device_twice. reflexivity.
Qed.

Lemma select_device_refused self w i d path :
  pylon_devices w !! i = Some d ->
  pfs_loads w path = false ->
  Basler.select_device i path (self, w) =
  (Raise (ValueError ("Не удалось загрузить конфигурацию камеры Basler "
                      +:+ pretty i +:+ " из файла " +:+ path)),
   (Basler.mkSelf (Basler.devices self) (Some i) (Basler.converter self),
    set_stdout (fun out => out ++ [Text ("Ошибка при загрузке конфигурации: "
                                         +:+ ("pylon: cannot load " +:+ path))])
      (set_pylon_devices (alter opened_only i) w))).
Proof.
  intros Hd Hload. unfold Basler.select_device, Basler.set_camera.
  erewrite bind_ok by (rewrite on_self_run; reflexivity). simpl fst; simpl snd.
  unfold Basler.camera_Open.
  erewrite bind_ok.
  2:{ erewrite bind_ok by (apply device_present; exact Hd). apply update_device_run. }
  unfold try_except, Basler.FeaturePersistence_Load.
  erewrite bind_raise.
  2:{ erewrite bind_ok by (unfold gets; simpl; rewrite Hload; reflexivity). reflexivity. }
  unfold print. erewrite bind_ok by (rewrite in_world_run; reflexivity).
  reflexivity.
Qed.

Lemma selected_branch (n : nat) (camera_index : Z) :
  (n = 1 \/ n = 2)%nat -> 0 <= camera_index < Z.of_nat n ->
  (((n =? 1)%nat || (n =? 2)%nat) && (camera_index =? 0) = true /\ Z.to_nat camera_index = 0%nat)
  \/ (((n =? 1)%nat || (n =? 2)%nat) && (camera_index =? 0) = false
      /\ (n =? 2)%nat && (camera_index =? 1) = true /\ Z.to_nat camera_index = 1%nat).
Proof.
  intros Hn Hi.
  destruct (Z.eq_dec camera_index 0) as [->|Hne].
  - left. split; [|reflexivity]. destruct Hn as [-> | ->]; reflexivity.
  - right. assert (n = 2%nat /\ camera_index = 1) as [-> ->] by lia. now repeat split.
Qed.

(** X6.  With one or two devices enumerated, an index that selects one of them
    and a configuration file the SDK accepts, the constructor returns with
    the selected device open, configured from the file and grabbing, the
    other devices untouched, the converter set, and one line printed. *)
Theorem basler_init_starts_selected_device
    (camera_index : Z) (path : string) (w : World) (d : Device) :
  let n := length (pylon_devices w) in
  let i := Z.to_nat camera_index in
  (n = 1 \/ n = 2)%nat ->
  0 <= camera_index < Z.of_nat n ->
  pylon_devices w !! i = Some d ->
  pfs_loads w path = true ->
  Basler.__init__ camera_index path (Basler.blank, w) =
  (Ok tt,
   (Basler.mkSelf (Some n) (Some i) true,
    set_stdout (fun out => out ++ [Text ("Конфигурация камеры Basler " +:+ pretty i
                                         +:+ " успешно загружена.")])
      (set_pylon_devices (alter (started path) i) w))).
Proof.
  intros n i Hn Hi Hd Hload. unfold Basler.__init__.
  erewrite bind_ok by reflexivity.
  erewrite bind_ok by (rewrite on_self_run; reflexivity).
  cbn [snd fst]. fold n.
  assert (Hsel : (if ((n =? 1)%nat || (n =? 2)%nat) && (camera_index =? 0)
                  then Basler.select_device 0 path
                  else if (n =? 2)%nat && (camera_index =? 1)
                       then Basler.select_device 1 path
                       else raise (ValueError "Число подключенных камер Basler должно быть равно 1 или 2 (camera_index принимает значения 0 или 1)"))
                 = Basler.select_device i path).
  { destruct (selected_branch n camera_index Hn Hi) as [[-> Hz] | (-> & -> & Hz)];
      fold i in Hz; now rewrite Hz. }
  rewrite Hsel.
  erewrite bind_ok by (apply (select_device_loads _ _ _ d); [exact Hd | exact Hload]).
  erewrite bind_ok by (rewrite on_self_run; reflexivity).
  erewrite bind_ok by (apply the_camera_present; reflexivity).
  unfold Basler.camera_StartGrabbing. rewrite update_device_run.
  simpl snd. rewrite <- set_stdout_devices, alter_device_twice. reflexivity.
Qed.

(** X7.  When the SDK refuses the configuration file, the constructor raises
    [ValueError] after it has opened the selected device: the device is left
    open (grabbing is not started, the other devices are untouched), and a
    [release] on the object closes it. *)
Theorem basler_init_refused_config_leaves_camera_open
    (camera_index : Z) (path : string) (w : World) (d : Device) :
  let n := length (pylon_devices w) in
  let i := Z.to_nat camera_index in
  (n = 1 \/ n = 2)%nat ->
  0 <= camera_index < Z.of_nat n ->
  pylon_devices w !! i = Some d ->
  pfs_loads w path = false ->
  exists msg w',
    Basler.__init__ camera_index path (Basler.blank, w)
    = (Raise (ValueError msg), (Basler.mkSelf (Some n) (Some i) false, w'))
    /\ pylon_devices w' !! i = Some (mkDevice true (IsGrabbing d) (node_map d) (incoming d))
    /\ (forall j, j <> i -> pylon_devices w' !! j = pylon_devices w !! j)
    /\ exists w'',
         Basler.release (Basler.mkSelf (Some n) (Some i) false, w')
         = (Ok tt, (Basler.mkSelf (Some n) (Some i) false, w''))
         /\ pylon_devices w'' !! i = Some (mkDevice false false (node_map d) (incoming d)).
Proof.
  intros n i Hn Hi Hd Hload.
  assert (Hinit : Basler.__init__ camera_index path (Basler.blank, w)
                  = (Raise (ValueError ("Не удалось загрузить конфигурацию камеры Basler "
                                        +:+ pretty i +:+ " из файла " +:+ path)),
                     (Basler.mkSelf (Some n) (Some i) false,
                      set_stdout (fun out => out ++ [Text ("Ошибка при загрузке конфигурации: "
                                                +:+ ("pylon: cannot load " +:+ path))])
                        (set_pylon_devices (alter opened_only i) w)))).
  { unfold Basler.__init__.
    erewrite bind_ok by reflexivity.
    erewrite bind_ok by (rewrite on_self_run; reflexivity).
    unfold modify. cbn [snd fst Basler.camera Basler.converter Basler.blank]. fold n.
    apply bind_raise.
    destruct (selected_branch n camera_index Hn Hi) as [[-> Hz] | (-> & -> & Hz)];
      fold i in Hz; rewrite <- Hz;
      now apply (select_device_refused (Basler.mkSelf (Some n) None false) _ _ d). }
  eexists _, _. split; [exact Hinit|].
  assert (Hd' : pylon_devices
                  (set_stdout (fun out => out ++ [Text ("Ошибка при загрузке конфигурации: "
                                            +:+ ("pylon: cannot load " +:+ path))])
                     (set_pylon_devices (alter opened_only i) w)) !! i
                = Some (opened_only d)).
  { simpl. now rewrite list_lookup_alter_eq, Hd. }
  split; [exact Hd'|]. split.
  { intros j Hj. simpl. now rewrite list_lookup_alter_ne by congruence. }
  eexists. split.
  - apply (release_spec _ _ i (opened_only d)); [reflexivity | exact Hd'].
  - simpl. rewrite list_lookup_alter_eq, list_lookup_alter_eq, Hd. reflexivity.
Qed.

(** *** Reading after release *)

(** X9.  On a constructed captor of either class, [get_frame] after [release]
    returns [(False, None)] and leaves the state as [release] left it. *)
Theorem get_frame_after_release :
  (forall self w i d,
      Basler.camera self = Some i ->
      pylon_devices w !! i = Some d ->
      (Basler.release ;; Basler.get_frame) (self, w)
      = (Ok (false, None), snd (Basler.release (self, w))))
  /\ (forall v w,
        (WebCam.release ;; WebCam.get_frame) (WebCam.mkSelf (Some v), w)
        = (Ok (false, None), snd (WebCam.release (WebCam.mkSelf (Some v), w)))).
Proof.
  split.
  - intros self w i d Hc Hd.
    rewrite (bind_ok _ _ _ _ _ (release_spec self w i d Hc Hd)).
    rewrite (release_spec self w i d Hc Hd). simpl snd.
    assert (Hd' : pylon_devices (set_pylon_devices (alter shut i) w) !! i = Some (shut d)).
    { simpl. now rewrite list_lookup_alter_eq, Hd. }
    unfold Basler.get_frame.
    erewrite bind_ok by (apply the_camera_present; exact Hc).
    erewrite bind_ok by (apply IsGrabbing_present; exact Hd').
    reflexivity.
  - intros [op up req] w. destruct op; reflexivity.
Qed.

(** *** More on WebCamImageCaptor *)

(** X10.  The webcam constructor: when the source does not open it raises
    [Exception] naming the source, with [self.vid] already assigned, so that
    [release] on the object returns normally; when the source opens it
    requests the frame width and then the frame height. *)
Theorem webcam_init_outcomes
    (cv2_VideoCapture : Json -> WebCam.VideoCapture) (video_source : Json)
    (width height : Z) (self : WebCam.Self) (w : World) :
  let v := cv2_VideoCapture video_source in
  (WebCam.isOpened v = false ->
     WebCam.__init__ cv2_VideoCapture video_source width height (self, w)
     = (Raise (Exception ("Unable to open video source: " +:+ WebCam.source_str video_source)),
        (WebCam.mkSelf (Some v), w))
     /\ WebCam.release (WebCam.mkSelf (Some v), w) = (Ok tt, (WebCam.mkSelf (Some v), w)))
  /\ (WebCam.isOpened v = true ->
      WebCam.__init__ cv2_VideoCapture video_source width height (self, w)
      = (Ok tt,
         (WebCam.mkSelf
            (Some (WebCam.mkVideoCapture true (WebCam.upcoming v)
                     (WebCam.requested v ++ [(WebCam.CAP_PROP_FRAME_WIDTH, width);
                                             (WebCam.CAP_PROP_FRAME_HEIGHT, height)]))),
          w))).
Proof.
  intros v. subst v. destruct (cv2_VideoCapture video_source) as [op up req] eqn:Hv.
  split; simpl; intros ->.
  - split.
    + unfold WebCam.__init__, WebCam.set_vid, WebCam.the_vid, bind, gets, on_self, zoom,
        modify; simpl. now rewrite Hv.
    + reflexivity.
  - unfold WebCam.__init__, WebCam.vid_set, WebCam.set_vid, WebCam.the_vid, bind, gets,
      on_self, zoom, modify; simpl. rewrite Hv; simpl. now rewrite <- app_assoc.
Qed.

Lemma webcam_get_frame_open up req w :
  WebCam.get_frame (WebCam.mkSelf (Some (WebCam.mkVideoCapture true up req)), w)
  = (Ok (delivered (hd None up)),
     (WebCam.mkSelf (Some (WebCam.mkVideoCapture true (tl up) req)), w)).
Proof. destruct up as [|[img|] rest]; reflexivity. Qed.

(** X11.  [n] calls of [get_frame] on an open webcam deliver the next [n]
    answers of the device in order, a failed read as [(False, None)], and
    [(False, None)] for every call after the answers ran out; the capture
    stays open and the answers delivered are consumed. *)
Theorem webcam_frames_arrive_in_order (n : nat) : forall up req w,
  collect n WebCam.get_frame (WebCam.mkSelf (Some (WebCam.mkVideoCapture true up req)), w)
  = (Ok (map delivered (firstn n up) ++ repeat (false, None) (n - length up)),
     (WebCam.mkSelf (Some (WebCam.mkVideoCapture true (skipn n up) req)), w)).
Proof.
  induction n as [|n IH]; intros up req w.
  - reflexivity.
  - cbn [collect]. erewrite bind_ok by apply webcam_get_frame_open.
    erewrite bind_ok by apply IH.
    destruct up as [|answer rest].
    + unfold ret. cbn [hd tl length].
      rewrite !firstn_nil, !skipn_nil, Nat.sub_0_r. reflexivity.
    + reflexivity.
Qed.

(** *** A successful grab *)

Lemma flip_twice (img : Image) : cv2_flip_horizontal (cv2_flip_horizontal img) = img.
Proof.
  unfold cv2_flip_horizontal. rewrite map_map.
  induction img as [|row img IH]; simpl; [reflexivity|].
  now rewrite rev_involutive, IH.
Qed.

(** X8.  A successful grab on a grabbing industrial camera returns [True] and
    the image with every row reversed: as many rows, rows as long as before,
    and reversing once more gives the image back.  The result is consumed
    from the device, and nothing else about the devices changes. *)
Theorem basler_get_frame_delivers_mirror
    (self : Basler.Self) (w : World) (i : nat) (d : Device) (img : Image)
    (rest : list GrabResult) :
  Basler.camera self = Some i ->
  Basler.converter self = true ->
  pylon_devices w !! i = Some d ->
  IsGrabbing d = true ->
  incoming d = Grabbed img :: rest ->
  exists w',
    Basler.get_frame (self, w) = (Ok (true, Some (mkFrame (map (@rev Pixel) img) [])), (self, w'))
    /\ pylon_devices w' !! i = Some (mkDevice (IsOpen d) true (node_map d) rest)
    /\ (forall j, j <> i -> pylon_devices w' !! j = pylon_devices w !! j)
    /\ length (map (@rev Pixel) img) = length img
    /\ map (@length Pixel) (map (@rev Pixel) img) = map (@length Pixel) img
    /\ map (@rev Pixel) (map (@rev Pixel) img) = img.
Proof.
  intros Hc Hconv Hd Hg Hin.
  exists (set_pylon_devices
            (alter (fun d => mkDevice (IsOpen d) (IsGrabbing d) (node_map d) rest) i) w).
  split.
  { unfold Basler.get_frame.
    erewrite bind_ok by (apply the_camera_present; exact Hc).
    erewrite bind_ok by (apply IsGrabbing_present; exact Hd).
    rewrite Hg. unfold Basler.camera_RetrieveResult_ThrowException.
    erewrite bind_ok.
    2:{ erewrite bind_ok by (apply device_present; exact Hd). rewrite Hin.
        erewrite bind_ok by apply update_device_run. reflexivity. }
    cbv beta iota. erewrite bind_ok by reflexivity. cbn [fst]. now rewrite Hconv. }
  split.
  { simpl. rewrite list_lookup_alter_eq, Hd. simpl. now rewrite Hg. }
  split.
  { intros j Hj. simpl. now rewrite list_lookup_alter_ne by congruence. }
  split; [apply length_map|]. split.
  - rewrite map_map. apply map_ext. intros row. apply length_rev.
  - apply flip_twice.
Qed.


(** *** More on show_frame_on_monitor *)

(** With a frame and the index of an enumerated monitor the method reaches
    the three HighGUI calls. *)
Lemma show_frame_reaches_window self frame monitor_number w :
  0 <= monitor_number < Z.of_nat (length (ImageDisplayer.monitors self)) ->
  ImageDisplayer.show_frame_on_monitor self (Some frame) monitor_number w
  = (ImageDisplayer.cv2_namedWindow (window_name monitor_number) WND_PROP_FULLSCREEN ;;
     ImageDisplayer.cv2_setWindowProperty_fullscreen (window_name monitor_number)
       WINDOW_FULLSCREEN ;;
     ImageDisplayer.cv2_imshow (window_name monitor_number) frame) w.
Proof.
  intros Hr. unfold ImageDisplayer.show_frame_on_monitor.
  replace (monitor_number >=? Z.of_nat (length (ImageDisplayer.monitors self))) with false
    by (symmetry; rewrite Z.geb_leb; apply Z.leb_gt; lia).
  replace (monitor_number <? 0) with false by (symmetry; apply Z.ltb_ge; lia).
  cbn [orb].
  destruct (ImageDisplayer.get_monitors_positions self !! Z.to_nat monitor_number)
    as [[x y]|] eqn:Hpos.
  2:{ apply lookup_ge_None in Hpos. unfold ImageDisplayer.get_monitors_positions in Hpos.
      rewrite length_map in Hpos. lia. }
  reflexivity.
Qed.

Lemma show_frame_presents self frame monitor_number w :
  0 <= monitor_number < Z.of_nat (length (ImageDisplayer.monitors self)) ->
  image_is_empty (pixels frame) = false ->
  ImageDisplayer.show_frame_on_monitor self (Some frame) monitor_number w
  = (Ok tt,
     set_windows (fun ws => <[window_name monitor_number :=
                               presenting ws (window_name monitor_number) frame]> ws) w).
Proof.
  intros Hr Hne. rewrite show_frame_reaches_window by exact Hr.
  set (name := window_name monitor_number).
  unfold ImageDisplayer.cv2_namedWindow, ImageDisplayer.cv2_setWindowProperty_fullscreen,
    ImageDisplayer.cv2_imshow. rewrite Hne. unfold bind, modify; simpl.
  f_equal. destruct w as [out devs pfs ws ks cl nw inf]; unfold set_windows; simpl.
  f_equal. unfold presenting.
  destruct (ws !! name) as [win|] eqn:Hw.
  - rewrite lookup_alter_eq, Hw; simpl.
    apply map_eq. intros k. destruct (decide (k = name)) as [->|Hne'].
    + now rewrite !lookup_insert_eq.
    + now rewrite !lookup_insert_ne, lookup_alter_ne by congruence.
  - rewrite lookup_alter_eq, lookup_insert_eq; simpl.
    apply map_eq. intros k. destruct (decide (k = name)) as [->|Hne'].
    + now rewrite !lookup_insert_eq.
    + now rewrite !lookup_insert_ne, lookup_alter_ne, lookup_insert_ne by congruence.
Qed.

Lemma show_frame_empty_image self frame monitor_number w :
  0 <= monitor_number < Z.of_nat (length (ImageDisplayer.monitors self)) ->
  image_is_empty (pixels frame) = true ->
  exists msg,
    fst (ImageDisplayer.show_frame_on_monitor self (Some frame) monitor_number w)
    = Raise (cv2_error msg).
Proof.
  intros Hr He. rewrite show_frame_reaches_window by exact Hr.
  unfold ImageDisplayer.cv2_namedWindow, ImageDisplayer.cv2_setWindowProperty_fullscreen,
    ImageDisplayer.cv2_imshow. rewrite He. unfold bind, modify, raise; simpl.
  eexists. reflexivity.
Qed.

(** X12.  [show_frame_on_monitor] raises in one case only: a frame without
    rows or without columns on the index of an enumerated monitor, which
    [cv2.imshow] refuses.  For every other frame, present or absent, and
    every other index, negative ones included, it returns normally; the
    index into the monitor positions is never out of range. *)
Theorem show_frame_raises_only_on_empty_image
    (self : ImageDisplayer.Self) (frame : option Frame) (monitor_number : Z) (w : World) :
  let r := fst (ImageDisplayer.show_frame_on_monitor self frame monitor_number w) in
  let in_range := 0 <= monitor_number < Z.of_nat (length (ImageDisplayer.monitors self)) in
  (forall f, frame = Some f -> in_range -> image_is_empty (pixels f) = true ->
             exists msg, r = Raise (cv2_error msg))
  /\ (frame = None \/ ~ in_range
      \/ (exists f, frame = Some f /\ image_is_empty (pixels f) = false) ->
      r = Ok tt).
Proof.
  intros r in_range. subst r in_range. split.
  - intros f -> Hr He. now apply show_frame_empty_image.
  - intros H.
    destruct (Z_lt_le_dec monitor_number 0) as [Hneg|Hpos].
    { unfold ImageDisplayer.show_frame_on_monitor.
      replace (monitor_number <? 0) with true by (symmetry; apply Z.ltb_lt; lia).
      rewrite orb_true_r. reflexivity. }
    destruct (Z_le_gt_dec (Z.of_nat (length (ImageDisplayer.monitors self))) monitor_number)
      as [Hout|Hin].
    { now rewrite show_frame_out_of_range. }
    destruct H as [-> | [Hn | (f & -> & Hne)]].
    + destruct (show_frame_absent self monitor_number w) as [diagnostic Hd].
      now rewrite Hd.
    + exfalso. apply Hn. lia.
    + rewrite show_frame_presents; [reflexivity | lia | exact Hne].
Qed.

(** X13.  With a frame that has rows and columns and an index of an
    enumerated monitor, [show_frame_on_monitor] leaves a full-screen window
    named after the monitor that shows the frame; the other windows are as
    before and nothing is printed. *)
Theorem show_frame_in_range_presents
    (self : ImageDisplayer.Self) (frame : Frame) (monitor_number : Z) (w : World) :
  0 <= monitor_number < Z.of_nat (length (ImageDisplayer.monitors self)) ->
  image_is_empty (pixels frame) = false ->
  exists w',
    ImageDisplayer.show_frame_on_monitor self (Some frame) monitor_number w = (Ok tt, w')
    /\ (exists window_flags,
          windows w' !! ("Monitor " +:+ pretty monitor_number)
          = Some (mkWindow window_flags true (Some frame)))
    /\ (forall name, name <> "Monitor " +:+ pretty monitor_number ->
                     windows w' !! name = windows w !! name)
    /\ stdout w' = stdout w.
Proof.
  intros Hr Hne. eexists. split; [now apply show_frame_presents|].
  split; [|split].
  - eexists. simpl. unfold window_name. apply lookup_insert_eq.
  - intros name Hn. simpl. unfold window_name. now rewrite lookup_insert_ne by congruence.
  - reflexivity.
Qed.

(** X14.  Presenting a frame and then another on the same monitor, both with
    rows and columns, leaves the world as presenting only the second: one
    window per monitor, showing the latest frame. *)
Theorem show_frame_last_frame_wins
    (self : ImageDisplayer.Self) (frame1 frame2 : Frame) (monitor_number : Z) (w : World) :
  0 <= monitor_number < Z.of_nat (length (ImageDisplayer.monitors self)) ->
  image_is_empty (pixels frame1) = false ->
  image_is_empty (pixels frame2) = false ->
  (ImageDisplayer.show_frame_on_monitor self (Some frame1) monitor_number ;;
   ImageDisplayer.show_frame_on_monitor self (Some frame2) monitor_number) w
  = ImageDisplayer.show_frame_on_monitor self (Some frame2) monitor_number w.
Proof.
  intros Hr H1 H2. erewrite bind_ok by (now apply show_frame_presents).
  rewrite !show_frame_presents by assumption.
  f_equal. destruct w as [out devs pfs ws ks cl nw inf]; unfold set_windows; simpl.
  f_equal. unfold presenting. rewrite lookup_insert_eq; simpl.
  now rewrite insert_insert_eq.
Qed.


(** *** detect_objects on an absent frame, and when the model fails *)

(** X15.  [detect_objects] on an absent frame follows the model: when the
    model answers, the call returns [None] without an exception, whether or
    not a detection survives the filter, since drawing on an absent frame
    paints nothing; when the model raises, the call raises the same.  In
    both cases the type line is printed and the inference logged. *)
Theorem detect_objects_on_absent_frame
    (model : YOLO) (threshold : Q) (disp : ImageDisplayer.Self) (imgsz : Z)
    (translator : gmap string string) (w : World) :
  (forall items,
      predict model None imgsz = Ok items ->
      drawable threshold translator items = true ->
      YOLOv8Model.detect_objects None model threshold disp imgsz translator w
      = (Ok None, after_detection None imgsz w))
  /\ (forall e,
        predict model None imgsz = Raise e ->
        YOLOv8Model.detect_objects None model threshold disp imgsz translator w
        = (Raise e, after_detection None imgsz w)).
Proof.
  split.
  - intros items Hp _. now apply (detect_objects_absent _ _ _ _ _ items).
  - intros e Hp. now rewrite detect_objects_run, Hp.
Qed.

(** *** Raising the threshold *)





(** *** Failures inside the loop *)

(** X18.  An exception of [model.predict] in an iteration ends the loop with
    that exception: the inference is logged and the type line printed, but
    nothing is presented and no key is polled. *)
Theorem detection_failure_ends_loop
    (model : YOLO) (translator : gmap string string) (cur_model_conf : Q)
    (displayer : ImageDisplayer.Self) (imgsz : Z) (camera_type : string)
    (captor captor1 : Captor) (w w0 w1 : World) (time_1 : Q) (frame : option Frame)
    (e : exn) (n : nat) :
  YOLOv8Model.time_time w = (Ok time_1, w0) ->
  YOLOv8Model.acquire camera_type (captor, w0) = (Ok frame, (captor1, w1)) ->
  predict model frame imgsz = Raise e ->
  YOLOv8Model.while_True (S n)
    (YOLOv8Model.iteration model translator cur_model_conf displayer imgsz camera_type)
    (captor, w)
  = (Raise e, (captor1, after_detection frame imgsz w1)).
Proof.
  intros Ht Hacq Hp. cbn [YOLOv8Model.while_True]. apply bind_raise.
  rewrite (iteration_after_acquire _ _ _ _ _ _ _ _ _ _ _ _ _ Ht Hacq).
  apply bind_raise. rewrite in_world_run, detect_objects_run, Hp. reflexivity.
Qed.

Lemma time_time_returns (w : World) :
  exists t w0,
    YOLOv8Model.time_time w = (Ok t, w0)
    /\ stdout w0 = stdout w /\ inferences w0 = inferences w /\ windows w0 = windows w
    /\ keys w0 = keys w /\ pylon_devices w0 = pylon_devices w
    /\ clock w0 = tl (clock w).
Proof.
  unfold YOLOv8Model.time_time, bind, gets.
  destruct (clock w) as [|t rest] eqn:Hc; simpl.
  - exists (now w), w. rewrite Hc. now repeat split.
  - eexists _, _. split; [reflexivity|]. now repeat split.
Qed.

(** X19.  [run_model] with camera type "basler" raises [AttributeError] in its
    first iteration for a captor of either class, neither of which defines
    [capture_from_basler]: no inference is made, no window touched, no key
    polled and no device changed. *)
Theorem basler_mode_raises_attribute_error
    (rt : YOLOv8Model.Runtime) (translator : gmap string string) (weights : string)
    (cur_model_conf : Q) (displayer : ImageDisplayer.Self) (imgsz : Z)
    (captor : Captor) (w : World) (model : YOLO) (n : nat) :
  YOLOv8Model.YOLO_ rt weights = Ok model ->
  exists class_name w',
    YOLOv8Model.run_model rt translator weights cur_model_conf displayer imgsz "basler"
      (S n) (captor, w)
    = (Raise (AttributeError class_name "capture_from_basler"), (captor, w'))
    /\ inferences w' = inferences w
    /\ windows w' = windows w
    /\ keys w' = keys w
    /\ pylon_devices w' = pylon_devices w.
Proof.
  intros Hload.
  set (w1 := set_stdout (fun out => out ++ [Text ("Using device: " +:+
               (if YOLOv8Model.cuda_is_available rt then "cuda" else "cpu"))]) w).
  destruct (time_time_returns w1) as (t & w0 & Ht & _ & Hinf & Hwin & Hkeys & Hdev & _).
  exists (match captor with
          | WebCamImageCaptor _ => "WebCamImageCaptor"
          | BaslerImageCaptor _ => "BaslerImageCaptor"
          end), w0.
  split; [|now repeat split].
  unfold YOLOv8Model.run_model.
  erewrite bind_ok.
  2:{ apply in_world_ok. unfold YOLOv8Model.load_model.
      erewrite bind_ok by reflexivity. unfold lift_res. rewrite Hload. reflexivity. }
  fold w1. cbn [YOLOv8Model.while_True]. apply bind_raise.
  unfold YOLOv8Model.iteration. apply bind_raise.
  unfold YOLOv8Model.process_frame.
  erewrite bind_ok by (apply in_world_ok; exact Ht).
  apply bind_raise. unfold YOLOv8Model.acquire; simpl.
  unfold YOLOv8Model.captor_capture_from_basler, bind, gets; simpl.
  now destruct captor.
Qed.


(** *** What the parts of an iteration leave alone *)

Ltac keeps_world :=
  repeat first
    [ apply keeps_ret | apply keeps_raise | apply keeps_gets | apply keeps_lift_res
    | apply keeps_bind; [|intros ?]
    | apply keeps_modify; intros ?; solve [auto]
    | match goal with
      | |- keeps _ (match ?x with _ => _ end) => destruct x
      end ].

Section WorldParts.
Context {X : Type} (proj : World -> X).

Lemma detect_objects_keeps frame model threshold disp imgsz translator :
  (forall f w, proj (set_stdout f w) = proj w) ->
  (forall f w, proj (set_inferences f w) = proj w) ->
  keeps proj (YOLOv8Model.detect_objects frame model threshold disp imgsz translator).
Proof.
  intros Hout Hinf.
  unfold YOLOv8Model.detect_objects, ImageDisplayer.echo, YOLOv8Model.model_predict.
  keeps_world.
  apply keeps_for_each. intros fr objs. apply keeps_for_each. intros fr' o.
  unfold YOLOv8Model.visit, ImageDisplayer.one_object_display. keeps_world.
Qed.

Lemma show_frame_keeps disp frame monitor_number :
  (forall f w, proj (set_stdout f w) = proj w) ->
  (forall f w, proj (set_windows f w) = proj w) ->
  keeps proj (ImageDisplayer.show_frame_on_monitor disp frame monitor_number).
Proof.
  intros Hout Hwin.
  unfold ImageDisplayer.show_frame_on_monitor, ImageDisplayer.echo,
    ImageDisplayer.cv2_namedWindow, ImageDisplayer.cv2_setWindowProperty_fullscreen,
    ImageDisplayer.cv2_imshow.
  keeps_world.
Qed.

Lemma time_time_keeps :
  (forall f w, proj (set_clock f w) = proj w) ->
  (forall f w, proj (set_now f w) = proj w) ->
  keeps proj YOLOv8Model.time_time.
Proof. intros Hc Hn. unfold YOLOv8Model.time_time. keeps_world. Qed.

Lemma report_fps_keeps time_1 :
  (forall f w, proj (set_stdout f w) = proj w) ->
  (forall f w, proj (set_clock f w) = proj w) ->
  (forall f w, proj (set_now f w) = proj w) ->
  keeps proj (YOLOv8Model.report_fps time_1).
Proof.
  intros Hout Hc Hn. unfold YOLOv8Model.report_fps, YOLOv8Model.time_time. keeps_world.
Qed.

Lemma poll_quit_keeps :
  (forall f w, proj (set_keys f w) = proj w) ->
  (forall f w, proj (set_windows f w) = proj w) ->
  keeps proj YOLOv8Model.poll_quit.
Proof.
  intros Hk Hw.
  unfold YOLOv8Model.poll_quit, YOLOv8Model.cv2_waitKey, YOLOv8Model.cv2_destroyAllWindows.
  keeps_world.
Qed.

Lemma acquire_detect_show_keeps model translator threshold disp imgsz camera_type :
  off_camera proj ->
  (forall f w, proj (set_stdout f w) = proj w) ->
  (forall f w, proj (set_inferences f w) = proj w) ->
  (forall f w, proj (set_windows f w) = proj w) ->
  keeps (fun s : Captor * World => proj (snd s))
        (acquire_detect_show model translator threshold disp imgsz camera_type).
Proof.
  intros Hcam Hout Hinf Hwin. unfold acquire_detect_show.
  apply keeps_bind; [now apply acquire_keeps | intros frame].
  apply keeps_bind; [now apply keeps_in_world, detect_objects_keeps | intros frame'].
  now apply keeps_in_world, show_frame_keeps.
Qed.
End WorldParts.

Lemma process_frame_split model translator threshold disp imgsz camera_type s :
  YOLOv8Model.process_frame model translator threshold disp imgsz camera_type s =
  (do time_1 <- in_world YOLOv8Model.time_time;
   acquire_detect_show model translator threshold disp imgsz camera_type ;;
   in_world (YOLOv8Model.report_fps time_1)) s.
Proof.
  unfold YOLOv8Model.process_frame, acquire_detect_show.
  apply bind_ext. intros time_1 s1.
  rewrite bind_assoc. apply bind_ext. intros frame s2.
  now rewrite bind_assoc.
Qed.

(** *** A clock that does not advance *)

Lemma report_fps_frozen time_1 t2 rest w :
  clock w = t2 :: rest -> (time_1 == t2)%Q ->
  exists w', YOLOv8Model.report_fps time_1 w
             = (Raise (ZeroDivisionError "float division by zero"), w')
             /\ keys w' = keys w.
Proof.
  intros Hc Heq. unfold YOLOv8Model.report_fps, YOLOv8Model.time_time.
  unfold bind at 1. unfold bind at 1, gets at 1. rewrite Hc. simpl.
  assert (Hz : Qeq_bool (t2 - time_1) 0 = true).
  { apply Qeq_bool_iff. rewrite Heq. ring. }
  rewrite Hz. eexists. split; reflexivity.
Qed.

(** X20.  An iteration whose two clock readings are equal never reaches the
    key poll: it raises, and no key is consumed.  When acquisition, detection
    and presentation went through, the exception is the [ZeroDivisionError]
    of the FPS computation. *)
Theorem frozen_clock_ends_iteration
    (model : YOLO) (translator : gmap string string) (cur_model_conf : Q)
    (displayer : ImageDisplayer.Self) (imgsz : Z) (camera_type : string)
    (captor : Captor) (w : World) (t1 t2 : Q) (rest : list Q) :
  clock w = t1 :: t2 :: rest ->
  (t1 == t2)%Q ->
  exists e s',
    YOLOv8Model.iteration model translator cur_model_conf displayer imgsz camera_type
      (captor, w) = (Raise e, s')
    /\ keys (snd s') = keys w
    /\ (fst (acquire_detect_show model translator cur_model_conf displayer imgsz
               camera_type (captor, set_now (fun _ => t1) (set_clock (fun _ => t2 :: rest) w)))
        = Ok tt ->
        e = ZeroDivisionError "float division by zero").
Proof.
  intros Hc Heq.
  set (w0 := set_now (fun _ => t1) (set_clock (fun _ => t2 :: rest) w)).
  assert (Ht : YOLOv8Model.time_time w = (Ok t1, w0)).
  { unfold YOLOv8Model.time_time, bind, gets. rewrite Hc. reflexivity. }
  pose proof (acquire_detect_show_keeps clock model translator cur_model_conf displayer
                imgsz camera_type ltac:(now intros ? ?) ltac:(now intros ? ?)
                ltac:(now intros ? ?) ltac:(now intros ? ?) (captor, w0)) as Hclock.
  pose proof (acquire_detect_show_keeps keys model translator cur_model_conf displayer
                imgsz camera_type ltac:(now intros ? ?) ltac:(now intros ? ?)
                ltac:(now intros ? ?) ltac:(now intros ? ?) (captor, w0)) as Hkeys.
  simpl in Hclock, Hkeys.
  unfold YOLOv8Model.iteration.
  destruct (acquire_detect_show model translator cur_model_conf displayer imgsz camera_type
              (captor, w0)) as [[[]|e] [c1 w1]] eqn:Hpre; simpl in Hclock, Hkeys.
  - destruct (report_fps_frozen t1 t2 rest w1 Hclock Heq) as (w2 & Hfps & Hk2).
    exists (ZeroDivisionError "float division by zero"), (c1, w2).
    split; [|split; [simpl; congruence | reflexivity]].
    apply bind_raise. rewrite process_frame_split.
    erewrite bind_ok by (apply in_world_ok; exact Ht).
    erewrite bind_ok by exact Hpre.
    rewrite in_world_run, Hfps. reflexivity.
  - exists e, (c1, w1).
    split; [|split; [simpl; congruence | discriminate]].
    apply bind_raise. rewrite process_frame_split.
    erewrite bind_ok by (apply in_world_ok; exact Ht).
    now apply bind_raise.
Qed.

(** *** The loop and the cameras *)

Lemma alter_keeps_flags (f : Device -> Device) (i : nat) (ds : list Device) :
  (forall d, (IsOpen (f d), IsGrabbing (f d)) = (IsOpen d, IsGrabbing d)) ->
  map (fun d => (IsOpen d, IsGrabbing d)) (alter f i ds)
  = map (fun d => (IsOpen d, IsGrabbing d)) ds.
Proof.
  intros Hf. revert i. induction ds as [|d ds IH]; intros [|i]; simpl; try reflexivity.
  - now rewrite Hf.
  - f_equal. apply IH.
Qed.

Lemma update_device_keeps_flags i f :
  (forall d, (IsOpen (f d), IsGrabbing (f d)) = (IsOpen d, IsGrabbing d)) ->
  keeps (fun s : Basler.St => device_flags (snd s)) (Basler.update_device i f).
Proof.
  intros Hf [self w]. rewrite update_device_run. unfold device_flags; simpl.
  now apply alter_keeps_flags.
Qed.

Lemma Basler_get_frame_keeps_flags :
  keeps (fun s : Basler.St => device_flags (snd s)) Basler.get_frame.
Proof.
  unfold Basler.get_frame, Basler.the_camera, Basler.camera_IsGrabbing,
    Basler.camera_RetrieveResult_ThrowException, Basler.device.
  repeat first [apply update_device_keeps_flags; intros ?; reflexivity | keeps_step].
Qed.

Lemma WebCam_get_frame_flags c w :
  WebCam.isOpened <$> WebCam.vid (fst (snd (WebCam.get_frame (c, w))))
  = WebCam.isOpened <$> WebCam.vid c
  /\ snd (snd (WebCam.get_frame (c, w))) = w.
Proof.
  destruct c as [[[op up req]|]]; [|split; reflexivity].
  destruct op; [|split; reflexivity].
  destruct up as [|[img|] rest]; split; reflexivity.
Qed.

Lemma captor_get_frame_keeps_flags : keeps camera_flags YOLOv8Model.captor_get_frame.
Proof.
  intros [[c|c] w]; unfold YOLOv8Model.captor_get_frame, camera_flags; simpl.
  - destruct (WebCam_get_frame_flags c w) as [Hopen Hw].
    destruct (WebCam.get_frame (c, w)) as [r [c' w']]; simpl in *. now rewrite Hopen, Hw.
  - pose proof (Basler_get_frame_keeps_flags (c, w)) as H.
    destruct (Basler.get_frame (c, w)) as [r [c' w']]; simpl in *.
    unfold device_flags in H. now rewrite H.
Qed.

Lemma in_world_keeps_flags {A} (m : M World A) :
  keeps device_flags m -> keeps camera_flags (in_world m).
Proof.
  intros Hm [c w]. rewrite in_world_run. unfold camera_flags; simpl.
  specialize (Hm w). unfold device_flags in Hm. now rewrite Hm.
Qed.

Lemma while_True_keeps {X} (proj : Captor * World -> X) (body : M (Captor * World) bool) n :
  keeps proj body -> keeps proj (YOLOv8Model.while_True n body).
Proof.
  intros Hb. induction n as [|n IH]; simpl.
  - apply keeps_ret.
  - apply keeps_bind; [exact Hb | intros [|]; [apply keeps_ret | exact IH]].
Qed.

(** X21.  [run_model] never opens, closes, starts or stops a camera: however
    it ends, by the quit key, by an exception or still running, the capture
    handle of a webcam captor is open exactly if it was, and every pylon
    device is open and grabbing exactly if it was. *)
Theorem run_model_leaves_cameras_as_they_are
    (rt : YOLOv8Model.Runtime) (translator : gmap string string) (weights : string)
    (cur_model_conf : Q) (displayer : ImageDisplayer.Self) (imgsz : Z)
    (camera_type : string) (n : nat) (s : Captor * World) :
  camera_flags (snd (YOLOv8Model.run_model rt translator weights cur_model_conf displayer
                       imgsz camera_type n s))
  = camera_flags s.
Proof.
  revert s. change (keeps camera_flags
                      (YOLOv8Model.run_model rt translator weights cur_model_conf displayer
                         imgsz camera_type n)).
  unfold YOLOv8Model.run_model.
  apply keeps_bind.
  { apply in_world_keeps_flags. unfold YOLOv8Model.load_model, ImageDisplayer.echo.
    keeps_auto. }
  intros model. apply while_True_keeps.
  unfold YOLOv8Model.iteration, YOLOv8Model.process_frame.
  apply keeps_bind; [|intros _; apply in_world_keeps_flags, poll_quit_keeps; now intros ? ?].
  apply keeps_bind; [apply in_world_keeps_flags, time_time_keeps; now intros ? ?|intros t].
  apply keeps_bind.
  { unfold YOLOv8Model.acquire, YOLOv8Model.captor_capture_from_basler.
    repeat first [apply captor_get_frame_keeps_flags | keeps_step]. }
  intros frame.
  apply keeps_bind;
    [apply in_world_keeps_flags, detect_objects_keeps; now intros ? ?|intros frame'].
  apply keeps_bind;
    [apply in_world_keeps_flags, show_frame_keeps; now intros ? ?|intros _].
  apply in_world_keeps_flags, report_fps_keeps; now intros ? ?.
Qed.


(** *** The world after detect_objects *)

(** X16.  Whatever the model answers, and whether [detect_objects] returns or
    raises, its effect on the world is one printed line and one logged
    inference; windows, keyboard, clock and devices are untouched. *)
Theorem detect_objects_touches_only_the_logs
    (frame : option Frame) (model : YOLO) (threshold : Q) (disp : ImageDisplayer.Self)
    (imgsz : Z) (translator : gmap string string) (w : World) :
  snd (YOLOv8Model.detect_objects frame model threshold disp imgsz translator w)
  = mkWorld (stdout w ++ [Text "<class 'int'>"]) (pylon_devices w) (pfs_loads w)
            (windows w) (keys w) (clock w) (now w) (inferences w ++ [(frame, imgsz)]).
Proof.
  rewrite detect_objects_run.
  change (mkWorld (stdout w ++ [Text "<class 'int'>"]) (pylon_devices w) (pfs_loads w)
            (windows w) (keys w) (clock w) (now w) (inferences w ++ [(frame, imgsz)]))
    with (after_detection frame imgsz w).
  destruct (predict model frame imgsz) as [items|e]; [|reflexivity].
  match goal with |- snd (?m ?w0) = _ =>
    assert (Hk : keeps (fun w => w) m); [|exact (Hk w0)] end.
  apply keeps_for_each. intros fr objs. apply keeps_for_each. intros fr' o.
  unfold YOLOv8Model.visit, ImageDisplayer.one_object_display. keeps_auto.
Qed.

(** *** What an iteration presents *)

(** X22.  With at least two monitors, an open webcam whose next read delivers
    an image with rows and columns and a model that answers with boxes that
    can be drawn, the part of an iteration before the key poll leaves the
    window "Monitor 1" full screen and showing that image with the
    annotations of the surviving detections, in the model's order; the read
    is consumed. *)
Theorem iteration_presents_annotated_frame
    (model : YOLO) (translator : gmap string string) (cur_model_conf : Q)
    (displayer : ImageDisplayer.Self) (imgsz : Z)
    (img : Image) (rest : list (option Image)) (req : list (Z * Z))
    (items : list (list Obj)) (w : World) :
  (2 <= length (ImageDisplayer.monitors displayer))%nat ->
  image_is_empty img = false ->
  predict model (Some (mkFrame img [])) imgsz = Ok items ->
  drawable cur_model_conf translator items = true ->
  let captor := WebCamImageCaptor
                  (WebCam.mkSelf (Some (WebCam.mkVideoCapture true (Some img :: rest) req))) in
  let s' := snd (YOLOv8Model.process_frame model translator cur_model_conf displayer imgsz
                   "usb" (captor, w)) in
  (exists window_flags,
      windows (snd s') !! "Monitor 1"
      = Some (mkWindow window_flags true
                (Some (mkFrame img
                         (flat_map (annotation_of translator)
                            (List.filter (survives cur_model_conf translator)
                                         (concat items)))))))
  /\ fst s' = WebCamImageCaptor
                (WebCam.mkSelf (Some (WebCam.mkVideoCapture true rest req))).
Proof.
  intros Hmon Himg Hp _ captor s'. subst s'.
  destruct (time_time_returns w) as (t & w0 & Ht & _).
  rewrite process_frame_split.
  erewrite bind_ok by (apply in_world_ok; exact Ht).
  assert (Hpre : acquire_detect_show model translator cur_model_conf displayer imgsz "usb"
                   (captor, w0)
                 = (Ok tt,
                    (WebCamImageCaptor
                       (WebCam.mkSelf (Some (WebCam.mkVideoCapture true rest req))),
                     set_windows
                       (fun ws => <[window_name 1 :=
                          presenting ws (window_name 1)
                            (mkFrame img
                               (flat_map (annotation_of translator)
                                  (List.filter (survives cur_model_conf translator)
                                               (concat items))))]> ws)
                       (after_detection (Some (mkFrame img [])) imgsz w0)))).
  { unfold acquire_detect_show.
    erewrite bind_ok by reflexivity.
    erewrite bind_ok by (apply in_world_ok, detect_objects_present; exact Hp).
    apply in_world_ok. apply show_frame_presents; [|exact Himg].
    unfold ImageDisplayer.default_monitor_number. lia. }
  erewrite bind_ok by exact Hpre.
  rewrite in_world_run. cbn [snd fst]. split; [|reflexivity].
  rewrite (report_fps_keeps_windows t _). simpl.
  eexists. apply lookup_insert_eq.
Qed.


Lemma config_first_access_outcomes_witness :
  ConfigLoader.access (Some "resources/config.json") malformed_everywhere
    ConfigLoader.initial
  = (Raise (Exception "Ошибка при разборе JSON из файла resources/config.json."),
     ConfigLoader.mkHeap
       (Some (ConfigLoader.mkSelf (Some "resources/config.json") None false))
       ["resources/config.json"]).
Proof.
  apply (config_first_access_outcomes "resources/config.json" malformed_everywhere).
  discriminate.
Defined.

Lemma config_values_are_dictionaries_witness :
  exists entries, JDict [("video_source_main_camera", JInt 0)] = JDict entries.
Proof.
  exact (Forall_inv
           (config_values_are_dictionaries
              [(Some "resources/config.json", valid_everywhere)]) _ eq_refl).
Defined.

Lemma config_without_path_never_loads_witness :
  ConfigLoader.accesses [(None, valid_everywhere);
                         (Some "resources/config.json", valid_everywhere)]
    ConfigLoader.initial
  = ([Raise (AttributeError "ConfigLoader" "config");
      Raise (AttributeError "ConfigLoader" "config")],
     ConfigLoader.mkHeap (Some (ConfigLoader.mkSelf None None false)) []).
Proof.
  apply (config_without_path_never_loads None valid_everywhere
           [(Some "resources/config.json", valid_everywhere)]).
  left. reflexivity.
Defined.

Lemma displayer_shares_loaded_config_witness :
  let h1 := snd (ConfigLoader.access (Some "resources/config.json") valid_everywhere
                   ConfigLoader.initial) in
  ImageDisplayer.__init__ [ImageDisplayer.mkMonitor 0 0 1920 1080] malformed_everywhere h1
  = (Ok (ImageDisplayer.mkSelf [ImageDisplayer.mkMonitor 0 0 1920 1080]
           (JDict [("video_source_main_camera", JInt 0)]) (1920, 1080)), h1).
Proof.
  intros h1.
  exact (displayer_shares_loaded_config (Some "resources/config.json") valid_everywhere
           ConfigLoader.initial h1 _ _ malformed_everywhere eq_refl).
Defined.

Lemma basler_init_starts_selected_device_witness :
  fst (Basler.__init__ 0 "camera.pfs" (Basler.blank, silent_camera_world)) = Ok tt.
Proof.
  refine (f_equal fst
            (basler_init_starts_selected_device 0 "camera.pfs" silent_camera_world
               (mkDevice false false None [GrabTimeout]) _ _ _ _)).
  - left. reflexivity.
  - simpl. lia.
  - reflexivity.
  - reflexivity.
Defined.

Lemma basler_init_refused_config_leaves_camera_open_witness :
  exists msg w',
    Basler.__init__ 0 "camera.pfs" (Basler.blank, refusing_camera_world)
    = (Raise (ValueError msg), (Basler.mkSelf (Some 1%nat) (Some 0%nat) false, w'))
    /\ (IsOpen <$> pylon_devices w' !! 0%nat) = Some true.
Proof.
  destruct (basler_init_refused_config_leaves_camera_open 0 "camera.pfs"
              refusing_camera_world
              (mkDevice false false None [Grabbed [[(1, 2, 3); (4, 5, 6)]]]))
    as (msg & w' & Hinit & Hdev & _).
  - left. reflexivity.
  - simpl. lia.
  - reflexivity.
  - reflexivity.
  - exists msg, w'. split; [exact Hinit|].
    change (Z.to_nat 0) with 0%nat in Hdev. now rewrite Hdev.
Defined.

Lemma basler_get_frame_delivers_mirror_witness :
  exists w',
    Basler.get_frame (Basler.mkSelf (Some 1%nat) (Some 0%nat) true, streaming_camera_world)
    = (Ok (true, Some (mkFrame [[(4, 5, 6); (1, 2, 3)]] [])),
       (Basler.mkSelf (Some 1%nat) (Some 0%nat) true, w')).
Proof.
  destruct (basler_get_frame_delivers_mirror
              (Basler.mkSelf (Some 1%nat) (Some 0%nat) true) streaming_camera_world 0%nat
              streaming_device [[(1, 2, 3); (4, 5, 6)]] [GrabFailed]
              eq_refl eq_refl eq_refl eq_refl eq_refl) as (w' & Hget & _).
  exists w'. exact Hget.
Defined.

Lemma get_frame_after_release_witness :
  fst ((Basler.release ;; Basler.get_frame) silent_camera_captor) = Ok (false, None).
Proof.
  exact (f_equal fst
           (proj1 get_frame_after_release (fst silent_camera_captor)
              (snd silent_camera_captor) 0%nat _ eq_refl eq_refl)).
Defined.

Lemma webcam_init_outcomes_witness :
  WebCam.__init__ unopened_capture (JInt 0) 640 480 (WebCam.blank, example_world)
  = (Raise (Exception "Unable to open video source: 0"),
     (WebCam.mkSelf (Some (WebCam.mkVideoCapture false [] [])), example_world))
  /\ WebCam.release (WebCam.mkSelf (Some (WebCam.mkVideoCapture false [] [])), example_world)
     = (Ok tt, (WebCam.mkSelf (Some (WebCam.mkVideoCapture false [] [])), example_world)).
Proof.
  exact (proj1 (webcam_init_outcomes unopened_capture (JInt 0) 640 480 WebCam.blank
                  example_world) eq_refl).
Defined.

Lemma show_frame_in_range_presents_witness :
  exists w',
    ImageDisplayer.show_frame_on_monitor two_monitors (Some example_frame) 1 example_world
    = (Ok tt, w')
    /\ (exists window_flags,
          windows w' !! "Monitor 1" = Some (mkWindow window_flags true (Some example_frame))).
Proof.
  destruct (show_frame_in_range_presents two_monitors example_frame 1 example_world)
    as (w' & Hshow & Hwin & _).
  - simpl. lia.
  - reflexivity.
  - exists w'. split; [exact Hshow | exact Hwin].
Defined.

Lemma show_frame_last_frame_wins_witness :
  (ImageDisplayer.show_frame_on_monitor two_monitors (Some earlier_frame) 1 ;;
   ImageDisplayer.show_frame_on_monitor two_monitors (Some example_frame) 1) example_world
  = ImageDisplayer.show_frame_on_monitor two_monitors (Some example_frame) 1 example_world
  /\ windows (snd (ImageDisplayer.show_frame_on_monitor two_monitors (Some example_frame) 1
                     example_world)) !! "Monitor 1"
     = Some (mkWindow WND_PROP_FULLSCREEN true (Some example_frame)).
Proof.
  split; [|reflexivity].
  apply (show_frame_last_frame_wins two_monitors earlier_frame example_frame 1
           example_world).
  - simpl. lia.
  - reflexivity.
  - reflexivity.
Defined.

Lemma detect_objects_on_absent_frame_witness :
  List.filter (survives (1 # 2) float32_translator) float32_detections <> []
  /\ YOLOv8Model.detect_objects None float32_model (1 # 2) one_monitor 640
       float32_translator example_world
     = (Ok None,
        mkWorld [Text "<class 'int'>"] [] (pfs_loads example_world) ∅ [] [] 0%Q
                [(None, 640)]).
Proof.
  split; [discriminate|].
  exact (proj1 (detect_objects_on_absent_frame float32_model (1 # 2) one_monitor 640
                  float32_translator example_world) [float32_detections] eq_refl eq_refl).
Defined.


Lemma detection_failure_ends_loop_witness :
  fst (YOLOv8Model.while_True 3
         (YOLOv8Model.iteration broken_model example_translator (1 # 2) one_monitor 640 "usb")
         (working_webcam, loop_world))
  = Raise (ExternalError "inference failed").
Proof.
  exact (f_equal fst
           (detection_failure_ends_loop broken_model example_translator (1 # 2) one_monitor
              640 "usb" working_webcam _ loop_world _ _ _ _ _ 2%nat
              eq_refl eq_refl eq_refl)).
Defined.

Lemma basler_mode_raises_attribute_error_witness :
  exists class_name w',
    YOLOv8Model.run_model example_runtime example_translator "weights.pt" (1 # 2)
      one_monitor 640 "basler" 1 (BaslerImageCaptor (fst silent_camera_captor),
                                  snd silent_camera_captor)
    = (Raise (AttributeError class_name "capture_from_basler"),
       (BaslerImageCaptor (fst silent_camera_captor), w')).
Proof.
  destruct (basler_mode_raises_attribute_error example_runtime example_translator
              "weights.pt" (1 # 2) one_monitor 640
              (BaslerImageCaptor (fst silent_camera_captor)) (snd silent_camera_captor)
              example_model 0%nat eq_refl) as (class_name & w' & Hrun & _).
  exists class_name, w'. exact Hrun.
Defined.

Lemma frozen_clock_ends_iteration_witness :
  exists e s',
    YOLOv8Model.iteration example_model example_translator (1 # 2) one_monitor 640 "usb"
      (working_webcam, frozen_world) = (Raise e, s')
    /\ keys (snd s') = [113].
Proof.
  destruct (frozen_clock_ends_iteration example_model example_translator (1 # 2) one_monitor
              640 "usb" working_webcam frozen_world 5%Q 5%Q [] eq_refl (Qeq_refl 5%Q))
    as (e & s' & Hit & Hkeys & _).
  exists e, s'. split; [exact Hit | exact Hkeys].
Defined.

Lemma iteration_presents_annotated_frame_witness :
  exists window_flags,
    windows (snd (snd (YOLOv8Model.process_frame float32_model float32_translator (1 # 2)
                         two_monitors 640 "usb" (working_webcam, loop_world))))
      !! "Monitor 1"
    = Some (mkWindow window_flags true
              (Some (mkFrame [[(12, 34, 56)]]
                       [ Rectangle (10, 10) (50, 50) (255, 255, 0) 2;
                         PutText "person 0.91" (10, 10) 3 (7 # 10) (0, 0, 0) 1 16;
                         Rectangle (30, -3) (80, 90) (255, 255, 0) 2;
                         PutText "car 0.52" (30, -3) 3 (7 # 10) (0, 0, 0) 1 16 ]))).
Proof.
  refine (proj1 (iteration_presents_annotated_frame float32_model float32_translator (1 # 2)
                   two_monitors 640 [[(12, 34, 56)]] [] [] [float32_detections] loop_world
                   _ eq_refl eq_refl eq_refl)).
  simpl. lia.
Defined.
